(** * Runway storefront: the commerce data adapter and the crossfade overlay

    A shallow embedding of the two source files of the repository:

    - [config.ts], which holds the build-time Shopify configuration and,
      after it, the Storefront library: [buildEndpoint], [shopifyFetch] and
      [formatShopifyProduct];
    - the [Experience] component file, which holds [storefrontQuery],
      [getCollectionProducts], the [PANELS] table and [CardsOverlay] with its
      fetch-on-mount effect and its scroll-driven crossfade.

    JavaScript values are embedded as an inductive type of JSON-like values,
    thrown errors as an explicit result type, and the asynchronous, effectful
    functions as a small monad that threads the log of observable effects
    (network requests, console output) and reads the network's answers from an
    oracle.

    Idealisations, stated once: JavaScript numbers are IEEE-754 doubles; finite
    numbers are held here as exact rationals, so reading a decimal literal
    and arithmetic do not round.  Where a number is written out ([ToString],
    [JSON.stringify]) the text is that of the nearest double, as the engine
    writes it.  Strings hold text encoded in UTF-8: white space is that of
    ECMAScript, by the bytes of each code point, and case mapping is that of
    ASCII.  The host locale of [toLocaleString] is taken to be en-US. *)

From Stdlib Require Import ZArith QArith Qround Lqa String Ascii List Bool Lia.
From Stdlib Require Import DecimalString.
From Stdlib Require Import Qminmax.
From stdpp Require Import gmap strings.
Import ListNotations.

Set Warnings "-register-all".
Open Scope string_scope.

(* String concatenation unfolds under [simpl] on a constructor. *)
Arguments String.append !_ _ / : simpl nomatch.

(* ===================================================================== *)
(** ** JavaScript values and the built-ins the sources call               *)
(* ===================================================================== *)

Module JS.

(** A JavaScript number: not-a-number, an infinity, or a finite value. *)
Inductive number : Type :=
| NaN
| Infinity (negative : bool)
| Fin (q : Q).

(** Values of type [any] as the sources handle them: what [response.json()]
    can produce, plus [undefined].  An object is given by its own
    properties, each key once, in the order in which [JSON.stringify]
    enumerates them: keys that are array indices first, in ascending order,
    then the others in insertion order. *)
Inductive value : Type :=
| Undefined
| Null
| Bool (b : bool)
| Num (n : number)
| Str (s : string)
| Arr (items : list value)
| Obj (fields : list (string * value)).

(** The kinds of error object the sources meet. *)
Inductive error_kind : Type := ErrorK | TypeErrorK | SyntaxErrorK.

Record exn : Type := mkExn { kind : error_kind; message : string }.

(** [new Error(msg)] *)
Definition Error (msg : string) : exn := mkExn ErrorK msg.
Definition TypeError (msg : string) : exn := mkExn TypeErrorK msg.
Definition SyntaxError (msg : string) : exn := mkExn SyntaxErrorK msg.

(** Completion of an expression: a value or a thrown error. *)
Inductive result (A : Type) : Type :=
| Ok (a : A)
| Throw (e : exn).
Arguments Ok {A} a.
Arguments Throw {A} e.

Definition rbind {A B} (r : result A) (k : A -> result B) : result B :=
  match r with
  | Ok a => k a
  | Throw e => Throw e
  end.

Fixpoint rmap {A B} (f : A -> result B) (l : list A) : result (list B) :=
  match l with
  | [] => Ok []
  | x :: l' =>
      rbind (f x) (fun y => rbind (rmap f l') (fun ys => Ok (y :: ys)))
  end.

(** *** Characters *)

Definition dquote : ascii := "034"%char.
Definition backslash : ascii := "092"%char.
Definition LF : string := String "010"%char "".

Definition is_digit (c : ascii) : bool :=
  let n := nat_of_ascii c in (48 <=? n)%nat && (n <=? 57)%nat.

Definition digit_val (c : ascii) : Z := Z.of_nat (nat_of_ascii c) - 48.

(** *** Strings *)

Definition upper_char (c : ascii) : ascii :=
  let n := nat_of_ascii c in
  if (97 <=? n)%nat && (n <=? 122)%nat then ascii_of_nat (n - 32) else c.

(** [s.toUpperCase()] *)
Fixpoint toUpperCase (s : string) : string :=
  match s with
  | String c s' => String (upper_char c) (toUpperCase s')
  | EmptyString => EmptyString
  end.

(** [a.join(sep)] on strings already converted. *)
Fixpoint join (sep : string) (l : list string) : string :=
  match l with
  | [] => ""
  | [x] => x
  | x :: l' => x ++ sep ++ join sep l'
  end.

(** [s.startsWith(p)] *)
Fixpoint starts_with (p s : string) : bool :=
  match p, s with
  | EmptyString, _ => true
  | String a p', String b s' => Ascii.eqb a b && starts_with p' s'
  | String _ _, EmptyString => false
  end.

(** [t.includes(s)]: [s] occurs in [t] as a contiguous substring. *)
Fixpoint includes (t s : string) : bool :=
  starts_with s t ||
  match t with
  | String _ t' => includes t' s
  | EmptyString => false
  end.

Fixpoint drop (n : nat) (s : string) : string :=
  match n, s with
  | O, _ => s
  | S n', String _ s' => drop n' s'
  | S _, EmptyString => EmptyString
  end.

Fixpoint take (n : nat) (s : string) : string :=
  match n, s with
  | S n', String c s' => String c (take n' s')
  | _, _ => EmptyString
  end.

(** *** White space *)

(** The string of the bytes given. *)
Definition bytes (l : list nat) : string :=
  fold_right (fun n s => String (ascii_of_nat n) s) "" l.

(** The code points that ECMAScript counts as white space or as line
    terminators, which [trim] and [parseFloat] skip, each by its bytes in
    UTF-8. *)
Definition white_space : list string :=
  map bytes
    [ [9]; [10]; [11]; [12]; [13]; [32];          (* TAB LF VT FF CR SPACE *)
      [194; 160];                                 (* U+00A0 *)
      [225; 154; 128];                            (* U+1680 *)
      [226; 128; 128]; [226; 128; 129]; [226; 128; 130]; [226; 128; 131];
      [226; 128; 132]; [226; 128; 133]; [226; 128; 134]; [226; 128; 135];
      [226; 128; 136]; [226; 128; 137]; [226; 128; 138];   (* U+2000 to U+200A *)
      [226; 128; 168]; [226; 128; 169];           (* U+2028 U+2029 *)
      [226; 128; 175];                            (* U+202F *)
      [226; 129; 159];                            (* U+205F *)
      [227; 128; 128];                            (* U+3000 *)
      [239; 187; 191] ].                          (* U+FEFF *)

(** What follows the first of the strings [ws] that [s] starts with. *)
Fixpoint after_any (ws : list string) (s : string) : option string :=
  match ws with
  | [] => None
  | w :: ws' =>
      if starts_with w s then Some (drop (String.length w) s) else after_any ws' s
  end.

(** What follows the white-space code point that [s] starts with, if it
    starts with one. *)
Definition skip_space (s : string) : option string := after_any white_space s.

(** Skips white space at the start, one code point for each unit of
    fuel. *)
Fixpoint trimStart_from (fuel : nat) (s : string) : string :=
  match fuel with
  | O => s
  | S fuel' =>
      match skip_space s with
      | Some rest => trimStart_from fuel' rest
      | None => s
      end
  end.

(** [s.trimStart()] *)
Definition trimStart (s : string) : string := trimStart_from (String.length s) s.

(** White space is all that [s] holds. *)
Definition all_space (s : string) : bool := String.eqb (trimStart s) "".

(** [s.trimEnd()]: the string up to where only white space follows. *)
Fixpoint trimEnd (s : string) : string :=
  match s with
  | String c s' => if all_space s then EmptyString else String c (trimEnd s')
  | EmptyString => EmptyString
  end.

(** [s.trim()] *)
Definition trim (s : string) : string := trimEnd (trimStart s).

(** *** Numbers *)

Definition Z_to_string (z : Z) : string := NilZero.string_of_int (Z.to_int z).

Definition digit_char (d : Z) : ascii := ascii_of_nat (48 + Z.to_nat d).

(** The first digits of the decimal expansion of [r / d] (with [0 <= r < d]),
    stopping as soon as the expansion terminates. *)
Fixpoint frac_digits (fuel : nat) (r d : Z) : string :=
  match fuel with
  | O => ""
  | S fuel' =>
      if (r =? 0)%Z then ""
      else String (digit_char (r * 10 / d)) (frac_digits fuel' ((r * 10) mod d) d)
  end.

Definition pow10 (e : Z) : Q :=
  if (e <? 0)%Z then 1 # Pos.pow 10 (Z.to_pos (- e))
  else inject_Z (10 ^ e).

Definition pow2 (e : Z) : Q :=
  if (e <? 0)%Z then 1 # Pos.pow 2 (Z.to_pos (- e))
  else inject_Z (2 ^ e).

(** The nearest integer, a tie going to the even one. *)
Definition round_half_even (q : Q) : Z :=
  let f := Qfloor q in
  match (2 * (q - inject_Z f) ?= 1)%Q with
  | Lt => f
  | Gt => (f + 1)%Z
  | Eq => if Z.even f then f else (f + 1)%Z
  end.

(** The largest [e] with [2^e <= q], for a positive [q]. *)
Definition binary_exponent (q : Q) : Z :=
  let e := (Z.log2 (Qnum q) - Z.log2 (Z.pos (Qden q)))%Z in
  if Qle_bool (pow2 e) q then e else (e - 1)%Z.

(** The double nearest to a positive rational: 53 significant bits, the
    exponent no lower than -1022, a tie going to the even significand;
    [None] when that is past the largest double. *)
Definition nearest_double (q : Q) : option Q :=
  let e := Z.max (binary_exponent q) (-1022) in
  let ulp := pow2 (e - 52) in
  let x := Qred (inject_Z (round_half_even (q / ulp)) * ulp) in
  if Qle_bool (pow2 1024) x then None else Some x.

(** The double a number stands for: a rational is rounded to the nearest
    double, and to an infinity past the largest. *)
Definition to_double (n : number) : number :=
  match n with
  | Fin q =>
      if (Qnum q =? 0)%Z then Fin 0
      else
        match nearest_double (Z.abs (Qnum q) # Qden q) with
        | Some x => Fin (if (Qnum q <? 0)%Z then - x else x)
        | None => Infinity (Qnum q <? 0)%Z
        end
  | _ => n
  end.

(** The [n] with [10^(n-1) <= x < 10^n], for a positive [x]. *)
Definition decimal_exponent (x : Q) : Z :=
  let e := (Z.of_nat (String.length (Z_to_string (Qnum x)))
            - Z.of_nat (String.length (Z_to_string (Z.pos (Qden x)))))%Z in
  if Qle_bool (pow10 e) x then (e + 1)%Z else e.

(** The decimal [s * g] is read as the double [x]. *)
Definition reads_back (x : Q) (s : Z) (g : Q) : bool :=
  match nearest_double (inject_Z s * g) with
  | Some y => Qeq_bool y x
  | None => false
  end.

(** The fewest digits that read back as the double [x]: the integer [s] of
    [k] digits, [k] counted up from the one given, for which
    [s * 10^(n-k)] is read as [x], and the closer to [x] when two are; with
    the count of its digits.  Seventeen digits always read back. *)
Fixpoint shortest_digits (fuel : nat) (k : Z) (x : Q) (n : Z) : Z * Z :=
  let g := pow10 (n - k) in
  let t := (x / g)%Q in
  let lo := Qfloor t in
  let hi := (lo + 1)%Z in
  let closest :=
    match (2 * (t - inject_Z lo) ?= 1)%Q with
    | Lt => lo
    | Gt => hi
    | Eq => if Z.even lo then lo else hi
    end in
  match fuel with
  | O => (closest, k)
  | S fuel' =>
      match reads_back x lo g, reads_back x hi g with
      | true, true => (closest, k)
      | true, false => (lo, k)
      | false, true => (hi, k)
      | false, false => shortest_digits fuel' (k + 1) x n
      end
  end.

Fixpoint zeros (n : nat) : string :=
  match n with
  | O => ""
  | S n' => String "0" (zeros n')
  end.

Fixpoint drop_trailing_zeros (s : string) : string :=
  match s with
  | String c s' =>
      match drop_trailing_zeros s' with
      | EmptyString => if Ascii.eqb c "0"%char then EmptyString else String c EmptyString
      | t => String c t
      end
  | EmptyString => EmptyString
  end.

(** The digits [ds] with the decimal point after the first [n] of them, as
    [Number::toString] writes them: in full for [n] from -5 to 21, with an
    exponent otherwise. *)
Definition place_point (ds : string) (n : Z) : string :=
  let k := Z.of_nat (String.length ds) in
  if (-5 <=? n)%Z && (n <=? 21)%Z then
    if (k <=? n)%Z then ds ++ zeros (Z.to_nat (n - k))
    else if (0 <? n)%Z then take (Z.to_nat n) ds ++ "." ++ drop (Z.to_nat n) ds
    else "0." ++ zeros (Z.to_nat (- n)) ++ ds
  else
    let e := (n - 1)%Z in
    match ds with
    | String c EmptyString => ds
    | String c rest => String c ("." ++ rest)
    | EmptyString => ""
    end ++ "e" ++ (if (e <? 0)%Z then "-" else "+") ++ Z_to_string (Z.abs e).

(** [Number.prototype.toString]: the shortest digits that read back as the
    double, written in full or with an exponent. *)
Definition number_to_string (n : number) : string :=
  match to_double n with
  | NaN => "NaN"
  | Infinity false => "Infinity"
  | Infinity true => "-Infinity"
  | Fin q =>
      if (Qnum q =? 0)%Z then "0"
      else
        let x := Z.abs (Qnum q) # Qden q in
        let n0 := decimal_exponent x in
        let '(s, k) := shortest_digits 16 1 x n0 in
        let ds := Z_to_string s in
        (if (Qnum q <? 0)%Z then "-" else "")
          ++ place_point (drop_trailing_zeros ds) (n0 + Z.of_nat (String.length ds) - k)
  end.

(** Digits of a natural number in groups of three separated by commas. *)
Fixpoint group3 (fuel : nat) (z : Z) : string :=
  match fuel with
  | O => Z_to_string z
  | S fuel' =>
      if (z <? 1000)%Z then Z_to_string z
      else
        let r := (z mod 1000)%Z in
        group3 fuel' (z / 1000) ++ ","
          ++ (if (r <? 10)%Z then "00" else if (r <? 100)%Z then "0" else "")
          ++ Z_to_string r
  end.

(** [n.toLocaleString()] in the en-US locale: grouped integer digits, at
    most three fraction digits (rounded half away from zero), trailing
    zeros dropped. *)
Definition toLocaleString (n : number) : string :=
  match n with
  | NaN => "NaN"
  | Infinity false => "∞"
  | Infinity true => "-∞"
  | Fin q =>
      let d := Z.pos (Qden q) in
      let a := Z.abs (Qnum q) in
      let m := ((2 * a * 1000 + d) / (2 * d))%Z in   (* thousandths, rounded *)
      let ip := (m / 1000)%Z in
      let fr := frac_digits 3 (m mod 1000) 1000 in
      (if (Qnum q <? 0)%Z then "-" else "") ++ group3 (Z.to_nat (Z.log2 ip)) ip
        ++ (match fr with EmptyString => "" | _ => "." ++ fr end)
  end.

(** Reads the longest run of decimal digits: the number read so far, how
    many digits were read, and the rest of the string. *)
Fixpoint read_digits (s : string) (acc : Z) (count : nat) : Z * nat * string :=
  match s with
  | String c s' =>
      if is_digit c then read_digits s' (acc * 10 + digit_val c) (S count)
      else (acc, count, s)
  | EmptyString => (acc, count, s)
  end.

(** The exponent part [e], [e+] or [e-] followed by at least one digit;
    [0] when there is none. *)
Definition read_exponent (s : string) : Z :=
  match s with
  | String c s' =>
      if Ascii.eqb c "e"%char || Ascii.eqb c "E"%char then
        let '(neg, s'') :=
          match s' with
          | String "-"%char t => (true, t)
          | String "+"%char t => (false, t)
          | _ => (false, s')
          end in
        let '(e, k, _) := read_digits s'' 0 0 in
        match k with
        | O => 0
        | _ => if neg then - e else e
        end
      else 0
  | EmptyString => 0
  end.

(** [parseFloat(s)]: leading white space, a sign, then the longest prefix
    that is a decimal literal; [NaN] when there is none. *)
Definition parseFloat (s : string) : number :=
  let s0 := trimStart s in
  let '(neg, s1) :=
    match s0 with
    | String "-"%char t => (true, t)
    | String "+"%char t => (false, t)
    | _ => (false, s0)
    end in
  if starts_with "Infinity" s1 then Infinity neg
  else
    let '(ip, ni, s2) := read_digits s1 0 0 in
    let '(fp, nf, s3) :=
      match s2 with
      | String "."%char t => read_digits t 0 0
      | _ => (0%Z, O, s2)
      end in
    match (ni + nf)%nat with
    | O => NaN
    | _ =>
        let mant := (ip * 10 ^ Z.of_nat nf + fp)%Z in
        let e := (read_exponent s3 - Z.of_nat nf)%Z in
        Fin (Qred ((if neg then inject_Z (- mant) else inject_Z mant) * pow10 e))
    end.

(** *** Values *)

Definition nullish (v : value) : bool :=
  match v with
  | Undefined | Null => true
  | _ => false
  end.

(** [ToBoolean] *)
Definition truthy (v : value) : bool :=
  match v with
  | Undefined | Null => false
  | Bool b => b
  | Num NaN => false
  | Num (Infinity _) => true
  | Num (Fin q) => negb (Qnum q =? 0)%Z
  | Str s => negb (String.eqb s "")
  | Arr _ | Obj _ => true
  end.

(** [a || b] *)
Definition or_else (a b : value) : value := if truthy a then a else b.

(** A parameter declared with the default [d]: the default stands in when
    the argument is [undefined] or left out. *)
Definition default_to (d v : value) : value :=
  match v with
  | Undefined => d
  | _ => v
  end.

Fixpoint lookup_field (k : string) (fields : list (string * value)) : option value :=
  match fields with
  | [] => None
  | (k', v) :: fields' => if String.eqb k k' then Some v else lookup_field k fields'
  end.

(** [v.k]: a [TypeError] on [undefined] and [null]; own data properties of
    objects, and [length] of arrays and strings; [undefined] otherwise.
    Inherited properties are not modelled: none of the names the sources
    read is one. *)
Definition get (v : value) (k : string) : result value :=
  match v with
  | Undefined =>
      Throw (TypeError ("Cannot read properties of undefined (reading '" ++ k ++ "')"))
  | Null =>
      Throw (TypeError ("Cannot read properties of null (reading '" ++ k ++ "')"))
  | Obj fields =>
      Ok (match lookup_field k fields with Some x => x | None => Undefined end)
  | Arr items =>
      Ok (if String.eqb k "length"
          then Num (Fin (inject_Z (Z.of_nat (List.length items)))) else Undefined)
  | Str s =>
      Ok (if String.eqb k "length"
          then Num (Fin (inject_Z (Z.of_nat (String.length s)))) else Undefined)
  | Bool _ | Num _ => Ok Undefined
  end.

(** [v?.k] *)
Definition opt_get (v : value) (k : string) : value :=
  if nullish v then Undefined
  else match get v k with Ok x => x | Throw _ => Undefined end.

(** [v?.[i]] *)
Definition opt_index (v : value) (i : nat) : value :=
  match v with
  | Arr items => nth i items Undefined
  | Obj fields =>
      match lookup_field (Z_to_string (Z.of_nat i)) fields with
      | Some x => x
      | None => Undefined
      end
  | Str s =>
      match String.get i s with
      | Some c => Str (String c "")
      | None => Undefined
      end
  | _ => Undefined
  end.

(** The text [ToString] returns, when it returns. *)
Fixpoint to_string (v : value) : string :=
  match v with
  | Undefined => "undefined"
  | Null => "null"
  | Bool true => "true"
  | Bool false => "false"
  | Num n => number_to_string n
  | Str s => s
  | Arr items =>
      join "," (map (fun x => if nullish x then "" else to_string x) items)
  | Obj _ => "[object Object]"
  end.

(** [ToString] returns on every value but an object that has a property
    [toString] of its own, since what JSON holds there cannot be called and
    the inherited [valueOf] returns the object itself, and an array that
    holds such an object, which [join] converts in turn. *)
Fixpoint printable (v : value) : bool :=
  match v with
  | Obj fields =>
      match lookup_field "toString" fields with
      | Some _ => false
      | None => true
      end
  | Arr items => forallb (fun x => nullish x || printable x) items
  | _ => true
  end.

(** [ToString], as a template literal, [parseFloat] and [new Error(v)]
    apply it. *)
Definition ToString (v : value) : result string :=
  if printable v then Ok (to_string v)
  else Throw (TypeError "Cannot convert object to primitive value").

(** [v.map(f)]: the callback runs on the items in order and the first
    error it throws ends the loop; a [TypeError] when [v] has no [map]
    method.  [callee] is the text of the callee, for the message. *)
Definition array_map {A} (callee : string) (v : value) (f : value -> result A)
  : result (list A) :=
  match v with
  | Arr items => rmap f items
  | Undefined =>
      Throw (TypeError "Cannot read properties of undefined (reading 'map')")
  | Null =>
      Throw (TypeError "Cannot read properties of null (reading 'map')")
  | _ => Throw (TypeError (callee ++ " is not a function"))
  end.

(** [a.filter(Boolean)] *)
Definition filter_truthy (l : list value) : list value := List.filter truthy l.

(** *** JSON.stringify *)

Definition hex_digit (n : nat) : ascii :=
  if (n <? 10)%nat then ascii_of_nat (48 + n) else ascii_of_nat (87 + n).

(** The escape of one character inside a JSON string literal. *)
Definition escape_char (c : ascii) : string :=
  let n := nat_of_ascii c in
  if Ascii.eqb c dquote then String backslash (String dquote "")
  else if Ascii.eqb c backslash then String backslash (String backslash "")
  else if (n =? 8)%nat then String backslash "b"
  else if (n =? 9)%nat then String backslash "t"
  else if (n =? 10)%nat then String backslash "n"
  else if (n =? 12)%nat then String backslash "f"
  else if (n =? 13)%nat then String backslash "r"
  else if (n <? 32)%nat then
    String backslash ("u00" ++ String (hex_digit (n / 16)) (String (hex_digit (n mod 16)) ""))
  else String c "".

Fixpoint escape (s : string) : string :=
  match s with
  | String c s' => escape_char c ++ escape s'
  | EmptyString => EmptyString
  end.

(** [QuoteJSONString] *)
Definition quote (s : string) : string :=
  String dquote (escape s) ++ String dquote "".

(** [SerializeJSONProperty] with the indentation [gap]; [indent] is the
    current indentation.  [None] stands for [undefined]: such a property is
    left out of an object and written [null] in an array. *)
Fixpoint serialize (gap indent : string) (v : value) : option string :=
  match v with
  | Undefined => None
  | Null => Some "null"
  | Bool true => Some "true"
  | Bool false => Some "false"
  | Num n =>
      Some (match to_double n with
            | Fin _ => number_to_string n
            | _ => "null"
            end)
  | Str s => Some (quote s)
  | Arr items =>
      let inner := indent ++ gap in
      let partial :=
        map (fun x => match serialize gap inner x with
                      | Some t => t
                      | None => "null"
                      end) items in
      Some (match partial with
            | [] => "[]"
            | _ =>
                if String.eqb gap "" then "[" ++ join "," partial ++ "]"
                else "[" ++ LF ++ inner ++ join ("," ++ LF ++ inner) partial
                       ++ LF ++ indent ++ "]"
            end)
  | Obj fields =>
      let inner := indent ++ gap in
      let partial :=
        flat_map (fun kv => match serialize gap inner (snd kv) with
                            | Some t =>
                                [quote (fst kv) ++ ":"
                                   ++ (if String.eqb gap "" then "" else " ") ++ t]
                            | None => []
                            end) fields in
      Some (match partial with
            | [] => "{}"
            | _ =>
                if String.eqb gap "" then "{" ++ join "," partial ++ "}"
                else "{" ++ LF ++ inner ++ join ("," ++ LF ++ inner) partial
                       ++ LF ++ indent ++ "}"
            end)
  end.

(** [JSON.stringify(v)] and [JSON.stringify(v, null, 2)] *)
Definition stringify (v : value) : option string := serialize "" "" v.
Definition stringify2 (v : value) : option string := serialize "  " "" v.

End JS.

(* ===================================================================== *)
(** ** config.ts: the build-time configuration                            *)
(* ===================================================================== *)

Module Config.

(** [import.meta.env]: the three VITE_* keys, each possibly absent.  (The
    [console.info] of development builds reads the configuration and changes
    nothing; it is left out.) *)
Record env : Type := mkEnv {
  VITE_SHOPIFY_STORE_DOMAIN : option string;
  VITE_SHOPIFY_STOREFRONT_TOKEN : option string;
  VITE_SHOPIFY_API_VERSION : option string
}.

(** [x || ''] on a string that may be absent. *)
Definition or_empty (o : option string) : string :=
  match o with
  | Some s => s
  | None => ""
  end.

Definition SHOPIFY_DOMAIN (e : env) : string :=
  JS.trim (or_empty (VITE_SHOPIFY_STORE_DOMAIN e)).

Definition SHOPIFY_TOKEN (e : env) : string :=
  JS.trim (or_empty (VITE_SHOPIFY_STOREFRONT_TOKEN e)).

Definition SHOPIFY_API_VERSION (e : env) : string :=
  let v := JS.trim (or_empty (VITE_SHOPIFY_API_VERSION e)) in
  if String.eqb v "" then "2026-01" else v.

Record shopify_config : Type := mkConfig {
  domain : string;
  storefrontAccessToken : string;
  apiVersion : string
}.

Definition SHOPIFY_CONFIG (e : env) : shopify_config :=
  {| domain := SHOPIFY_DOMAIN e;
     storefrontAccessToken := SHOPIFY_TOKEN e;
     apiVersion := SHOPIFY_API_VERSION e |}.

Definition USE_LIVE_DATA (c : shopify_config) : bool :=
  negb (String.eqb (domain c) "") && negb (String.eqb (storefrontAccessToken c) "").

Definition IS_SHOPIFY_LIVE := USE_LIVE_DATA.

End Config.

(* ===================================================================== *)
(** ** Asynchronous, effectful code                                        *)
(* ===================================================================== *)

Module Eff.
Import JS.

(** What [fetch(endpoint, init)] is called with. *)
Record request : Type := mkRequest {
  endpoint : string;
  method : string;
  headers : list (string * string);
  body : option string
}.

(** What [response.json()] settles to: the parsed body, or a rejection
    with the engine's parse error. *)
Inductive parsed : Type :=
| Parsed (json : value)
| Unparseable (err : exn).

Record response : Type := mkResponse {
  status : Z;
  statusText : string;
  json : parsed
}.

(** [response.ok] *)
Definition ok (r : response) : bool :=
  (200 <=? status r)%Z && (status r <=? 299)%Z.

(** The world outside: what each request is answered with.  [fetch]
    itself rejects when there is no answer at all. *)
Definition network : Type := request -> result response.

(** The observable effects. *)
Inductive event : Type :=
| Fetch (rq : request)
| ConsoleError (label : string).

Definition trace : Type := list event.

(** A computation reads the network, extends the log of effects in the
    order they happen, and completes normally or throws (for an [async]
    function: fulfils or rejects). *)
Definition M (A : Type) : Type := network -> trace -> trace * result A.

Definition ret {A} (a : A) : M A := fun _ t => (t, Ok a).

Definition throw {A} (e : exn) : M A := fun _ t => (t, Throw e).

Definition bind {A B} (c : M A) (k : A -> M B) : M B :=
  fun net t =>
    match c net t with
    | (t', Ok a) => k a net t'
    | (t', Throw e) => (t', Throw e)
    end.

(** [try { c } catch (e) { h e }] *)
Definition try_catch {A} (c : M A) (h : exn -> M A) : M A :=
  fun net t =>
    match c net t with
    | (t', Ok a) => (t', Ok a)
    | (t', Throw e) => h e net t'
    end.

(** A pure completion as a computation. *)
Definition lift {A} (r : result A) : M A := fun _ t => (t, r).

(** [await fetch(endpoint, init)] *)
Definition fetch (rq : request) : M response :=
  fun net t => ((t ++ [Fetch rq])%list, net rq).

(** [await response.json()] *)
Definition response_json (r : response) : M value :=
  match json r with
  | Parsed v => ret v
  | Unparseable e => throw e
  end.

(** [console.error(label, ...)] *)
Definition console_error (label : string) : M unit :=
  fun _ t => ((t ++ [ConsoleError label])%list, Ok tt).

(** Runs a computation from an empty log. *)
Definition run {A} (c : M A) (net : network) : trace * result A := c net [].

(** The requests a log holds. *)
Definition requests (t : trace) : list request :=
  flat_map (fun ev => match ev with Fetch rq => [rq] | ConsoleError _ => [] end) t.

(** The values of the promises that fulfilled, in list order. *)
Definition fulfilled_values {A} (rs : list (result A)) : list A :=
  flat_map (fun r => match r with Ok a => [a] | Throw _ => [] end) rs.

(** The reason of the first rejection met when the promises are visited in
    the order [order] of their indices. *)
Fixpoint first_rejection {A} (order : list nat) (rs : list (result A)) : option exn :=
  match order with
  | [] => None
  | i :: order' =>
      match nth_error rs i with
      | Some (Throw e) => Some e
      | _ => first_rejection order' rs
      end
  end.

(** [await Promise.all(promises)]: rejects with the reason of the promise
    that rejects first, fulfils with all the values when none rejects.
    Which rejection comes first is a matter of timing: [order] lists the
    promises' indices in the order they settle (indices it leaves out settle
    afterwards, in list order). *)
Definition Promise_all {A} (order : list nat) (rs : list (result A)) : result (list A) :=
  match first_rejection (order ++ seq 0 (List.length rs))%list rs with
  | Some e => Throw e
  | None => Ok (fulfilled_values rs)
  end.

(** Starts every task, in list order, against the same network: the
    outcomes, and the log of all their effects. *)
Fixpoint start_all {A} (tasks : list (M A)) : network -> trace -> trace * list (result A) :=
  fun net t =>
    match tasks with
    | [] => (t, [])
    | c :: tasks' =>
        let '(t', r) := c net t in
        let '(t'', rs) := start_all tasks' net t' in
        (t'', r :: rs)
    end.

End Eff.

Notation "x <- c ;; k" := (Eff.bind c (fun x => k))
  (at level 100, c at next level, right associativity).
Notation "c1 ;;; c2" := (Eff.bind c1 (fun _ => c2))
  (at level 100, right associativity).


(* ===================================================================== *)
(** ** The Experience component file                                      *)
(* ===================================================================== *)

Module Experience.
Import JS Eff.

(** *** Shopify Storefront (client side) *)

Record ShopifyProduct : Type := mkProduct {
  id : value;
  title : value;
  handle : value;
  imageUrl : value;
  price : string
}.

(** The text of the [CollectionProducts] query. *)
Definition CollectionProducts_query : string := "
    query CollectionProducts($handle: String!, $first: Int!) {
      collectionByHandle(handle: $handle) {
        title
        products(first: $first) {
          edges {
            node {
              id
              title
              handle
              featuredImage {
                url
                altText
              }
              priceRange {
                minVariantPrice {
                  amount
                  currencyCode
                }
              }
            }
          }
        }
      }
    }
  ".

Section Storefront.

(** The module constants read from [SHOPIFY_CONFIG]. *)
Variable cfg : Config.shopify_config.

Definition STORE_DOMAIN : string := Config.domain cfg.
Definition STOREFRONT_TOKEN : string := Config.storefrontAccessToken cfg.
Definition STOREFRONT_VERSION : string := Config.apiVersion cfg.

(** [storefrontQuery(query, variables)]; [variables] is [undefined] when the
    caller leaves it out. *)
Definition storefrontQuery (query : string) (variables : value) : M value :=
  if String.eqb STORE_DOMAIN "" || String.eqb STOREFRONT_TOKEN "" then
    throw (Error "Missing VITE_SHOPIFY_STORE_DOMAIN or VITE_SHOPIFY_STOREFRONT_TOKEN")
  else
    let endpoint :=
      "https://" ++ STORE_DOMAIN ++ "/api/" ++ STOREFRONT_VERSION ++ "/graphql.json" in
    res <- fetch {| endpoint := endpoint;
                    method := "POST";
                    headers := [("Content-Type", "application/json");
                                ("X-Shopify-Storefront-Access-Token", STOREFRONT_TOKEN)];
                    body := stringify (Obj [("query", Str query);
                                            ("variables", variables)]) |} ;;
    json <- response_json res ;;
    failed <- (if negb (ok res) then ret true
               else (errors <- lift (get json "errors") ;; ret (truthy errors))) ;;
    if failed : bool then
      errors <- lift (get json "errors") ;;
      let msg := match stringify2 (or_else errors json) with
                 | Some text => text
                 | None => "undefined"
                 end in
      throw (Error ("Storefront API error: " ++ msg))
    else
      lift (get json "data").

(** The callback of [col.products.edges.map]: one edge to one product.
    Its parameter is destructured, which fails on [undefined] and [null]. *)
Definition shape_edge (edge : value) : result ShopifyProduct :=
  rbind (match edge with
         | Undefined =>
             Throw (TypeError
                      "Cannot destructure property 'node' of 'undefined' as it is undefined.")
         | Null =>
             Throw (TypeError
                      "Cannot destructure property 'node' of 'object null' as it is null.")
         | _ => get edge "node"
         end) (fun node =>
  rbind (get node "id") (fun node_id =>
  rbind (get node "title") (fun node_title =>
  rbind (get node "handle") (fun node_handle =>
  rbind (get node "featuredImage") (fun featuredImage =>
  rbind (get node "priceRange") (fun priceRange =>
  rbind (get priceRange "minVariantPrice") (fun minVariantPrice =>
  rbind (get minVariantPrice "amount") (fun amount =>
  rbind (ToString amount) (fun amount_text =>
  rbind (get minVariantPrice "currencyCode") (fun currencyCode =>
  rbind (ToString currencyCode) (fun currency_text =>
  Ok {| id := node_id;
        title := node_title;
        handle := node_handle;
        imageUrl := opt_get featuredImage "url";
        price := amount_text ++ " " ++ currency_text |}))))))))))).

(** [getCollectionProducts(handle, first)]; [first] defaults to 12. *)
Definition getCollectionProducts (handle : string) (first : Z) : M (list ShopifyProduct) :=
  data <- storefrontQuery CollectionProducts_query
            (Obj [("handle", Str handle); ("first", Num (Fin (inject_Z first)))]) ;;
  col <- lift (get data "collectionByHandle") ;;
  if negb (truthy col) then ret []
  else
    products <- lift (get col "products") ;;
    edges <- lift (get products "edges") ;;
    lift (array_map "col.products.edges.map" edges shape_edge).

End Storefront.

(** *** Experience / scroll overlay *)

Record Panel : Type := mkPanel {
  key : string;
  panel_title : string;
  collectionHandle : string   (* Shopify collection handle *)
}.

Definition PANELS : list Panel :=
  [ {| key := "hoodies"; panel_title := "HOODIES"; collectionHandle := "hoodies-1" |};
    {| key := "shirts"; panel_title := "SHIRTS"; collectionHandle := "shirts" |} ].

(** The two pieces of state of [CardsOverlay]. *)
Record overlay_state : Type := mkState {
  productsByHandle : gmap string (list ShopifyProduct);
  error : option string
}.

(** [useState({})] and [useState(null)] *)
Definition initial_state : overlay_state :=
  {| productsByHandle := ∅; error := None |}.

Definition setProductsByHandle (m : gmap string (list ShopifyProduct))
  (st : overlay_state) : overlay_state :=
  {| productsByHandle := m; error := error st |}.

Definition setError (e : option string) (st : overlay_state) : overlay_state :=
  {| productsByHandle := productsByHandle st; error := e |}.

(** One entry of the batch: a handle with its products. *)
Definition entry : Type := string * list ShopifyProduct.

(** The task [PANELS.map] builds for a panel. *)
Definition panel_task (cfg : Config.shopify_config) (p : Panel) : M entry :=
  products <- getCollectionProducts cfg (collectionHandle p) 12 ;;
  ret (collectionHandle p, products).

(** [for (const [handle, products] of entries) map[handle] = products] *)
Definition entries_map (entries : list entry) : gmap string (list ShopifyProduct) :=
  fold_left (fun m e => <[fst e := snd e]> m) entries ∅.

(** The [try] block after the [await], with the flag as it is then. *)
Definition after_await (cancelled : bool) (entries : list entry)
  (st : overlay_state) : overlay_state :=
  if cancelled then st
  else setProductsByHandle (entries_map entries) st.

(** The [catch] block: [e?.message || "Failed to load products"]. *)
Definition catch_block (cancelled : bool) (e : exn) (st : overlay_state) : overlay_state :=
  if negb cancelled then
    setError (Some (if String.eqb (message e) "" then "Failed to load products"
                    else message e)) st
  else st.

(** One run of the effect: the state of the component and the flag
    [cancelled] of the effect's closure. *)
Record effect_instance : Type := mkInstance {
  view : overlay_state;
  cancelled : bool
}.

(** The synchronous start of the effect: [let cancelled = false], then
    [setError(null)]; the queries are started by [start_batch]. *)
Definition effect_start (st : overlay_state) : effect_instance :=
  {| view := setError None st; cancelled := false |}.

(** The queries of all panels, started in order. *)
Definition start_batch (cfg : Config.shopify_config) (panels : list Panel)
  : network -> trace -> trace * list (result entry) :=
  start_all (map (panel_task cfg) panels).

(** The cleanup function the effect returns. *)
Definition cleanup (s : effect_instance) : result effect_instance :=
  Ok {| view := view s; cancelled := true |}.

(** The continuation of the [async] function once [Promise.all] has
    settled with [r]. *)
Definition settle (r : result (list entry)) (s : effect_instance) : result effect_instance :=
  Ok {| view := match r with
                | Ok entries => after_await (cancelled s) entries (view s)
                | Throw e => catch_block (cancelled s) e (view s)
                end;
        cancelled := cancelled s |}.

(** What can happen to a running effect. *)
Inductive lifecycle : Type :=
| Unmount
| Settled (r : result (list entry)).

Definition step (s : effect_instance) (ev : lifecycle) : result effect_instance :=
  match ev with
  | Unmount => cleanup s
  | Settled r => settle r s
  end.

Fixpoint steps (s : effect_instance) (evs : list lifecycle) : result effect_instance :=
  match evs with
  | [] => Ok s
  | ev :: evs' => rbind (step s ev) (fun s' => steps s' evs')
  end.

(** The whole fetch attempt of a mounted overlay: the log of effects and
    the state once the batch has settled; [order] is the order in which the
    queries settle and [unmounted] tells whether the cleanup ran first. *)
Definition fetch_attempt (cfg : Config.shopify_config) (panels : list Panel)
  (net : network) (order : list nat) (unmounted : bool) (st : overlay_state)
  : trace * result effect_instance :=
  let s0 := effect_start st in
  let '(t, rs) := start_batch cfg panels net [] in
  (t, steps s0 ((if unmounted then [Unmount] else []) ++ [Settled (Promise_all order rs)])%list).

(** *** The camera rig *)

(** three's [MathUtils.lerp(x, y, t)], which is [(1 - t) * x + t * y]. *)
Definition lerp (x y t : Q) : Q := ((1 - t) * x + t * y)%Q.

(** The fields of the camera that the rig drives. *)
Record camera : Type := mkCamera {
  position_z : Q;
  rotation_x : Q;
  rotation_y : Q;
  rotation_z : Q
}.

(** [state.pointer] *)
Record pointer : Type := mkPointer {
  pointer_x : Q;
  pointer_y : Q
}.

(** The callback [CameraRig] hands to [useFrame].  [scroll] is what
    [useScroll] returned, reduced to its [offset] ([None] when it is falsy);
    the decimal constants 0.2 and 0.05 are taken exactly. *)
Definition CameraRig_frame (scroll : option Q) (ptr : pointer) (delta : Q)
  (cam : camera) : camera :=
  match scroll with
  | None => cam
  | Some offset =>
      let targetZ := (- (offset * 70))%Q in
      let z := lerp (position_z cam) (5 + targetZ)%Q (delta * 2)%Q in
      let targetRotZ := (offset * (2 # 10))%Q in
      let rz := lerp (rotation_z cam) targetRotZ (delta * 2)%Q in
      let targetRotX := (- pointer_y ptr * (5 # 100))%Q in
      let targetRotY := (- pointer_x ptr * (5 # 100))%Q in
      let rx := lerp (rotation_x cam) targetRotX (delta * 2)%Q in
      let ry := lerp (rotation_y cam) targetRotY (delta * 2)%Q in
      {| position_z := z; rotation_x := rx; rotation_y := ry; rotation_z := rz |}
  end.

(** *** The crossfade *)

(** What a visible panel shows. *)
Inductive content : Type :=
| Loading
| NoProducts
| Cards (products : list ShopifyProduct).

(** The element rendered for a panel. *)
Record rendered : Type := mkRendered {
  panel_key : string;
  opacity : Q;
  y : Q;
  shown : content
}.

(** The callback of [PANELS.map((p, idx) => ...)]; [None] is [null]. *)
Definition render_panel (st : overlay_state) (i : Z) (frac : Q)
  (p : Panel) (idx : nat) : option rendered :=
  let isCurrent := (Z.of_nat idx =? i)%Z in
  let isNext := (Z.of_nat idx =? i + 1)%Z in
  if negb isCurrent && negb isNext then None
  else
    let opacity := if isCurrent then (1 - frac)%Q else frac in
    let y := ((1 - opacity) * 18)%Q in
    let products := default [] (productsByHandle st !! collectionHandle p) in
    Some {| panel_key := key p;
            opacity := opacity;
            y := y;
            shown := match products with
                     | [] => if (size (productsByHandle st) =? 0)%nat
                             then Loading else NoProducts
                     | _ => Cards products
                     end |}.

(** [l.map((x, idx) => f x idx)], counting from [idx]. *)
Fixpoint map_index {A B} (f : A -> nat -> B) (l : list A) (idx : nat) : list B :=
  match l with
  | [] => []
  | x :: l' => f x idx :: map_index f l' (S idx)
  end.

(** The panels of [CardsOverlay] at the scroll offset [offset]. *)
Definition CardsOverlay (panels : list Panel) (st : overlay_state) (offset : Q)
  : list (option rendered) :=
  let total := List.length panels in
  let pos := (offset * inject_Z (Z.of_nat total))%Q in   (* 0..total *)
  let i := Qfloor pos in
  let frac := (pos - inject_Z i)%Q in
  map_index (render_panel st i frac) panels 0.

(** The elements that reach the screen: React skips [null]. *)
Definition visible (l : list (option rendered)) : list rendered :=
  flat_map (fun o => match o with Some r => [r] | None => [] end) l.

Definition opacity_sum (l : list rendered) : Q :=
  fold_right (fun r acc => (opacity r + acc)%Q) 0%Q l.

End Experience.

(* ===================================================================== *)
(** ** config.ts, second document: the Storefront library                 *)
(* ===================================================================== *)

Module ShopifyLib.
Import JS Eff.

(** [s.replace(/^https?:\/\//, '')] *)
Definition strip_protocol (s : string) : string :=
  if starts_with "https://" s then drop 8 s
  else if starts_with "http://" s then drop 7 s
  else s.

(** [s.replace(/\/+$/, '')] *)
Fixpoint strip_trailing_slashes (s : string) : string :=
  match s with
  | String c s' =>
      match strip_trailing_slashes s' with
      | EmptyString => if Ascii.eqb c "/"%char then EmptyString else String c EmptyString
      | t => String c t
      end
  | EmptyString => EmptyString
  end.

Record ShopifyProduct : Type := mkProduct {
  id : value;
  label : string;
  price : string;
  priceVal : number;
  imageUrl : value;
  variantId : value;
  handle : value;
  description : value;
  images : list value;
  currencyCode : value
}.

Section Fetcher.

Variable cfg : Config.shopify_config.

Definition buildEndpoint : result string :=
  let domain := strip_trailing_slashes (strip_protocol (Config.domain cfg)) in
  if String.eqb domain "" || String.eqb (Config.storefrontAccessToken cfg) "" then
    Throw (Error "Missing Shopify configuration (domain or token)")
  else
    Ok ("https://" ++ domain ++ "/api/" ++ Config.apiVersion cfg ++ "/graphql.json").

(** [shopifyFetch(query, variables = {})]: the parameter [variables] is
    read once, in the body of the request, with its default. *)
Definition shopifyFetch (query : string) (variables : value) : M value :=
  endpoint <- lift buildEndpoint ;;
  response <- fetch {| endpoint := endpoint;
                       method := "POST";
                       headers := [("Content-Type", "application/json");
                                   ("X-Shopify-Storefront-Access-Token",
                                    Config.storefrontAccessToken cfg)];
                       body := stringify (Obj [("query", Str query);
                                               ("variables",
                                                default_to (Obj []) variables)]) |} ;;
  json <- try_catch (response_json response)
            (fun error =>
               console_error "Shopify API returned invalid JSON" ;;;
               throw (Error "Invalid response from Shopify")) ;;
  if negb (ok response) then
    console_error "Shopify API HTTP error:" ;;;
    message <- lift (ToString
                       (or_else (opt_get (opt_index (opt_get json "errors") 0) "message")
                                (Str ("Shopify API error ("
                                        ++ Z_to_string (status response) ++ ")")))) ;;
    throw (Error message)
  else
    errors <- lift (get json "errors") ;;
    if truthy errors then
      console_error "Shopify API errors:" ;;;
      message <- lift (ToString
                         (or_else (opt_get (opt_index errors 0) "message")
                                  (Str "Shopify API error"))) ;;
      throw (Error message)
    else
      lift (get json "data").

End Fetcher.

(** [node.variants?.edges?.[0]?.node], given [node.variants]. *)
Definition first_variant (variants : value) : value :=
  opt_get (opt_index (opt_get variants "edges") 0) "node".

(** [node.title.toUpperCase()], given [node.title]. *)
Definition upper_title (title : value) : result string :=
  match title with
  | Str s => Ok (toUpperCase s)
  | Undefined =>
      Throw (TypeError "Cannot read properties of undefined (reading 'toUpperCase')")
  | Null =>
      Throw (TypeError "Cannot read properties of null (reading 'toUpperCase')")
  | _ => Throw (TypeError "node.title.toUpperCase is not a function")
  end.

Definition formatShopifyProduct (node : value) : result ShopifyProduct :=
  rbind (get node "variants") (fun variants =>
  let price := or_else (opt_get (opt_get (first_variant variants) "price") "amount")
                       (Str "0") in
  let currency := or_else (opt_get (opt_get (first_variant variants) "price") "currencyCode")
                          (Str "USD") in
  rbind (get node "images") (fun node_images =>
  rbind (let edges := opt_get node_images "edges" in
         if nullish edges then Ok []
         else rbind (array_map "node.images?.edges?.map" edges
                       (fun edge => Ok (opt_get (opt_get edge "node") "url")))
                    (fun urls => Ok (filter_truthy urls))) (fun images =>
  let image := or_else (nth 0 images Undefined) (Str "") in
  let variantId := opt_get (first_variant variants) "id" in
  rbind (get node "id") (fun node_id =>
  rbind (get node "title") (fun node_title =>
  rbind (upper_title node_title) (fun label =>
  rbind (ToString price) (fun price_text =>
  rbind (get node "handle") (fun node_handle =>
  rbind (get node "description") (fun node_description =>
  Ok {| id := node_id;
        label := label;
        price := "$" ++ toLocaleString (parseFloat price_text);   (* Simplified formatting *)
        priceVal := parseFloat price_text;
        imageUrl := image;
        variantId := variantId;
        handle := node_handle;
        description := node_description;
        images := images;
        currencyCode := currency |}))))))))).

End ShopifyLib.

(* ===================================================================== *)
(** ** Vocabulary of the statements                                       *)
(* ===================================================================== *)

Import JS Eff.

(** The network answers every request with the response [r]. *)
Definition responds (net : network) (r : response) : Prop :=
  forall rq, net rq = Ok r.

(** A promise of the batch that rejected. *)
Definition rejected {A} (r : result A) : bool :=
  match r with
  | Ok _ => false
  | Throw _ => true
  end.



(** The edge list under the property [k] of a node ([node.k?.edges]). *)
Definition edge_list (k : string) (node : value) : value :=
  opt_get (opt_get node k) "edges".

(** The edge list is absent (at any level) or empty. *)
Definition absent_or_empty (edges : value) : Prop :=
  nullish edges = true \/ edges = Arr [].

(** A product node as the library's queries select it: an object with a
    title string whose image edges, when present, are an array. *)
Definition product_node (node : value) : Prop :=
  (exists fields t, node = Obj fields /\ lookup_field "title" fields = Some (Str t))
  /\ (nullish (edge_list "images" node) = true \/ exists l, edge_list "images" node = Arr l).

(** The amount and the currency code of an edge's minimum variant price,
    when the edge has the shape the collection query selects. *)
Definition min_variant_price (edge : value) : option (string * string) :=
  match edge with
  | Obj ef =>
      match lookup_field "node" ef with
      | Some (Obj nf) =>
          match lookup_field "priceRange" nf with
          | Some (Obj pf) =>
              match lookup_field "minVariantPrice" pf with
              | Some (Obj mf) =>
                  match lookup_field "amount" mf, lookup_field "currencyCode" mf with
                  | Some (Str a), Some (Str c) => Some (a, c)
                  | _, _ => None
                  end
              | _ => None
              end
          | _ => None
          end
      | _ => None
      end
  | _ => None
  end.

(** The price text of an edge when amount and currency code are joined
    verbatim by one space. *)
Definition verbatim_price (edge : value) : option string :=
  match min_variant_price edge with
  | Some (a, c) => Some (a ++ " " ++ c)
  | None => None
  end.

(** The response is a success that carries [data]: a 2xx status, a body
    that parses, no truthy [errors] in it, and [data] under its [data]. *)
Definition delivers (r : response) (data : value) : Prop :=
  ok r = true /\
  exists body e,
    json r = Parsed body /\ get body "errors" = Ok e /\ truthy e = false
    /\ get body "data" = Ok data.

(** [collectionByHandle] is null or absent in [data]. *)
Definition collection_missing (data : value) : Prop :=
  exists col, get data "collectionByHandle" = Ok col /\ nullish col = true.

(** [data] holds a collection whose product edges are [edges]. *)
Definition collection_edges (data : value) (edges : list value) : Prop :=
  exists col products,
    get data "collectionByHandle" = Ok col /\ truthy col = true
    /\ get col "products" = Ok products /\ get products "edges" = Ok (Arr edges).

(** What [throw new Error(v)] throws: the error whose message is the text
    of [v], or the [TypeError] of the conversion when [v] has no text. *)
Definition thrown_Error (v : value) : exn :=
  if printable v then Error (to_string v)
  else TypeError "Cannot convert object to primitive value".

(** The text [storefrontQuery] puts after its prefix. *)
Definition api_error_text (v : value) : string :=
  match stringify2 v with
  | Some text => text
  | None => "undefined"
  end.

(** The text [JSON.stringify] writes for a non-empty array or object, given
    its items already written. *)
Definition framed (gap indent opening closing : string) (partial : list string) : string :=
  if String.eqb gap "" then opening ++ join "," partial ++ closing
  else opening ++ LF ++ (indent ++ gap) ++ join ("," ++ LF ++ indent ++ gap) partial
         ++ LF ++ indent ++ closing.

(** The outcome of a computation does not depend on what was logged
    before it started. *)
Definition log_independent {A} (c : M A) : Prop :=
  forall net t, snd (c net t) = snd (c net []).

(** A string of white space only: empty, or a white-space code point
    followed by such a string (one unit of fuel for each). *)
Fixpoint blank_from (fuel : nat) (s : string) : bool :=
  match s with
  | EmptyString => true
  | String _ _ =>
      match fuel, skip_space s with
      | S fuel', Some rest => blank_from fuel' rest
      | _, _ => false
      end
  end.

Definition blank (s : string) : bool := blank_from (String.length s) s.

(** *** Sample data *)

Definition sample_config : Config.shopify_config :=
  {| Config.domain := "runway.myshopify.com";
     Config.storefrontAccessToken := "token";
     Config.apiVersion := "2026-01" |}.

Definition unconfigured : Config.shopify_config :=
  {| Config.domain := "";
     Config.storefrontAccessToken := "token";
     Config.apiVersion := "2026-01" |}.

(** A network that answers every request with the status and body given. *)
Definition answering (st : Z) (body : value) : network :=
  fun _ => Ok {| status := st; statusText := ""; json := Parsed body |}.

(** A product node with the price fields of both queries. *)
Definition sample_node : value :=
  Obj [("id", Str "gid://shopify/Product/1");
       ("title", Str "Hoodie");
       ("handle", Str "hoodie");
       ("featuredImage", Null);
       ("priceRange",
        Obj [("minVariantPrice",
              Obj [("amount", Str "19.5"); ("currencyCode", Str "USD")])]);
       ("variants",
        Obj [("edges",
              Arr [Obj [("node",
                         Obj [("id", Str "gid://shopify/ProductVariant/1");
                              ("price",
                               Obj [("amount", Str "19.5");
                                    ("currencyCode", Str "USD")])])]])])].

(** The same node as the collection query alone returns it. *)
Definition sample_collection_node : value :=
  Obj [("id", Str "gid://shopify/Product/1");
       ("title", Str "Hoodie");
       ("handle", Str "hoodie");
       ("featuredImage", Null);
       ("priceRange",
        Obj [("minVariantPrice",
              Obj [("amount", Str "19.5"); ("currencyCode", Str "USD")])])].

Definition collection_response (edges : list value) : value :=
  Obj [("data",
        Obj [("collectionByHandle",
              Obj [("title", Str "Hoodies");
                   ("products", Obj [("edges", Arr edges)])])])].


Definition errors_response (msg : string) : value :=
  Obj [("errors", Arr [Obj [("message", Str msg)]])].

(** A network on which the collection of shirts is down: a request that
    names the handle [shirts] gets status 500, any other a collection of one
    product. *)
Definition shirts_down : network :=
  fun rq =>
    if includes (match body rq with Some text => text | None => "" end) "shirts"
    then Ok {| status := 500; statusText := "Internal Server Error";
               json := Parsed (errors_response "Internal error") |}
    else Ok {| status := 200; statusText := "OK";
               json := Parsed (collection_response [Obj [("node", sample_node)]]) |}.

(* ===================================================================== *)
(** ** Vocabulary of the further properties                               *)
(* ===================================================================== *)

(** The request [storefrontQuery] hands to [fetch]. *)
Definition storefront_request (cfg : Config.shopify_config) (query : string)
  (variables : value) : request :=
  {| endpoint := "https://" ++ Config.domain cfg ++ "/api/" ++ Config.apiVersion cfg
                   ++ "/graphql.json";
     method := "POST";
     headers := [("Content-Type", "application/json");
                 ("X-Shopify-Storefront-Access-Token", Config.storefrontAccessToken cfg)];
     body := stringify (Obj [("query", Str query); ("variables", variables)]) |}.

(** The request [shopifyFetch] hands to [fetch], given its endpoint. *)
Definition library_request (cfg : Config.shopify_config) (endpoint : string)
  (query : string) (variables : value) : request :=
  {| endpoint := endpoint;
     method := "POST";
     headers := [("Content-Type", "application/json");
                 ("X-Shopify-Storefront-Access-Token", Config.storefrontAccessToken cfg)];
     body := stringify (Obj [("query", Str query); ("variables", variables)]) |}.

(** The variables [getCollectionProducts] sends. *)
Definition collection_variables (handle : string) (first : Z) : value :=
  Obj [("handle", Str handle); ("first", Num (Fin (inject_Z first)))].

(** The console lines a log holds. *)
Definition console_lines (t : trace) : list string :=
  flat_map (fun ev => match ev with Fetch _ => [] | ConsoleError label => [label] end) t.

(** The network is down: [fetch] rejects every request with [e]. *)
Definition unreachable (net : network) (e : exn) : Prop :=
  forall rq, net rq = Throw e.

(** A domain the library leaves as it is: no protocol in front, no slash
    at the end. *)
Definition clean_domain (d : string) : Prop :=
  ShopifyLib.strip_trailing_slashes (ShopifyLib.strip_protocol d) = d.

(** [n] slashes. *)
Fixpoint slashes (n : nat) : string :=
  match n with
  | O => ""
  | S n' => String "/" (slashes n')
  end.

(** The last character of a string, if any. *)
Fixpoint last_char (s : string) : option ascii :=
  match s with
  | EmptyString => None
  | String c EmptyString => Some c
  | String _ s' => last_char s'
  end.

(** No white-space code point stands at the start of the string or at its
    end. *)
Definition trimmed (s : string) : Prop :=
  forall w, In w white_space -> (forall r, s <> w ++ r) /\ (forall u, s <> u ++ w).

(** The character U+00A0, which is white space outside ASCII. *)
Definition nbsp : string := bytes [194; 160].

(** A configuration that differs from [cfg] in its domain only. *)
Definition with_domain (cfg : Config.shopify_config) (d : string) : Config.shopify_config :=
  {| Config.domain := d;
     Config.storefrontAccessToken := Config.storefrontAccessToken cfg;
     Config.apiVersion := Config.apiVersion cfg |}.

(** The property [k] of an edge's node ([edge.node.k], read leniently). *)
Definition node_field (k : string) (edge : value) : value :=
  opt_get (opt_get edge "node") k.

(** An edge whose node is an object without a price range. *)
Definition lacks_price_range (edge : value) : Prop :=
  exists ef nf,
    edge = Obj ef /\ lookup_field "node" ef = Some (Obj nf)
    /\ lookup_field "priceRange" nf = None.

(** The amount of the first variant's price, read leniently
    ([node.variants?.edges?.[0]?.node?.price?.amount]). *)
Definition first_amount (node : value) : value :=
  opt_get (opt_get (ShopifyLib.first_variant (opt_get node "variants")) "price") "amount".

(** The URLs of the image edges, as the callback of [map] reads them. *)
Definition image_urls (edges : list value) : list value :=
  map (fun edge => opt_get (opt_get edge "node") "url") edges.

(** A product node priced in euros. *)
Definition sample_euro_node : value :=
  Obj [("title", Str "Sweat");
       ("variants",
        Obj [("edges",
              Arr [Obj [("node",
                         Obj [("price",
                               Obj [("amount", Str "19.50");
                                    ("currencyCode", Str "EUR")])])]])])].

(** What the collection query of a panel fulfils with on the network
    (nothing when it rejects). *)
Definition panel_products (cfg : Config.shopify_config) (net : network)
  (p : Experience.Panel) : list Experience.ShopifyProduct :=
  match snd (run (Experience.getCollectionProducts cfg (Experience.collectionHandle p) 12)
               net) with
  | Ok ps => ps
  | Throw _ => []
  end.

(** The collection query of a panel fulfils on the network. *)
Definition panel_fulfils (cfg : Config.shopify_config) (net : network)
  (p : Experience.Panel) : Prop :=
  rejected (snd (run (Experience.getCollectionProducts cfg (Experience.collectionHandle p) 12)
                   net)) = false.

(** The request the overlay sends for a panel. *)
Definition panel_request (cfg : Config.shopify_config) (p : Experience.Panel) : request :=
  storefront_request cfg Experience.CollectionProducts_query
    (collection_variables (Experience.collectionHandle p) 12).

(** The targets the camera rig steers to. *)
Definition target_z (offset : Q) : Q := (5 - 70 * offset)%Q.
Definition target_roll (offset : Q) : Q := (offset / 5)%Q.
Definition target_pitch (ptr : Experience.pointer) : Q := (- Experience.pointer_y ptr / 20)%Q.
Definition target_yaw (ptr : Experience.pointer) : Q := (- Experience.pointer_x ptr / 20)%Q.

(** [n] frames in a row under the same scroll offset, pointer and frame
    time. *)
Fixpoint frames (n : nat) (offset : Q) (ptr : Experience.pointer) (delta : Q)
  (cam : Experience.camera) : Experience.camera :=
  match n with
  | O => cam
  | S n' =>
      Experience.CameraRig_frame (Some offset) ptr delta (frames n' offset ptr delta cam)
  end.

(** [q] to the power [n]. *)
Fixpoint qpow (q : Q) (n : nat) : Q :=
  match n with
  | O => 1%Q
  | S n' => (q * qpow q n')%Q
  end.

(** The names every JavaScript object inherits: a mapping kept in a plain
    object answers a lookup of one of them with the inherited member. *)
Definition inherited_name (h : string) : bool :=
  existsb (String.eqb h)
    ["constructor"; "toString"; "toLocaleString"; "valueOf"; "hasOwnProperty";
     "isPrototypeOf"; "propertyIsEnumerable"; "__proto__"; "__defineGetter__";
     "__defineSetter__"; "__lookupGetter__"; "__lookupSetter__"].

(** Panels whose handles are none of these names: for them the finite map
    is the plain object [productsByHandle]. *)
Definition ordinary_panels (panels : list Experience.Panel) : Prop :=
  Forall (fun p => inherited_name (Experience.collectionHandle p) = false) panels.

(* ===================================================================== *)
(** ** The crossfade: which panels render, and how opaque                 *)
(* ===================================================================== *)

Section Crossfade.
Import Experience.

Variable st : overlay_state.

(** A panel that is neither current nor next renders nothing. *)
Lemma render_panel_skipped (i : Z) (frac : Q) (p : Panel) (idx : nat) :
  Z.of_nat idx <> i -> Z.of_nat idx <> (i + 1)%Z ->
  render_panel st i frac p idx = None.
Proof.
  intros Hc Hn. unfold render_panel.
  apply Z.eqb_neq in Hc. apply Z.eqb_neq in Hn.
  now rewrite Hc, Hn.
Qed.

Lemma render_panel_current (frac : Q) (p : Panel) (idx : nat) :
  exists r, render_panel st (Z.of_nat idx) frac p idx = Some r
            /\ panel_key r = key p /\ opacity r = (1 - frac)%Q.
Proof.
  unfold render_panel. rewrite Z.eqb_refl. simpl.
  eexists. split; [reflexivity | split; reflexivity].
Qed.

Lemma render_panel_next (i : Z) (frac : Q) (p : Panel) (idx : nat) :
  Z.of_nat idx = (i + 1)%Z ->
  exists r, render_panel st i frac p idx = Some r
            /\ panel_key r = key p /\ opacity r = frac.
Proof.
  intros H. unfold render_panel.
  assert (Hc : (Z.of_nat idx =? i)%Z = false) by (apply Z.eqb_neq; lia).
  assert (Hn : (Z.of_nat idx =? i + 1)%Z = true) by (apply Z.eqb_eq; lia).
  rewrite Hc, Hn. simpl.
  eexists. split; [reflexivity | split; reflexivity].
Qed.

(** Panels whose indices all lie off the current and the next one. *)
Lemma visible_none (i : Z) (frac : Q) (panels : list Panel) (k : nat) :
  (i + 1 < Z.of_nat k \/ Z.of_nat k + Z.of_nat (List.length panels) <= i)%Z ->
  visible (map_index (render_panel st i frac) panels k) = [].
Proof.
  revert k. induction panels as [|p panels IH]; intros k H; [reflexivity|].
  simpl in *. rewrite render_panel_skipped by lia.
  simpl. apply IH. lia.
Qed.

(** From the current panel on: itself, and the next one when there is one. *)
Lemma visible_from_current (frac : Q) (p : Panel) (panels : list Panel) (k : nat) :
  exists r,
    panel_key r = key p /\ opacity r = (1 - frac)%Q /\
    match panels with
    | [] =>
        visible (map_index (render_panel st (Z.of_nat k) frac) (p :: panels) k) = [r]
    | q :: _ =>
        exists r', panel_key r' = key q /\ opacity r' = frac /\
          visible (map_index (render_panel st (Z.of_nat k) frac) (p :: panels) k) = [r; r']
    end.
Proof.
  destruct (render_panel_current frac p k) as (r & Hr & Hk & Ho).
  exists r. split; [exact Hk | split; [exact Ho |]].
  destruct panels as [|q panels]; simpl.
  - now rewrite Hr.
  - destruct (render_panel_next (Z.of_nat k) frac q (S k)) as (r' & Hr' & Hk' & Ho'); [lia|].
    exists r'. split; [exact Hk' | split; [exact Ho' |]].
    rewrite Hr, Hr'. simpl.
    rewrite visible_none by lia. reflexivity.
Qed.

(** The panels rendered when the current index falls inside the table. *)
Lemma visible_inside (i : nat) (frac : Q) (panels : list Panel) (k : nat) :
  (k <= i < k + List.length panels)%nat ->
  exists r,
    Some (panel_key r) = option_map key (nth_error panels (i - k))
    /\ opacity r = (1 - frac)%Q /\
    match nth_error panels (S (i - k)) with
    | None =>
        visible (map_index (render_panel st (Z.of_nat i) frac) panels k) = [r]
    | Some q =>
        exists r', panel_key r' = key q /\ opacity r' = frac /\
          visible (map_index (render_panel st (Z.of_nat i) frac) panels k) = [r; r']
    end.
Proof.
  revert k. induction panels as [|p panels IH]; intros k H; simpl in H; [lia|].
  destruct (Nat.eq_dec i k) as [->|Hne].
  - replace (k - k)%nat with O by lia. simpl.
    destruct (visible_from_current frac p panels k) as (r & Hk & Ho & Hv).
    exists r. rewrite Hk. split; [reflexivity | split; [exact Ho |]].
    destruct panels; exact Hv.
  - destruct (IH (S k)) as (r & Hk & Ho & Hv); [lia|].
    replace (i - k)%nat with (S (i - S k)) by lia.
    exists r. split; [exact Hk | split; [exact Ho |]].
    simpl. rewrite render_panel_skipped by lia. exact Hv.
Qed.

End Crossfade.

Section CrossfadeOffsets.
Import Experience.

Variable st : overlay_state.
Variable panels : list Panel.

(** The panel count as a number. *)
Local Abbreviation total := (inject_Z (Z.of_nat (List.length panels))).

(** The current index stays below the panel count while the offset stays
    below one. *)
Lemma current_index_range (offset : Q) :
  (0 <= offset)%Q -> (offset < 1)%Q -> panels <> [] ->
  (0 <= Qfloor (offset * total) < Z.of_nat (List.length panels))%Z.
Proof.
  intros H0 H1 Hne.
  assert (Hlen : (0 < Z.of_nat (List.length panels))%Z)
    by (destruct panels; [congruence | simpl; lia]).
  assert (Htot : (0 < total)%Q).
  { replace 0%Q with (inject_Z 0) by reflexivity.
    rewrite <- Zlt_Qlt. exact Hlen. }
  split.
  - replace 0%Z with (Qfloor 0) by reflexivity.
    apply Qfloor_resp_le. apply Qmult_le_0_compat; [exact H0 | apply Qlt_le_weak, Htot].
  - rewrite Zlt_Qlt.
    apply Qle_lt_trans with (offset * total)%Q; [apply Qfloor_le|].
   
    apply Qlt_le_trans with (1 * total)%Q;
      [apply Qmult_lt_compat_r; assumption | rewrite Qmult_1_l; apply Qle_refl].
Qed.

(** At the end of the scroll range the current index is the panel count,
    one past the last panel: nothing is rendered. *)
Lemma crossfade_full_scroll (offset : Q) :
  (offset == 1)%Q -> visible (CardsOverlay panels st offset) = [].
Proof.
  intros H. unfold CardsOverlay.
  assert (Hi : Qfloor (offset * inject_Z (Z.of_nat (List.length panels)))
               = Z.of_nat (List.length panels)).
  { rewrite H. rewrite Qmult_1_l. apply Qfloor_Z. }
  rewrite Hi. apply visible_none. lia.
Qed.

(** Before the last segment two neighbours render and their opacities add
    up to one. *)
Lemma crossfade_two_panels (offset : Q) :
  (0 <= offset)%Q -> (offset * total < total - 1)%Q ->
  exists r1 r2,
    visible (CardsOverlay panels st offset) = [r1; r2]
    /\ (opacity_sum [r1; r2] == 1)%Q.
Proof.
  intros H0 H1. unfold CardsOverlay.
  set (pos := (offset * total)%Q) in *.
  assert (Hlo : (0 <= Qfloor pos)%Z).
  { replace 0%Z with (Qfloor 0) by reflexivity. apply Qfloor_resp_le.
    unfold pos. apply Qmult_le_0_compat; [exact H0|].
    replace 0%Q with (inject_Z 0) by reflexivity.
    rewrite <- Zle_Qle. lia. }
  assert (Hhi : (Qfloor pos + 1 < Z.of_nat (List.length panels))%Z).
  { rewrite Zlt_Qlt.
    apply Qle_lt_trans with (pos + 1)%Q.
    - rewrite inject_Z_plus. apply Qplus_le_l. apply Qfloor_le.
    - change (inject_Z 1) with 1%Q. lra. }
  destruct (visible_inside st (Z.to_nat (Qfloor pos)) (pos - inject_Z (Qfloor pos))
              panels 0) as (r & _ & Ho & Hv); [lia|].
  rewrite Z2Nat.id in Hv by lia.
  replace (Z.to_nat (Qfloor pos) - 0)%nat with (Z.to_nat (Qfloor pos)) in Hv by lia.
  destruct (nth_error panels (S (Z.to_nat (Qfloor pos)))) as [q|] eqn:Hq.
  - destruct Hv as (r' & _ & Ho' & Hv). exists r, r'. split; [exact Hv|].
    unfold opacity_sum. simpl. rewrite Ho, Ho'. ring.
  - apply nth_error_None in Hq. lia.
Qed.

(** In the last segment the last panel renders alone, and its opacity is
    the panel count times the distance of the offset from one. *)
Lemma crossfade_last_segment (offset : Q) :
  (total - 1 <= offset * total)%Q -> (offset < 1)%Q -> (0 <= offset)%Q -> panels <> [] ->
  exists r,
    visible (CardsOverlay panels st offset) = [r]
    /\ Some (panel_key r) = option_map key (nth_error panels (List.length panels - 1))
    /\ (opacity r == total * (1 - offset))%Q.
Proof.
  intros H1 H2 H0 Hne.
  pose proof (current_index_range offset H0 H2 Hne) as [Hlo Hhi].
  unfold CardsOverlay.
  set (pos := (offset * total)%Q) in *.
  assert (Hi : Qfloor pos = (Z.of_nat (List.length panels) - 1)%Z).
  { assert (Z.of_nat (List.length panels) - 1 <= Qfloor pos)%Z; [|lia].
    replace (Z.of_nat (List.length panels) - 1)%Z
      with (Qfloor (inject_Z (Z.of_nat (List.length panels) - 1))) by apply Qfloor_Z.
    apply Qfloor_resp_le.
    unfold Zminus. rewrite inject_Z_plus. exact H1. }
  destruct (visible_inside st (Z.to_nat (Qfloor pos)) (pos - inject_Z (Qfloor pos))
              panels 0) as (r & Hk & Ho & Hv); [lia|].
  rewrite Z2Nat.id in Hv by lia.
  replace (Z.to_nat (Qfloor pos) - 0)%nat with (List.length panels - 1)%nat in * by lia.
  destruct (nth_error panels (S (List.length panels - 1))) as [q|] eqn:Hq.
  - assert (nth_error panels (S (List.length panels - 1)) = None)
      by (apply nth_error_None; lia).
    congruence.
  - exists r. split; [exact Hv | split; [exact Hk|]].
    rewrite Ho, Hi. unfold pos, Zminus. rewrite inject_Z_plus.
    change (inject_Z (- (1))) with (- (1))%Q. ring.
Qed.

End CrossfadeOffsets.

Section CrossfadeOnPanels.
Import Experience.

(** C1, on the code: with the two panels of [PANELS], the overlay renders no
    panel at all at offset 1 (the current index is 2, past the table), and at
    offset 3/4 it renders the last panel alone at opacity 1/2, so that the
    opacities of the rendered panels do not add up to 1.  The claim asks for
    one or two panels whose opacities sum to 1 at every offset of [0,1]. *)
Theorem crossfade_blank_at_full_scroll (st : overlay_state) :
  visible (CardsOverlay PANELS st 1) = []
  /\ exists r,
       visible (CardsOverlay PANELS st (3 # 4)) = [r]
       /\ (opacity r == 1 # 2)%Q
       /\ ~ (opacity_sum (visible (CardsOverlay PANELS st (3 # 4))) == 1)%Q.
Proof.
  split; [apply crossfade_full_scroll; reflexivity|].
  destruct (crossfade_last_segment st PANELS (3 # 4)) as (r & Hv & _ & Ho);
    try (vm_compute; congruence).
  exists r. split; [exact Hv|]. rewrite Hv.
  assert (Hhalf : (opacity r == 1 # 2)%Q) by (rewrite Ho; reflexivity).
  split; [exact Hhalf|].
  unfold opacity_sum. simpl. rewrite Hhalf. vm_compute. congruence.
Qed.

(** C2, on the code: with the two panels of [PANELS], at the offsets
    1 - 1/(2k), which approach 1, the last panel is the only one rendered and
    its opacity is 1/k: it goes to 0, not to 1; at offset 1 itself the last
    panel is not rendered.  The claim asks for an opacity that reaches or
    converges to 1. *)
Theorem last_panel_fades_out (st : overlay_state) (k : positive) :
  (exists r,
     visible (CardsOverlay PANELS st (1 - (1 # (2 * k)))) = [r]
     /\ panel_key r = "shirts"
     /\ (opacity r == 1 # k)%Q)
  /\ nth_error (CardsOverlay PANELS st 1) 1 = Some None.
Proof.
  split.
  - destruct (crossfade_last_segment st PANELS (1 - (1 # (2 * k)))) as (r & Hv & Hk & Ho).
    + unfold Qle, Qminus, Qplus, Qmult, Qopp. simpl. lia.
    + unfold Qlt, Qminus, Qplus, Qopp. simpl. lia.
    + unfold Qle, Qminus, Qplus, Qopp. simpl. lia.
    + discriminate.
    + exists r. split; [exact Hv|]. split.
      * simpl in Hk. congruence.
      * rewrite Ho. unfold Qeq, Qminus, Qplus, Qmult, Qopp. simpl. lia.
  - reflexivity.
Qed.

End CrossfadeOnPanels.

(* ===================================================================== *)
(** ** Strings: substrings and JSON string literals                        *)
(* ===================================================================== *)

Section Strings.

Lemma append_assoc (a b c : string) : (a ++ b) ++ c = a ++ (b ++ c).
Proof. induction a as [|x a IH]; simpl; [reflexivity | now rewrite IH]. Qed.

Lemma append_nil_r (a : string) : a ++ "" = a.
Proof. induction a as [|x a IH]; simpl; [reflexivity | now rewrite IH]. Qed.

Lemma starts_with_append (p s : string) : starts_with p (p ++ s) = true.
Proof.
  induction p as [|c p IH]; simpl; [reflexivity|].
  now rewrite Ascii.eqb_refl, IH.
Qed.

Lemma starts_with_prefix (p s : string) :
  starts_with p s = true -> exists post, s = p ++ post.
Proof.
  revert s. induction p as [|c p IH]; intros s H; simpl in *.
  - now exists s.
  - destruct s as [|d s]; [discriminate|].
    apply andb_true_iff in H as [Hc Hp].
    apply Ascii.eqb_eq in Hc. subst d.
    destruct (IH s Hp) as [post ->]. now exists post.
Qed.

Lemma includes_unfold (t s : string) :
  includes t s
  = starts_with s t || match t with String _ t' => includes t' s | EmptyString => false end.
Proof. destruct t; reflexivity. Qed.

(** [includes] finds every occurrence... *)
Lemma includes_append (pre s post : string) :
  includes (pre ++ s ++ post) s = true.
Proof.
  induction pre as [|c pre IH]; simpl.
  - rewrite includes_unfold, starts_with_append. reflexivity.
  - rewrite IH. apply orb_true_r.
Qed.

(** ... and nothing else. *)
Lemma includes_occurrence (t s : string) :
  includes t s = true -> exists pre post, t = pre ++ s ++ post.
Proof.
  induction t as [|c t IH]; simpl; intros H.
  - rewrite orb_false_r in H. destruct s; [|discriminate].
    now exists "", "".
  - apply orb_true_iff in H as [H|H].
    + destruct (starts_with_prefix _ _ H) as [post E]. now exists "", post.
    + destruct (IH H) as (pre & post & ->). now exists (String c pre), post.
Qed.

Lemma includes_self (s : string) : includes s s = true.
Proof.
  pose proof (includes_append "" s "") as H. simpl in H.
  now rewrite append_nil_r in H.
Qed.

(** A substring of a substring is a substring. *)
Lemma includes_trans (t s u : string) :
  includes t s = true -> includes s u = true -> includes t u = true.
Proof.
  intros H1 H2.
  destruct (includes_occurrence _ _ H1) as (pre & post & ->).
  destruct (includes_occurrence _ _ H2) as (pre' & post' & ->).
  replace (pre ++ (pre' ++ u ++ post') ++ post)
    with ((pre ++ pre') ++ u ++ (post' ++ post)).
  - apply includes_append.
  - now rewrite !append_assoc.
Qed.



End Strings.

(* ===================================================================== *)
(** ** White space and [trim]                                              *)
(* ===================================================================== *)

Section WhiteSpace.

Lemma length_append (a b : string) :
  String.length (a ++ b) = (String.length a + String.length b)%nat.
Proof. induction a as [|c a IH]; simpl; [reflexivity | now rewrite IH]. Qed.

Lemma starts_with_drop (w s : string) :
  starts_with w s = true -> s = w ++ drop (String.length w) s.
Proof.
  revert s. induction w as [|a w IH]; intros [|b s]; simpl; try easy.
  intros H. apply andb_true_iff in H as [Hab Hw].
  apply Ascii.eqb_eq in Hab as ->. f_equal. now apply IH.
Qed.

Lemma after_any_In (ws : list string) (s r : string) :
  after_any ws s = Some r -> exists w, In w ws /\ s = w ++ r.
Proof.
  induction ws as [|w ws IH]; simpl; [discriminate|].
  destruct (starts_with w s) eqn:Hw.
  - intros H. injection H as <-. exists w. split; [now left|].
    now apply starts_with_drop.
  - intros H. destruct (IH H) as (w' & Hin & Hs). exists w'. split; [now right | exact Hs].
Qed.

(** A white-space code point takes at least one byte. *)
Lemma white_space_not_empty (w : string) : In w white_space -> w <> "".
Proof.
  intros H ->. unfold white_space in H. simpl in H.
  repeat (destruct H as [H|H]; [discriminate|]). exact H.
Qed.

(** No encoding starts another: the one a string starts with is found. *)
Lemma skip_space_app (w r : string) :
  In w white_space -> skip_space (w ++ r) = Some r.
Proof.
  intros H. unfold white_space in H. simpl in H.
  repeat (destruct H as [<-|H]; [reflexivity|]). destruct H.
Qed.

Lemma skip_space_Some (s r : string) :
  skip_space s = Some r -> exists w, In w white_space /\ s = w ++ r.
Proof. apply after_any_In. Qed.

Lemma skip_space_shorter (s r : string) :
  skip_space s = Some r -> (String.length r < String.length s)%nat.
Proof.
  intros H. destruct (skip_space_Some s r H) as (w & Hin & ->).
  rewrite length_append. pose proof (white_space_not_empty w Hin) as Hw.
  destruct w; [congruence | simpl; lia].
Qed.

Lemma skip_space_empty : skip_space "" = None.
Proof. reflexivity. Qed.

(** More fuel than the length changes nothing. *)
Lemma trimStart_from_fuel (f1 f2 : nat) (s : string) :
  (String.length s <= f1)%nat -> (String.length s <= f2)%nat ->
  trimStart_from f1 s = trimStart_from f2 s.
Proof.
  revert f2 s. induction f1 as [|f1 IH]; intros f2 s H1 H2.
  - destruct s; [|simpl in H1; lia]. destruct f2; reflexivity.
  - destruct f2 as [|f2].
    + destruct s; [reflexivity | simpl in H2; lia].
    + simpl. destruct (skip_space s) as [r|] eqn:Hr; [|reflexivity].
      apply skip_space_shorter in Hr. apply IH; lia.
Qed.

Lemma trimStart_unfold (s : string) :
  trimStart s = match skip_space s with
                | Some rest => trimStart rest
                | None => s
                end.
Proof.
  unfold trimStart. destruct s as [|c s]; [reflexivity|].
  simpl String.length. cbn [trimStart_from].
  destruct (skip_space (String c s)) as [r|] eqn:Hr; [|reflexivity].
  apply skip_space_shorter in Hr. simpl in Hr. apply trimStart_from_fuel; lia.
Qed.

Lemma blank_from_fuel (f1 f2 : nat) (s : string) :
  (String.length s <= f1)%nat -> (String.length s <= f2)%nat ->
  blank_from f1 s = blank_from f2 s.
Proof.
  revert f2 s. induction f1 as [|f1 IH]; intros f2 s H1 H2.
  - destruct s; [|simpl in H1; lia]. destruct f2; reflexivity.
  - destruct f2 as [|f2].
    + destruct s; [reflexivity | simpl in H2; lia].
    + destruct s as [|c s]; [reflexivity|]. cbn [blank_from].
      destruct (skip_space (String c s)) as [r|] eqn:Hr; [|reflexivity].
      apply skip_space_shorter in Hr. simpl in H1, H2, Hr. apply IH; lia.
Qed.

Lemma blank_unfold (s : string) :
  blank s = match s with
            | EmptyString => true
            | String _ _ =>
                match skip_space s with
                | Some rest => blank rest
                | None => false
                end
            end.
Proof.
  unfold blank. destruct s as [|c s]; [reflexivity|].
  simpl String.length. cbn [blank_from].
  destruct (skip_space (String c s)) as [r|] eqn:Hr; [|reflexivity].
  apply skip_space_shorter in Hr. simpl in Hr. apply blank_from_fuel; lia.
Qed.

(** Induction along the white space a string starts with. *)
Lemma space_induction (P : string -> Prop) :
  (forall s, (forall r, skip_space s = Some r -> P r) -> P s) -> forall s, P s.
Proof.
  intros step s.
  assert (H : forall n s, (String.length s <= n)%nat -> P s).
  { induction n as [|n IH]; intros s' Hn; apply step; intros r Hr;
      apply skip_space_shorter in Hr; [lia | apply IH; lia]. }
  now apply (H (String.length s)).
Qed.

(** What [trimStart] leaves starts with no white space... *)
Lemma trimStart_skip (s : string) : skip_space (trimStart s) = None.
Proof.
  induction s as [s IH] using space_induction.
  rewrite trimStart_unfold. destruct (skip_space s) as [r|] eqn:Hr; [now apply IH | exact Hr].
Qed.

(** ... and is empty exactly for a blank string. *)
Lemma trimStart_empty_iff (s : string) : trimStart s = "" <-> blank s = true.
Proof.
  induction s as [s IH] using space_induction.
  rewrite trimStart_unfold, blank_unfold.
  destruct s as [|c s]; [now rewrite skip_space_empty|].
  destruct (skip_space (String c s)) as [r|] eqn:Hr; [now apply IH|].
  split; discriminate.
Qed.

Lemma trimStart_fixed (s : string) : skip_space s = None -> trimStart s = s.
Proof. intros H. now rewrite trimStart_unfold, H. Qed.

Lemma all_space_iff (s : string) : all_space s = true <-> blank s = true.
Proof. unfold all_space. rewrite String.eqb_eq. apply trimStart_empty_iff. Qed.

Lemma blank_app (w r : string) : In w white_space -> blank (w ++ r) = blank r.
Proof.
  intros Hin. rewrite blank_unfold, (skip_space_app w r Hin).
  destruct w as [|a w]; [now apply white_space_not_empty in Hin|]. reflexivity.
Qed.

(** [trimEnd] cuts a blank end off... *)
Lemma trimEnd_split (s : string) :
  exists rest, s = trimEnd s ++ rest /\ blank rest = true.
Proof.
  induction s as [|c s IH]; [now exists ""|].
  cbn [trimEnd]. destruct (all_space (String c s)) eqn:Hall.
  - exists (String c s). split; [reflexivity | now apply all_space_iff].
  - destruct IH as (rest & Hs & Hrest). exists rest. split; [|exact Hrest].
    simpl. now rewrite <- Hs.
Qed.

(** ... and what it leaves ends with no white space. *)
Lemma trimEnd_last (s u w : string) : In w white_space -> trimEnd s <> u ++ w.
Proof.
  intros Hin. revert u. induction s as [|c s IH]; intros u.
  - simpl. intros H. destruct u; simpl in H; [|discriminate].
    now apply (white_space_not_empty w Hin).
  - cbn [trimEnd]. destruct (all_space (String c s)) eqn:Hall.
    + intros H. destruct u; simpl in H; [|discriminate].
      now apply (white_space_not_empty w Hin).
    + intros H. destruct u as [|x u]; simpl in H.
      * destruct (trimEnd_split s) as (rest & Hs & Hrest).
        assert (Hb : blank (String c s) = true).
        { rewrite Hs. change (String c (trimEnd s ++ rest)) with (String c (trimEnd s) ++ rest).
          rewrite H, blank_app by exact Hin. exact Hrest. }
        apply all_space_iff in Hb. congruence.
      * injection H as _ H. now apply (IH u).
Qed.

Lemma trimEnd_empty_iff (s : string) : trimEnd s = "" <-> blank s = true.
Proof.
  destruct s as [|c s]; [easy|]. cbn [trimEnd].
  destruct (all_space (String c s)) eqn:Hall.
  - apply all_space_iff in Hall. easy.
  - split; [discriminate|]. intros Hb. apply all_space_iff in Hb. congruence.
Qed.

Lemma blank_trimStart (s : string) : blank (trimStart s) = blank s.
Proof.
  induction s as [s IH] using space_induction.
  rewrite trimStart_unfold.
  destruct (skip_space s) as [r|] eqn:Hr; [|reflexivity].
  rewrite (IH r eq_refl). destruct (skip_space_Some s r Hr) as (w & Hin & ->).
  now rewrite blank_app.
Qed.

(** What [trim] returns is empty exactly for a blank string... *)
Lemma trim_empty_iff (s : string) : trim s = "" <-> blank s = true.
Proof. unfold trim. now rewrite trimEnd_empty_iff, blank_trimStart. Qed.

Lemma trim_blank (s : string) : blank s = true -> trim s = "".
Proof. apply trim_empty_iff. Qed.

(** ... and has no white space at either end. *)
Lemma trim_trimmed (s : string) : trimmed (trim s).
Proof.
  intros w Hin. unfold trim. split.
  - intros r H. destruct (trimEnd_split (trimStart s)) as (rest & Hs & _).
    rewrite H, append_assoc in Hs.
    pose proof (trimStart_skip s) as Hskip.
    rewrite Hs, skip_space_app in Hskip by exact Hin. discriminate.
  - intros u. now apply trimEnd_last.
Qed.

End WhiteSpace.

(* ===================================================================== *)
(** ** The query clients                                                   *)
(* ===================================================================== *)

Section Configuration.

(** The library strips nothing off an empty domain. *)
Lemma buildEndpoint_unconfigured (cfg : Config.shopify_config) :
  Config.domain cfg = "" \/ Config.storefrontAccessToken cfg = "" ->
  ShopifyLib.buildEndpoint cfg
  = Throw (Error "Missing Shopify configuration (domain or token)").
Proof.
  intros [H|H]; unfold ShopifyLib.buildEndpoint; rewrite H.
  - reflexivity.
  - simpl. now rewrite orb_true_r.
Qed.

(** An endpoint can only be built from a live configuration. *)
Lemma buildEndpoint_live (cfg : Config.shopify_config) (endpoint : string) :
  ShopifyLib.buildEndpoint cfg = Ok endpoint -> Config.USE_LIVE_DATA cfg = true.
Proof.
  intros H. unfold Config.USE_LIVE_DATA.
  destruct (String.eqb_spec (Config.domain cfg) "") as [Hd|Hd].
  - rewrite buildEndpoint_unconfigured in H by now left. discriminate.
  - destruct (String.eqb_spec (Config.storefrontAccessToken cfg) "") as [Ht|Ht].
    + rewrite buildEndpoint_unconfigured in H by now right. discriminate.
    + reflexivity.
Qed.

(** The flag for live data says that neither setting is empty. *)
Lemma USE_LIVE_DATA_spec (cfg : Config.shopify_config) :
  Config.USE_LIVE_DATA cfg = true
  <-> Config.domain cfg <> "" /\ Config.storefrontAccessToken cfg <> "".
Proof.
  unfold Config.USE_LIVE_DATA. rewrite andb_true_iff, !negb_true_iff.
  now rewrite !String.eqb_neq.
Qed.

(** A variable that is unset or blank in the environment leaves its setting
    empty. *)
Lemma blank_environment (e : Config.env) :
  blank (Config.or_empty (Config.VITE_SHOPIFY_STORE_DOMAIN e)) = true
  \/ blank (Config.or_empty (Config.VITE_SHOPIFY_STOREFRONT_TOKEN e)) = true ->
  Config.domain (Config.SHOPIFY_CONFIG e) = ""
  \/ Config.storefrontAccessToken (Config.SHOPIFY_CONFIG e) = "".
Proof.
  intros [H|H]; [left | right]; simpl;
    unfold Config.SHOPIFY_DOMAIN, Config.SHOPIFY_TOKEN; now apply trim_blank.
Qed.

(** C3: with an empty store domain or an empty access token, both
    [storefrontQuery] and [shopifyFetch] reject at once with their
    configuration error, for every query, every variables mapping and every
    network, and the log of effects is left as it was: no request is
    issued. *)
Theorem missing_configuration_rejects_before_fetch
  (cfg : Config.shopify_config) (query : string) (variables : value)
  (net : network) (t : trace) :
  Config.domain cfg = "" \/ Config.storefrontAccessToken cfg = "" ->
  Experience.storefrontQuery cfg query variables net t
  = (t, Throw (Error "Missing VITE_SHOPIFY_STORE_DOMAIN or VITE_SHOPIFY_STOREFRONT_TOKEN"))
  /\ ShopifyLib.shopifyFetch cfg query variables net t
     = (t, Throw (Error "Missing Shopify configuration (domain or token)")).
Proof.
  intros H. split.
  - unfold Experience.storefrontQuery, Experience.STORE_DOMAIN,
      Experience.STOREFRONT_TOKEN.
    destruct H as [H|H]; rewrite H; [reflexivity|].
    now rewrite orb_true_r.
  - unfold ShopifyLib.shopifyFetch, bind, lift.
    now rewrite (buildEndpoint_unconfigured cfg H).
Qed.

Lemma missing_configuration_witness :
  Experience.storefrontQuery unconfigured "{ shop { name } }" Undefined
    (answering 200 Null) []
  = ([], Throw (Error "Missing VITE_SHOPIFY_STORE_DOMAIN or VITE_SHOPIFY_STOREFRONT_TOKEN"))
  /\ ShopifyLib.shopifyFetch unconfigured "{ shop { name } }" Undefined
       (answering 200 Null) []
     = ([], Throw (Error "Missing Shopify configuration (domain or token)")).
Proof.
  apply (missing_configuration_rejects_before_fetch unconfigured).
  left. reflexivity.
Defined.

End Configuration.

Section CollectionProducts.
Import Experience.

Variable cfg : Config.shopify_config.
Hypothesis live : Config.USE_LIVE_DATA cfg = true.

Lemma live_check :
  String.eqb (Config.domain cfg) "" || String.eqb (Config.storefrontAccessToken cfg) ""
  = false.
Proof.
  unfold Config.USE_LIVE_DATA in live.
  apply andb_true_iff in live as [Hd Ht].
  apply negb_true_iff in Hd, Ht. now rewrite Hd, Ht.
Qed.

Variable net : network.
Variable r : response.
Hypothesis answer : responds net r.

(** With a live configuration the client issues exactly one request. *)
Lemma storefrontQuery_one_request (query : string) (variables : value) :
  exists rq, requests (fst (run (storefrontQuery cfg query variables) net)) = [rq].
Proof.
  unfold run, storefrontQuery, STORE_DOMAIN, STOREFRONT_TOKEN.
  rewrite live_check. unfold bind, fetch. rewrite answer.
  eexists. unfold response_json.
  destruct (json r) as [body|err]; [|reflexivity].
  unfold ret at 1.
  destruct (ok r); simpl.
  - unfold lift, bind. destruct (get body "errors") as [e|e]; [|reflexivity].
    unfold ret. destruct (truthy e); [|reflexivity].
    destruct (get body "errors"); reflexivity.
  - unfold ret, lift, bind. destruct (get body "errors"); reflexivity.
Qed.

(** A successful response fulfils with its data. *)
Lemma storefrontQuery_delivers (query : string) (variables data : value) :
  delivers r data ->
  snd (run (storefrontQuery cfg query variables) net) = Ok data.
Proof.
  intros (Hok & body & e & Hjson & He & Hfalsy & Hdata).
  unfold run, storefrontQuery, STORE_DOMAIN, STOREFRONT_TOKEN.
  rewrite live_check. unfold bind, fetch. rewrite answer.
  unfold response_json. rewrite Hjson. unfold ret at 1.
  rewrite Hok. simpl. unfold lift, bind, ret. rewrite He, Hfalsy, Hdata.
  reflexivity.
Qed.

End CollectionProducts.

Section Shaping.
Import Experience.

(** Running a computation that fulfils, then its continuation. *)
Lemma run_bind {A B} (c : M A) (k : A -> M B) (net : network) (a : A) :
  snd (run c net) = Ok a ->
  run (x <- c ;; k x) net = k a net (fst (run c net)).
Proof.
  unfold run, bind. destruct (c net []) as [t' [x|e]]; simpl; intros H.
  - now inversion H.
  - discriminate.
Qed.

(** An edge of the shape the collection query selects is shaped without
    error, and its price is the amount, one space, and the currency code. *)
Lemma shape_edge_price (edge : value) (a c : string) :
  min_variant_price edge = Some (a, c) ->
  exists p, shape_edge edge = Ok p /\ price p = a ++ " " ++ c.
Proof.
  unfold min_variant_price. intros H.
  destruct edge as [| | | | |items|ef]; try discriminate.
  destruct (lookup_field "node" ef) as [[| | | | |items|nf]|] eqn:Hnode; try discriminate.
  destruct (lookup_field "priceRange" nf) as [[| | | | |items|pf]|] eqn:Hpr; try discriminate.
  destruct (lookup_field "minVariantPrice" pf) as [[| | | | |items|mf]|] eqn:Hmv;
    try discriminate.
  destruct (lookup_field "amount" mf) as [[| | | |a'| |]|] eqn:Ha; try discriminate.
  destruct (lookup_field "currencyCode" mf) as [[| | | |c'| |]|] eqn:Hc; try discriminate.
  inversion H; subst a' c'.
  unfold shape_edge, get. rewrite Hnode. unfold rbind.
  rewrite Hpr, Hmv, Ha, Hc.
  eexists. split; reflexivity.
Qed.

(** Every edge shaped that way gives the list of verbatim prices. *)
Lemma shape_edges_prices (edges : list value) :
  Forall (fun edge => verbatim_price edge <> None) edges ->
  exists ps, rmap shape_edge edges = Ok ps
             /\ map (fun p => Some (price p)) ps = map verbatim_price edges.
Proof.
  induction 1 as [|edge edges Hedge _ IH].
  - exists []. split; reflexivity.
  - destruct IH as (ps & Hps & Hprices).
    unfold verbatim_price in Hedge.
    destruct (min_variant_price edge) as [[a c]|] eqn:Hp; [|congruence].
    destruct (shape_edge_price edge a c Hp) as (p & Hshape & Hprice).
    exists (p :: ps). simpl. rewrite Hshape. simpl. rewrite Hps. simpl.
    split; [reflexivity|].
    unfold verbatim_price at 1. rewrite Hp, Hprice. f_equal. exact Hprices.
Qed.

Variable cfg : Config.shopify_config.
Hypothesis live : Config.USE_LIVE_DATA cfg = true.
Variable net : network.
Variable r : response.
Hypothesis answer : responds net r.
Variable data : value.
Hypothesis success : delivers r data.

(** No collection under the handle: the empty list. *)
Lemma getCollectionProducts_missing (handle : string) (first : Z) :
  collection_missing data ->
  snd (run (getCollectionProducts cfg handle first) net) = Ok [].
Proof.
  intros (col & Hcol & Hnull).
  unfold getCollectionProducts.
  rewrite (run_bind _ _ net data) by now apply storefrontQuery_delivers with (r := r).
  unfold bind, lift. rewrite Hcol.
  destruct col; try discriminate; reflexivity.
Qed.

(** A collection with edges: the edges, shaped in order. *)
Lemma getCollectionProducts_edges (handle : string) (first : Z) (edges : list value) :
  collection_edges data edges ->
  snd (run (getCollectionProducts cfg handle first) net) = rmap shape_edge edges.
Proof.
  intros (col & products & Hcol & Htruthy & Hproducts & Hedges).
  unfold getCollectionProducts.
  rewrite (run_bind _ _ net data) by now apply storefrontQuery_delivers with (r := r).
  unfold bind, lift. rewrite Hcol, Htruthy. simpl.
  rewrite Hproducts, Hedges. reflexivity.
Qed.

End Shaping.

Section CollectionClaims.
Import Experience.

(** C4: when the response is a success whose [collectionByHandle] is null or
    absent, or holds a collection with no product edge, then
    [getCollectionProducts] fulfils with the empty list, for every handle and
    page size; it does not throw. *)
Theorem missing_or_empty_collection_gives_empty_list
  (cfg : Config.shopify_config) (handle : string) (first : Z)
  (net : network) (r : response) (data : value) :
  Config.USE_LIVE_DATA cfg = true ->
  responds net r ->
  delivers r data ->
  collection_missing data \/ collection_edges data [] ->
  snd (run (getCollectionProducts cfg handle first) net) = Ok [].
Proof.
  intros Hlive Hnet Hdata [Hmissing|Hempty].
  - now apply getCollectionProducts_missing with (r := r) (data := data).
  - now rewrite getCollectionProducts_edges with (r := r) (data := data) (edges := []).
Qed.

Lemma missing_or_empty_collection_witness :
  snd (run (getCollectionProducts sample_config "hoodies-1" 12)
         (answering 200 (Obj [("data", Obj [("collectionByHandle", Null)])])))
  = Ok []
  /\ snd (run (getCollectionProducts sample_config "hoodies-1" 12)
            (answering 200 (Obj [("data", Obj [])])))
     = Ok []
  /\ snd (run (getCollectionProducts sample_config "hoodies-1" 12)
            (answering 200 (collection_response [])))
     = Ok [].
Proof.
  split; [|split].
  - apply (missing_or_empty_collection_gives_empty_list sample_config "hoodies-1" 12
             _ {| status := 200; statusText := "";
                  json := Parsed (Obj [("data", Obj [("collectionByHandle", Null)])]) |}
             (Obj [("collectionByHandle", Null)])).
    + reflexivity.
    + intros rq. reflexivity.
    + split; [reflexivity|]. do 2 eexists. repeat split; reflexivity.
    + left. exists Null. split; reflexivity.
  - apply (missing_or_empty_collection_gives_empty_list sample_config "hoodies-1" 12
             _ {| status := 200; statusText := ""; json := Parsed (Obj [("data", Obj [])]) |}
             (Obj [])).
    + reflexivity.
    + intros rq. reflexivity.
    + split; [reflexivity|]. do 2 eexists. repeat split; reflexivity.
    + left. exists Undefined. split; reflexivity.
  - apply (missing_or_empty_collection_gives_empty_list sample_config "hoodies-1" 12
             _ {| status := 200; statusText := ""; json := Parsed (collection_response []) |}
             (Obj [("collectionByHandle",
                    Obj [("title", Str "Hoodies");
                         ("products", Obj [("edges", Arr [])])])])).
    + reflexivity.
    + intros rq. reflexivity.
    + split; [reflexivity|]. do 2 eexists. repeat split; reflexivity.
    + right. do 2 eexists. repeat split; reflexivity.
Defined.

(** The single-product path always prefixes a dollar sign to the
    locale-formatted number it parsed. *)
Lemma formatShopifyProduct_dollar (node : value) (p : ShopifyLib.ShopifyProduct) :
  ShopifyLib.formatShopifyProduct node = Ok p ->
  ShopifyLib.price p = "$" ++ toLocaleString (ShopifyLib.priceVal p).
Proof.
  unfold ShopifyLib.formatShopifyProduct, rbind. intros H.
  repeat match type of H with
         | match ?x with _ => _ end = _ => destruct x; try discriminate
         end.
  inversion H. reflexivity.
Qed.

(** C5: the collection path writes the price as the amount, one space and
    the currency code, verbatim, for every edge of the shape the query
    selects and every successful response; the node priced 19.5 USD gives
    the literal [19.5 USD] there, while [formatShopifyProduct] gives a
    dollar-prefixed, locale-formatted string for every node it accepts:
    [$19.5] for that node with its variant, [$0] for the node as the
    collection query returns it (without variants). *)
Theorem collection_price_is_verbatim :
  (forall cfg handle first net r data edges,
      Config.USE_LIVE_DATA cfg = true -> responds net r -> delivers r data ->
      collection_edges data edges ->
      Forall (fun edge => verbatim_price edge <> None) edges ->
      exists ps,
        snd (run (getCollectionProducts cfg handle first) net) = Ok ps
        /\ map (fun p => Some (price p)) ps = map verbatim_price edges)
  /\ (exists p,
        snd (run (getCollectionProducts sample_config "hoodies-1" 12)
               (answering 200 (collection_response [Obj [("node", sample_node)]])))
        = Ok [p]
        /\ price p = "19.5 USD")
  /\ (forall node p,
        ShopifyLib.formatShopifyProduct node = Ok p ->
        ShopifyLib.price p = "$" ++ toLocaleString (ShopifyLib.priceVal p))
  /\ (exists p,
        ShopifyLib.formatShopifyProduct sample_node = Ok p
        /\ ShopifyLib.price p = "$19.5")
  /\ (exists p,
        ShopifyLib.formatShopifyProduct sample_collection_node = Ok p
        /\ ShopifyLib.price p = "$0").
Proof.
  split; [|split; [|split; [|split]]].
  - intros cfg handle first net r data edges Hlive Hnet Hdata Hedges Hshape.
    rewrite getCollectionProducts_edges with (r := r) (data := data) (edges := edges)
      by assumption.
    now apply shape_edges_prices.
  - eexists. split; vm_compute; reflexivity.
  - exact formatShopifyProduct_dollar.
  - eexists. split; vm_compute; reflexivity.
  - eexists. split; vm_compute; reflexivity.
Qed.

End CollectionClaims.

(* ===================================================================== *)
(** ** What a serialized value contains                                    *)
(* ===================================================================== *)

Section Serialization.

Lemma includes_append_l (a b s : string) :
  includes a s = true -> includes (a ++ b) s = true.
Proof.
  intros H. destruct (includes_occurrence _ _ H) as (pre & post & ->).
  rewrite !append_assoc. apply includes_append.
Qed.

Lemma includes_append_r (a b s : string) :
  includes b s = true -> includes (a ++ b) s = true.
Proof.
  intros H. destruct (includes_occurrence _ _ H) as (pre & post & ->).
  rewrite <- append_assoc. apply includes_append.
Qed.

(** A joined list contains each of its items. *)
Lemma join_includes (sep x : string) (l : list string) :
  In x l -> includes (join sep l) x = true.
Proof.
  induction l as [|y l IH]; intros H; [destruct H|].
  destruct H as [->|H].
  - destruct l; simpl.
    + apply includes_self.
    + apply includes_append_l, includes_self.
  - destruct l as [|z l]; [destruct H|].
    change (join sep (y :: z :: l)) with (y ++ sep ++ join sep (z :: l)).
    apply includes_append_r, includes_append_r, IH, H.
Qed.


Lemma framed_includes (gap indent opening closing x : string) (partial : list string) :
  In x partial -> includes (framed gap indent opening closing partial) x = true.
Proof.
  intros H. unfold framed. destruct (String.eqb gap "").
  - apply includes_append_r, includes_append_l, join_includes, H.
  - apply includes_append_r, includes_append_r, includes_append_r, includes_append_l,
      join_includes, H.
Qed.


Lemma serialize_Obj (gap indent : string) (fields : list (string * value)) :
  serialize gap indent (Obj fields)
  = let partial :=
      flat_map (fun kv => match serialize gap (indent ++ gap) (snd kv) with
                          | Some u =>
                              [quote (fst kv) ++ ":"
                                 ++ (if String.eqb gap "" then "" else " ") ++ u]
                          | None => []
                          end) fields in
    Some (match partial with
          | [] => "{}"
          | _ => framed gap indent "{" "}" partial
          end).
Proof. reflexivity. Qed.


(** A serialized object contains each property whose value is written. *)
Lemma serialize_object_includes (gap indent k : string) (fields : list (string * value))
  (v : value) (t : string) :
  In (k, v) fields -> serialize gap (indent ++ gap) v = Some t ->
  exists text,
    serialize gap indent (Obj fields) = Some text
    /\ includes text (quote k ++ ":" ++ (if String.eqb gap "" then "" else " ") ++ t) = true.
Proof.
  intros Hin Hv.
  set (entry := quote k ++ ":" ++ (if String.eqb gap "" then "" else " ") ++ t).
  set (partial :=
         flat_map (fun kv => match serialize gap (indent ++ gap) (snd kv) with
                             | Some u =>
                                 [quote (fst kv) ++ ":"
                                    ++ (if String.eqb gap "" then "" else " ") ++ u]
                             | None => []
                             end) fields).
  assert (Hp : In entry partial).
  { unfold partial. apply in_flat_map. exists (k, v). split; [exact Hin|].
    simpl. rewrite Hv. now left. }
  exists (framed gap indent "{" "}" partial). split.
  - rewrite serialize_Obj. cbv zeta. fold partial.
    destruct partial; [destruct Hp | reflexivity].
  - now apply framed_includes.
Qed.


End Serialization.

(* ===================================================================== *)
(** ** How the two clients fail                                            *)
(* ===================================================================== *)

Section ClientFailures.

Variable cfg : Config.shopify_config.
Variable endpoint : string.
Hypothesis configured : ShopifyLib.buildEndpoint cfg = Ok endpoint.
Variable net : network.
Variable r : response.
Hypothesis answer : responds net r.
Variable query : string.
Variable variables : value.

(** A body that does not parse: the parse error itself, whatever the
    status. *)
Lemma storefrontQuery_unparseable (err : exn) :
  json r = Unparseable err ->
  snd (run (Experience.storefrontQuery cfg query variables) net) = Throw err.
Proof.
  intros Hjson.
  unfold run, Experience.storefrontQuery, Experience.STORE_DOMAIN,
    Experience.STOREFRONT_TOKEN.
  rewrite (live_check cfg (buildEndpoint_live cfg endpoint configured)).
  unfold bind, fetch. rewrite answer. unfold response_json. rewrite Hjson.
  reflexivity.
Qed.

(** A non-2xx status or a truthy [errors]: one and the same error, made of
    the serialized [errors] (or of the whole body when [errors] is falsy). *)
Lemma storefrontQuery_api_error (body e : value) :
  json r = Parsed body -> get body "errors" = Ok e ->
  ok r = false \/ truthy e = true ->
  snd (run (Experience.storefrontQuery cfg query variables) net)
  = Throw (Error ("Storefront API error: " ++ api_error_text (or_else e body))).
Proof.
  intros Hjson He Hfail.
  unfold run, Experience.storefrontQuery, Experience.STORE_DOMAIN,
    Experience.STOREFRONT_TOKEN.
  rewrite (live_check cfg (buildEndpoint_live cfg endpoint configured)).
  unfold bind, fetch. rewrite answer. unfold response_json. rewrite Hjson.
  unfold ret at 1. unfold lift, ret, throw. rewrite He.
  destruct (ok r); simpl.
  - destruct Hfail as [Hfail|Hfail]; [discriminate|]. rewrite Hfail. reflexivity.
  - reflexivity.
Qed.

(** A body that parses to [null]: reading [errors] off it throws, whatever
    the status. *)
Lemma storefrontQuery_no_body (body : value) :
  json r = Parsed body -> nullish body = true ->
  snd (run (Experience.storefrontQuery cfg query variables) net)
  = Throw (TypeError ("Cannot read properties of " ++ to_string body
                        ++ " (reading 'errors')")).
Proof.
  intros Hjson Hnull.
  unfold run, Experience.storefrontQuery, Experience.STORE_DOMAIN,
    Experience.STOREFRONT_TOKEN.
  rewrite (live_check cfg (buildEndpoint_live cfg endpoint configured)).
  unfold bind, fetch. rewrite answer. unfold response_json. rewrite Hjson.
  unfold ret at 1. unfold lift, ret, throw.
  destruct body; try discriminate; destruct (ok r); reflexivity.
Qed.

(** A body that does not parse: a fixed message, after a console line. *)
Lemma shopifyFetch_unparseable (err : exn) :
  json r = Unparseable err ->
  snd (run (ShopifyLib.shopifyFetch cfg query variables) net)
  = Throw (Error "Invalid response from Shopify").
Proof.
  intros Hjson.
  unfold run, ShopifyLib.shopifyFetch, bind, lift. rewrite configured.
  unfold fetch. rewrite answer. unfold try_catch, response_json. rewrite Hjson.
  reflexivity.
Qed.

(** A non-2xx status: the first API error's message when the body has one,
    the status otherwise. *)
Lemma shopifyFetch_http_error (body : value) :
  json r = Parsed body -> ok r = false ->
  snd (run (ShopifyLib.shopifyFetch cfg query variables) net)
  = Throw (thrown_Error
             (or_else (opt_get (opt_index (opt_get body "errors") 0) "message")
                      (Str ("Shopify API error (" ++ Z_to_string (status r) ++ ")")))).
Proof.
  intros Hjson Hok.
  unfold run, ShopifyLib.shopifyFetch, bind, lift. rewrite configured.
  unfold fetch. rewrite answer. unfold try_catch, response_json. rewrite Hjson.
  unfold ret. rewrite Hok. unfold thrown_Error, ToString.
  now destruct (printable _).
Qed.

(** A 2xx status with a truthy [errors]: the first error's message, or a
    fixed one. *)
Lemma shopifyFetch_api_error (body e : value) :
  json r = Parsed body -> ok r = true ->
  get body "errors" = Ok e -> truthy e = true ->
  snd (run (ShopifyLib.shopifyFetch cfg query variables) net)
  = Throw (thrown_Error
             (or_else (opt_get (opt_index e 0) "message") (Str "Shopify API error"))).
Proof.
  intros Hjson Hok He Htruthy.
  unfold run, ShopifyLib.shopifyFetch, bind, lift. rewrite configured.
  unfold fetch. rewrite answer. unfold try_catch, response_json. rewrite Hjson.
  unfold ret. rewrite Hok. simpl. rewrite He, Htruthy. unfold thrown_Error, ToString.
  now destruct (printable _).
Qed.

(** A body that parses to [null] on a 2xx status: reading [errors] off it
    throws. *)
Lemma shopifyFetch_no_body (body : value) :
  json r = Parsed body -> ok r = true -> nullish body = true ->
  snd (run (ShopifyLib.shopifyFetch cfg query variables) net)
  = Throw (TypeError ("Cannot read properties of " ++ to_string body
                        ++ " (reading 'errors')")).
Proof.
  intros Hjson Hok Hnull.
  unfold run, ShopifyLib.shopifyFetch, bind, lift. rewrite configured.
  unfold fetch. rewrite answer. unfold try_catch, response_json. rewrite Hjson.
  unfold ret. rewrite Hok. destruct body; try discriminate; reflexivity.
Qed.

(** Every value but [undefined] and [null] lets a property be read. *)
Lemma get_of_value (v : value) (k : string) :
  nullish v = false -> exists x, get v k = Ok x.
Proof. destruct v; simpl; try discriminate; intros _; now eexists. Qed.

End ClientFailures.

Section ErrorClaims.

Lemma includes_empty (t : string) : includes t "" = true.
Proof. now rewrite includes_unfold. Qed.





End ErrorClaims.

Section FailureKinds.

(** C7, as the code has it.  [storefrontQuery]: a body that does not parse
    rejects with the parse error itself, whatever the status; a body that
    parses to [null] rejects with the [TypeError] of reading [errors] off it,
    whatever the status; any other body rejects, on a non-2xx status as on a
    truthy [errors], with the one error made of the serialized [errors] (of
    the whole body when [errors] is falsy), which does not carry the status.
    [shopifyFetch]: a body that does not parse rejects with a fixed message;
    a non-2xx status rejects with the first API error's message when there is
    one and with the status otherwise; a 2xx status rejects with the
    [TypeError] of reading [errors] off the body when that is [null], and
    with the first error's message, or a fixed one, when [errors] is truthy.
    The message [m] goes through [new Error(m)]: the error carries the text
    of [m], and when [m] has none (an object with a property [toString] of
    its own) the conversion throws its [TypeError] instead.  A body is [null]
    or lets [errors] be read: no case is left out. *)
Theorem client_failures_by_condition
  (cfg : Config.shopify_config) (endpoint : string) (net : network) (r : response)
  (query : string) (variables : value) :
  ShopifyLib.buildEndpoint cfg = Ok endpoint ->
  responds net r ->
  (forall err, json r = Unparseable err ->
     snd (run (Experience.storefrontQuery cfg query variables) net) = Throw err)
  /\ (forall body, json r = Parsed body -> nullish body = true ->
        snd (run (Experience.storefrontQuery cfg query variables) net)
        = Throw (TypeError ("Cannot read properties of " ++ to_string body
                              ++ " (reading 'errors')")))
  /\ (forall body e, json r = Parsed body -> get body "errors" = Ok e ->
        ok r = false \/ truthy e = true ->
        snd (run (Experience.storefrontQuery cfg query variables) net)
        = Throw (Error ("Storefront API error: " ++ api_error_text (or_else e body))))
  /\ (forall err, json r = Unparseable err ->
        snd (run (ShopifyLib.shopifyFetch cfg query variables) net)
        = Throw (Error "Invalid response from Shopify"))
  /\ (forall body, json r = Parsed body -> ok r = false ->
        let m := or_else (opt_get (opt_index (opt_get body "errors") 0) "message")
                         (Str ("Shopify API error (" ++ Z_to_string (status r) ++ ")")) in
        snd (run (ShopifyLib.shopifyFetch cfg query variables) net)
        = Throw (if printable m then Error (to_string m)
                 else TypeError "Cannot convert object to primitive value"))
  /\ (forall body, json r = Parsed body -> ok r = true -> nullish body = true ->
        snd (run (ShopifyLib.shopifyFetch cfg query variables) net)
        = Throw (TypeError ("Cannot read properties of " ++ to_string body
                              ++ " (reading 'errors')")))
  /\ (forall body e, json r = Parsed body -> ok r = true ->
        get body "errors" = Ok e -> truthy e = true ->
        let m := or_else (opt_get (opt_index e 0) "message") (Str "Shopify API error") in
        snd (run (ShopifyLib.shopifyFetch cfg query variables) net)
        = Throw (if printable m then Error (to_string m)
                 else TypeError "Cannot convert object to primitive value"))
  /\ (forall body, nullish body = false -> exists e, get body "errors" = Ok e).
Proof.
  intros Hcfg Hnet.
  split; [|split; [|split; [|split; [|split; [|split; [|split]]]]]].
  - intros err. now apply storefrontQuery_unparseable with (endpoint := endpoint).
  - intros body. now apply storefrontQuery_no_body with (endpoint := endpoint).
  - intros body e. now apply storefrontQuery_api_error with (endpoint := endpoint).
  - intros err. now apply shopifyFetch_unparseable with (endpoint := endpoint).
  - intros body Hjson Hok m.
    now apply shopifyFetch_http_error with (endpoint := endpoint) (body := body).
  - intros body. now apply shopifyFetch_no_body with (endpoint := endpoint).
  - intros body e Hjson Hok He Ht m.
    now apply shopifyFetch_api_error with (endpoint := endpoint) (r := r) (body := body).
  - intros body. apply get_of_value.
Qed.

Lemma client_failures_witness :
  snd (run (Experience.storefrontQuery sample_config "{ shop { name } }" (Obj []))
         (answering 503 (Obj [("error", Str "unavailable")])))
  = Throw (Error ("Storefront API error: "
                    ++ api_error_text (Obj [("error", Str "unavailable")])))
  /\ snd (run (ShopifyLib.shopifyFetch sample_config "{ shop { name } }" (Obj []))
            (answering 503 (Obj [("error", Str "unavailable")])))
     = Throw (Error "Shopify API error (503)").
Proof.
  destruct (client_failures_by_condition sample_config
              "https://runway.myshopify.com/api/2026-01/graphql.json"
              (answering 503 (Obj [("error", Str "unavailable")]))
              {| status := 503; statusText := "";
                 json := Parsed (Obj [("error", Str "unavailable")]) |}
              "{ shop { name } }" (Obj []))
    as (_ & _ & Hquery & _ & Hfetch & _).
  - reflexivity.
  - intros rq. reflexivity.
  - split.
    + apply (Hquery (Obj [("error", Str "unavailable")]) Undefined).
      * reflexivity.
      * reflexivity.
      * left. reflexivity.
    + apply (Hfetch (Obj [("error", Str "unavailable")])); reflexivity.
Defined.

(** C7 fails as stated: a response with status 500 and a response with
    status 200 that carry the same [errors] make each client fail with the
    very same error, and the error of [storefrontQuery] does not carry the
    status. *)
Lemma http_status_is_not_told_apart :
  snd (run (Experience.storefrontQuery sample_config "{ shop { name } }" Undefined)
         (answering 500 (errors_response "X")))
  = snd (run (Experience.storefrontQuery sample_config "{ shop { name } }" Undefined)
           (answering 200 (errors_response "X")))
  /\ snd (run (ShopifyLib.shopifyFetch sample_config "{ shop { name } }" (Obj []))
            (answering 500 (errors_response "X")))
     = snd (run (ShopifyLib.shopifyFetch sample_config "{ shop { name } }" (Obj []))
              (answering 200 (errors_response "X")))
  /\ exists msg,
       snd (run (Experience.storefrontQuery sample_config "{ shop { name } }" Undefined)
              (answering 500 (errors_response "X")))
       = Throw (Error msg)
       /\ includes msg "500" = false.
Proof.
  split; [vm_compute; reflexivity|].
  split; [vm_compute; reflexivity|].
  eexists. split; vm_compute; reflexivity.
Qed.

End FailureKinds.

(* ===================================================================== *)
(** ** The fetch-on-mount effect of the overlay                            *)
(* ===================================================================== *)

Section Batch.

Context {A : Type}.

Lemma first_rejection_In (order : list nat) (rs : list (result A)) (e : exn) :
  first_rejection order rs = Some e -> In (Throw e) rs.
Proof.
  induction order as [|i order IH]; simpl; [discriminate|].
  destruct (nth_error rs i) as [[a|e']|] eqn:Hi; try exact IH.
  intros H. inversion H; subst. eapply nth_error_In, Hi.
Qed.

Lemma first_rejection_found (order : list nat) (rs : list (result A)) (i : nat) (e : exn) :
  In i order -> nth_error rs i = Some (Throw e) ->
  exists e', first_rejection order rs = Some e'.
Proof.
  induction order as [|j order IH]; simpl; intros Hin Hi; [destruct Hin|].
  destruct (nth_error rs j) as [[a|e']|] eqn:Hj.
  - destruct Hin as [->|Hin]; [congruence | now apply IH].
  - now exists e'.
  - destruct Hin as [->|Hin]; [congruence | now apply IH].
Qed.

(** One rejection makes the whole batch reject, with the reason of one of
    the rejected promises. *)
Lemma Promise_all_rejects (order : list nat) (rs : list (result A)) :
  Exists (fun r => rejected r = true) rs ->
  exists e, Promise_all order rs = Throw e /\ In (Throw e) rs.
Proof.
  intros H. unfold Promise_all.
  apply List.Exists_exists in H as (r & Hin & Hr).
  destruct r as [a|e]; [discriminate|].
  apply In_nth_error in Hin as [i Hi].
  assert (Hlt : (i < List.length rs)%nat) by (apply nth_error_Some; congruence).
  destruct (first_rejection_found (order ++ seq 0 (List.length rs)) rs i e)
    as [e' He']; [apply in_or_app; right; apply in_seq; lia | exact Hi |].
  rewrite He'. exists e'. split; [reflexivity|].
  eapply first_rejection_In, He'.
Qed.

(** Without a rejection the batch fulfils with every value, in order. *)
Lemma Promise_all_fulfils (order : list nat) (vs : list A) :
  Promise_all order (map Ok vs) = Ok vs.
Proof.
  unfold Promise_all.
  assert (Hnone : forall o, first_rejection o (map Ok vs) = None).
  { induction o as [|i o IH]; simpl; [reflexivity|].
    destruct (nth_error (map Ok vs) i) as [[a|e]|] eqn:Hi; try exact IH.
    apply nth_error_In, in_map_iff in Hi as (v & Hv & _). discriminate. }
  rewrite Hnone. clear Hnone. f_equal. unfold fulfilled_values.
  induction vs as [|v vs IH]; simpl; [reflexivity | now rewrite IH].
Qed.

(** A batch has one outcome for each task. *)
Lemma start_all_length (tasks : list (M A)) (net : network) (t : trace) :
  List.length (snd (start_all tasks net t)) = List.length tasks.
Proof.
  revert t. induction tasks as [|c tasks IH]; intros t; simpl; [reflexivity|].
  destruct (c net t) as [t' r].
  specialize (IH t'). destruct (start_all tasks net t') as [t'' rs].
  simpl in *. now rewrite IH.
Qed.

End Batch.

Section LogIndependence.
Import Experience.

Lemma log_independent_ret {A} (a : A) : log_independent (ret a).
Proof. intros net t. reflexivity. Qed.

Lemma log_independent_throw {A} (e : exn) : log_independent (@throw A e).
Proof. intros net t. reflexivity. Qed.

Lemma log_independent_lift {A} (r : result A) : log_independent (lift r).
Proof. intros net t. reflexivity. Qed.

Lemma log_independent_fetch (rq : request) : log_independent (fetch rq).
Proof. intros net t. reflexivity. Qed.

Lemma log_independent_response_json (r : response) : log_independent (response_json r).
Proof. intros net t. unfold response_json. destruct (json r); reflexivity. Qed.

Lemma log_independent_bind {A B} (c : M A) (k : A -> M B) :
  log_independent c -> (forall a, log_independent (k a)) ->
  log_independent (x <- c ;; k x).
Proof.
  intros Hc Hk net t. unfold bind.
  specialize (Hc net t).
  destruct (c net t) as [t1 r1], (c net []) as [t2 r2]. simpl in Hc. subst r2.
  destruct r1 as [a|e]; [|reflexivity].
  rewrite (Hk a net t1), (Hk a net t2). reflexivity.
Qed.

Lemma log_independent_storefrontQuery (cfg : Config.shopify_config)
  (query : string) (variables : value) :
  log_independent (storefrontQuery cfg query variables).
Proof.
  unfold storefrontQuery.
  destruct (String.eqb (STORE_DOMAIN cfg) "" || String.eqb (STOREFRONT_TOKEN cfg) "");
    [apply log_independent_throw|].
  apply log_independent_bind; [apply log_independent_fetch|]. intros res.
  apply log_independent_bind; [apply log_independent_response_json|]. intros body.
  apply log_independent_bind.
  - destruct (ok res); simpl; [|apply log_independent_ret].
    apply log_independent_bind; [apply log_independent_lift|].
    intros e. apply log_independent_ret.
  - intros [|].
    + apply log_independent_bind; [apply log_independent_lift|].
      intros e. apply log_independent_throw.
    + apply log_independent_lift.
Qed.

Lemma log_independent_getCollectionProducts (cfg : Config.shopify_config)
  (handle : string) (first : Z) :
  log_independent (getCollectionProducts cfg handle first).
Proof.
  unfold getCollectionProducts.
  apply log_independent_bind; [apply log_independent_storefrontQuery|]. intros data.
  apply log_independent_bind; [apply log_independent_lift|]. intros col.
  destruct (truthy col); simpl; [|apply log_independent_ret].
  apply log_independent_bind; [apply log_independent_lift|]. intros products.
  apply log_independent_bind; [apply log_independent_lift|]. intros edges.
  apply log_independent_lift.
Qed.

(** A panel's task rejects exactly when its collection query does, and for
    the same reason. *)
Lemma panel_task_outcome (cfg : Config.shopify_config) (p : Panel)
  (net : network) (t : trace) :
  snd (panel_task cfg p net t)
  = rbind (snd (run (getCollectionProducts cfg (collectionHandle p) 12) net))
          (fun products => Ok (collectionHandle p, products)).
Proof.
  unfold panel_task, bind, run.
  pose proof (log_independent_getCollectionProducts cfg (collectionHandle p) 12 net t) as H.
  destruct (getCollectionProducts cfg (collectionHandle p) 12 net t) as [t1 r1].
  simpl in H. rewrite <- H. destruct r1; reflexivity.
Qed.

(** The outcomes of the batch are those of the panels' queries, in order. *)
Lemma start_batch_outcomes (cfg : Config.shopify_config) (panels : list Panel)
  (net : network) (t : trace) :
  snd (start_batch cfg panels net t)
  = map (fun p =>
           rbind (snd (run (getCollectionProducts cfg (collectionHandle p) 12) net))
                 (fun products => Ok (collectionHandle p, products))) panels.
Proof.
  unfold start_batch. revert t.
  induction panels as [|p panels IH]; intros t; simpl; [reflexivity|].
  pose proof (panel_task_outcome cfg p net t) as Hp.
  destruct (panel_task cfg p net t) as [t1 r1]. simpl in Hp.
  specialize (IH t1).
  destruct (start_all (map (panel_task cfg) panels) net t1) as [t2 rs]. simpl in *.
  now rewrite Hp, IH.
Qed.

End LogIndependence.

Section Overlay.
Import Experience.

(** Once the cleanup has run, no later event changes the state of the
    component, and none throws. *)
Lemma steps_after_unmount (s : effect_instance) (evs : list lifecycle) :
  cancelled s = true ->
  exists s', steps s evs = Ok s' /\ view s' = view s /\ cancelled s' = true.
Proof.
  revert s. induction evs as [|ev evs IH]; intros s Hc; simpl.
  - exists s. split; [reflexivity | split; [reflexivity | exact Hc]].
  - destruct ev as [|res]; simpl.
    + destruct (IH {| view := view s; cancelled := true |} eq_refl) as (s' & Hs & Hv & Hc').
      exists s'. repeat split; assumption.
    + destruct (IH {| view := match res with
                              | Ok entries => after_await (cancelled s) entries (view s)
                              | Throw e => catch_block (cancelled s) e (view s)
                              end;
                      cancelled := cancelled s |}) as (s' & Hs & Hv & Hc').
      * exact Hc.
      * exists s'. split; [exact Hs|]. split; [|exact Hc'].
        rewrite Hv. simpl. rewrite Hc. destruct res; reflexivity.
Qed.

(** The mapping built from the entries: a later entry for a handle
    replaces an earlier one. *)
Lemma entries_map_snoc (entries : list entry) (h : string) (ps : list ShopifyProduct) :
  entries_map (entries ++ [(h, ps)])%list = <[h := ps]> (entries_map entries).
Proof. unfold entries_map. now rewrite fold_left_app. Qed.

Lemma entries_map_last (entries : list entry) (h : string) (ps : list ShopifyProduct) :
  entries_map (entries ++ [(h, ps)])%list !! h = Some ps.
Proof. rewrite entries_map_snoc. apply lookup_insert_eq. Qed.

Lemma entries_map_other (entries : list entry) (h k : string) (ps : list ShopifyProduct) :
  h <> k ->
  entries_map (entries ++ [(h, ps)])%list !! k = entries_map entries !! k.
Proof. intros H. rewrite entries_map_snoc. now apply lookup_insert_ne. Qed.

(** A batch that fulfils on a mounted overlay replaces the mapping
    wholesale and leaves the error cleared. *)
Lemma fulfilled_batch_commits (entries : list entry) (st : overlay_state) :
  exists s,
    steps (effect_start st) [Settled (Ok entries)] = Ok s
    /\ productsByHandle (view s) = entries_map entries
    /\ error (view s) = None.
Proof. eexists. repeat split. Qed.

(** The outcomes of a batch in which some query rejects: the batch rejects
    with the reason of one of the rejected queries. *)
Lemma batch_rejects (cfg : Config.shopify_config) (panels : list Panel)
  (net : network) (order : list nat) :
  Exists (fun p =>
            rejected (snd (run (getCollectionProducts cfg (collectionHandle p) 12) net))
            = true) panels ->
  exists p e,
    In p panels
    /\ snd (run (getCollectionProducts cfg (collectionHandle p) 12) net) = Throw e
    /\ Promise_all order (snd (start_batch cfg panels net [])) = Throw e.
Proof.
  intros H.
  destruct (Promise_all_rejects order (snd (start_batch cfg panels net []))) as (e & He & Hin).
  - rewrite start_batch_outcomes. apply List.Exists_exists.
    apply List.Exists_exists in H as (p & Hp & Hr).
    eexists. split; [apply in_map, Hp|].
    destruct (snd (run (getCollectionProducts cfg (collectionHandle p) 12) net));
      [discriminate | reflexivity].
  - rewrite start_batch_outcomes in Hin.
    apply in_map_iff in Hin as (p & Hp & Hin).
    exists p, e. split; [exact Hin|]. split; [|exact He].
    destruct (snd (run (getCollectionProducts cfg (collectionHandle p) 12) net));
      simpl in Hp; congruence.
Qed.

(** C8: when the collection query of some panel rejects and the overlay is
    still mounted as the batch settles, the whole batch rejects with the
    reason of one of the rejected queries, the error state holds the one
    message of that reason (the fallback text when it is empty), and the
    products-by-handle mapping is the one from before the attempt. *)
Theorem failed_batch_records_one_error
  (cfg : Config.shopify_config) (panels : list Panel) (net : network)
  (order : list nat) (st : overlay_state) :
  Exists (fun p =>
            rejected (snd (run (getCollectionProducts cfg (collectionHandle p) 12) net))
            = true) panels ->
  exists p e s,
    In p panels
    /\ snd (run (getCollectionProducts cfg (collectionHandle p) 12) net) = Throw e
    /\ Promise_all order (snd (start_batch cfg panels net [])) = Throw e
    /\ snd (fetch_attempt cfg panels net order false st) = Ok s
    /\ error (view s)
       = Some (if String.eqb (message e) "" then "Failed to load products" else message e)
    /\ productsByHandle (view s) = productsByHandle st.
Proof.
  intros H.
  destruct (batch_rejects cfg panels net order H) as (p & e & Hp & Hq & He).
  exists p, e. eexists. split; [exact Hp|]. split; [exact Hq|]. split; [exact He|].
  unfold fetch_attempt.
  destruct (start_batch cfg panels net []) as [t rs]. simpl in *.
  rewrite He. simpl. repeat split; reflexivity.
Qed.

Lemma failed_batch_witness :
  exists p e s,
    In p PANELS
    /\ snd (run (getCollectionProducts sample_config (collectionHandle p) 12) shirts_down)
       = Throw e
    /\ Promise_all [1; 0]%nat (snd (start_batch sample_config PANELS shirts_down []))
       = Throw e
    /\ snd (fetch_attempt sample_config PANELS shirts_down [1; 0]%nat false initial_state)
       = Ok s
    /\ error (view s)
       = Some (if String.eqb (message e) "" then "Failed to load products" else message e)
    /\ productsByHandle (view s) = productsByHandle initial_state.
Proof.
  apply (failed_batch_records_one_error sample_config PANELS shirts_down [1; 0]%nat
           initial_state).
  apply Exists_cons_tl, Exists_cons_hd. vm_compute. reflexivity.
Defined.

(** C9: when the cleanup runs before the batch settles, every later event
    (the batch fulfilling, the batch rejecting, a second cleanup) leaves the
    state of the component as it was when the cleanup ran, with neither the
    products committed nor an error message set, and no step throws; so
    does the whole fetch attempt of an overlay unmounted before its batch
    settles. *)
Theorem unmount_before_settle_applies_nothing
  (cfg : Config.shopify_config) (panels : list Panel) (net : network)
  (order : list nat) (st : overlay_state) (evs : list lifecycle) :
  (exists s, cleanup (effect_start st) = Ok s)
  /\ (exists s,
        steps (effect_start st) (Unmount :: evs) = Ok s
        /\ view s = view (effect_start st)
        /\ productsByHandle (view s) = productsByHandle st
        /\ error (view s) = None)
  /\ snd (fetch_attempt cfg panels net order true st)
     = Ok {| view := view (effect_start st); cancelled := true |}.
Proof.
  split; [eexists; reflexivity|]. split.
  - destruct (steps_after_unmount {| view := view (effect_start st); cancelled := true |}
                evs eq_refl) as (s & Hs & Hv & _).
    exists s. split; [exact Hs|]. split; [exact Hv|]. rewrite Hv. split; reflexivity.
  - unfold fetch_attempt.
    destruct (start_batch cfg panels net []) as [t rs]. simpl.
    destruct (Promise_all order rs); reflexivity.
Qed.

End Overlay.

(* ===================================================================== *)
(** ** The single-product formatting                                       *)
(* ===================================================================== *)

Section Formatting.
Import ShopifyLib.

(** A callback that never throws maps the whole array. *)
Lemma rmap_total {A B} (f : A -> B) (l : list A) :
  rmap (fun x => Ok (f x)) l = Ok (map f l).
Proof.
  induction l as [|x l IH]; simpl; [reflexivity|]. now rewrite IH.
Qed.

(** Without a first variant edge there is no first variant. *)
Lemma first_variant_absent (variants : value) :
  absent_or_empty (opt_get variants "edges") -> first_variant variants = Undefined.
Proof.
  unfold first_variant. intros [H| ->]; [|reflexivity].
  destruct (opt_get variants "edges"); try discriminate; reflexivity.
Qed.

(** C10: a product node (an object with a title string, whose image edges
    are an array when present) whose variants edge list is absent or empty
    is formatted without error, with price [$0], numeric price 0, currency
    code [USD] and an undefined variant id. *)
Theorem formatShopifyProduct_without_variants (node : value) :
  product_node node ->
  absent_or_empty (edge_list "variants" node) ->
  exists p,
    formatShopifyProduct node = Ok p
    /\ price p = "$0"
    /\ priceVal p = Fin 0
    /\ currencyCode p = Str "USD"
    /\ variantId p = Undefined.
Proof.
  intros [(fields & t & -> & Htitle) Himages] Hvariants.
  unfold edge_list in *.
  unfold formatShopifyProduct.
  change (get (Obj fields) "variants") with (Ok (opt_get (Obj fields) "variants")).
  change (get (Obj fields) "images") with (Ok (opt_get (Obj fields) "images")).
  unfold rbind at 1.
  rewrite (first_variant_absent _ Hvariants).
  unfold rbind at 1.
  assert (Himgs : exists l,
             (if nullish (opt_get (opt_get (Obj fields) "images") "edges")
              then Ok []
              else rbind (array_map "node.images?.edges?.map"
                            (opt_get (opt_get (Obj fields) "images") "edges")
                            (fun edge => Ok (opt_get (opt_get edge "node") "url")))
                         (fun urls => Ok (filter_truthy urls)))
             = Ok l).
  { destruct Himages as [Hn|[l Hl]].
    - rewrite Hn. now exists [].
    - rewrite Hl. simpl. rewrite rmap_total. simpl. now eexists. }
  destruct Himgs as [l Hl]. rewrite Hl.
  unfold rbind at 1.
  unfold get. rewrite Htitle. simpl.
  eexists. repeat split.
Qed.

Lemma formatShopifyProduct_without_variants_witness :
  exists p,
    formatShopifyProduct
      (Obj [("id", Str "gid://shopify/Product/2"); ("title", Str "Tee");
            ("variants", Obj [("edges", Arr [])])])
    = Ok p
    /\ price p = "$0"
    /\ priceVal p = Fin 0
    /\ currencyCode p = Str "USD"
    /\ variantId p = Undefined.
Proof.
  apply formatShopifyProduct_without_variants.
  - split.
    + exists [("id", Str "gid://shopify/Product/2"); ("title", Str "Tee");
              ("variants", Obj [("edges", Arr [])])], "Tee".
      split; reflexivity.
    + left. reflexivity.
  - right. reflexivity.
Defined.

End Formatting.

(* ===================================================================== *)
(** ** Further properties of the query clients                             *)
(* ===================================================================== *)

Section ClientLogs.

Lemma requests_app (t u : trace) : requests (t ++ u)%list = (requests t ++ requests u)%list.
Proof. unfold requests. apply flat_map_app. Qed.

Lemma console_lines_app (t u : trace) :
  console_lines (t ++ u)%list = (console_lines t ++ console_lines u)%list.
Proof. unfold console_lines. apply flat_map_app. Qed.

(** Whatever the network answers, a configured [storefrontQuery] adds its
    one request to the log and nothing else. *)
Lemma storefrontQuery_log (cfg : Config.shopify_config) (query : string)
  (variables : value) (net : network) (t : trace) :
  Config.USE_LIVE_DATA cfg = true ->
  fst (Experience.storefrontQuery cfg query variables net t)
  = (t ++ [Fetch (storefront_request cfg query variables)])%list.
Proof.
  intros Hlive.
  unfold Experience.storefrontQuery, Experience.STORE_DOMAIN,
    Experience.STOREFRONT_TOKEN, Experience.STOREFRONT_VERSION.
  rewrite (live_check cfg Hlive). unfold bind, fetch.
  fold (storefront_request cfg query variables).
  destruct (net (storefront_request cfg query variables)) as [res|e]; [|reflexivity].
  unfold response_json. destruct (json res) as [body|err]; [|reflexivity].
  unfold ret at 1. unfold lift, ret, throw.
  destruct (ok res); simpl.
  - destruct (get body "errors") as [e|e]; [|reflexivity].
    destruct (truthy e); reflexivity.
  - destruct (get body "errors"); reflexivity.
Qed.

(** Whatever the network answers, [shopifyFetch] with an endpoint adds its
    one request to the log, and console lines at most. *)
Lemma shopifyFetch_requests (cfg : Config.shopify_config) (endpoint query : string)
  (variables : value) (net : network) (t : trace) :
  ShopifyLib.buildEndpoint cfg = Ok endpoint ->
  requests (fst (ShopifyLib.shopifyFetch cfg query variables net t))
  = (requests t ++ [library_request cfg endpoint query (default_to (Obj []) variables)])%list.
Proof.
  intros Hcfg.
  unfold ShopifyLib.shopifyFetch, bind, lift. rewrite Hcfg.
  unfold fetch. fold (library_request cfg endpoint query (default_to (Obj []) variables)).
  destruct (net (library_request cfg endpoint query (default_to (Obj []) variables))) as [res|e];
    [|simpl; now rewrite requests_app].
  unfold try_catch, response_json, console_error, throw, ret.
  destruct (json res) as [body|err]; simpl.
  - destruct (ok res); simpl.
    + destruct (get body "errors") as [e|e]; simpl; [|now rewrite requests_app].
      destruct (truthy e); simpl; [destruct (ToString _); simpl|];
        rewrite ?requests_app; simpl; rewrite ?requests_app; simpl;
        now rewrite ?app_nil_r.
    + destruct (ToString _); simpl; rewrite !requests_app; simpl; now rewrite app_nil_r.
  - rewrite !requests_app. simpl. now rewrite app_nil_r.
Qed.

(** X1: no retry and no request without configuration: [storefrontQuery]
    adds exactly one request to the log when the domain and the token are
    both set, whatever the network answers (a rejection of [fetch] included),
    and none when either is empty; it never writes to the console. *)
Theorem storefrontQuery_sends_one_request
  (cfg : Config.shopify_config) (query : string) (variables : value)
  (net : network) (t : trace) :
  (Config.USE_LIVE_DATA cfg = true ->
   requests (fst (Experience.storefrontQuery cfg query variables net t))
   = (requests t ++ [storefront_request cfg query variables])%list)
  /\ (Config.USE_LIVE_DATA cfg = false ->
      fst (Experience.storefrontQuery cfg query variables net t) = t)
  /\ console_lines (fst (Experience.storefrontQuery cfg query variables net t))
     = console_lines t.
Proof.
  assert (Hoff : Config.USE_LIVE_DATA cfg = false ->
                 fst (Experience.storefrontQuery cfg query variables net t) = t).
  { intros Hoff. unfold Experience.storefrontQuery, Experience.STORE_DOMAIN,
      Experience.STOREFRONT_TOKEN.
    unfold Config.USE_LIVE_DATA in Hoff.
    destruct (String.eqb (Config.domain cfg) ""); [reflexivity|].
    destruct (String.eqb (Config.storefrontAccessToken cfg) ""); [reflexivity|].
    discriminate. }
  split; [|split; [exact Hoff|]].
  - intros Hlive. rewrite storefrontQuery_log by exact Hlive.
    now rewrite requests_app.
  - destruct (Config.USE_LIVE_DATA cfg) eqn:Hlive.
    + rewrite storefrontQuery_log by exact Hlive.
      rewrite console_lines_app. simpl. now rewrite app_nil_r.
    + now rewrite Hoff.
Qed.

(** The body [shopifyFetch] sends when the variables are left out. *)
Lemma body_without_variables (query : string) :
  stringify (Obj [("query", Str query); ("variables", default_to (Obj []) Undefined)])
  = Some (("{" ++ quote "query" ++ ":" ++ quote query ++ ",")
            ++ (quote "variables" ++ ":{}") ++ "}").
Proof.
  unfold stringify. simpl. f_equal. f_equal. now rewrite !append_assoc.
Qed.

(** X2: [shopifyFetch] adds exactly one request to the log, sent to the
    endpoint [buildEndpoint] gives, whatever the network answers, and none
    when [buildEndpoint] throws.  The request carries the variables given,
    and the empty object when they are [undefined] or left out, which is
    then written into the body. *)
Theorem shopifyFetch_sends_one_request
  (cfg : Config.shopify_config) (query : string) (variables : value)
  (net : network) (t : trace) :
  match ShopifyLib.buildEndpoint cfg with
  | Ok endpoint =>
      requests (fst (ShopifyLib.shopifyFetch cfg query variables net t))
      = (requests t
           ++ [library_request cfg endpoint query (default_to (Obj []) variables)])%list
      /\ requests (fst (ShopifyLib.shopifyFetch cfg query Undefined net t))
         = requests (fst (ShopifyLib.shopifyFetch cfg query (Obj []) net t))
      /\ exists text,
           body (library_request cfg endpoint query (default_to (Obj []) Undefined))
           = Some text
           /\ includes text (quote "variables" ++ ":{}") = true
  | Throw e =>
      ShopifyLib.shopifyFetch cfg query variables net t = (t, Throw e)
  end.
Proof.
  destruct (ShopifyLib.buildEndpoint cfg) as [endpoint|e] eqn:Hcfg.
  - split; [now apply shopifyFetch_requests|]. split.
    + now rewrite !(shopifyFetch_requests cfg endpoint) by exact Hcfg.
    + eexists. split; [apply body_without_variables|]. apply includes_append.
  - unfold ShopifyLib.shopifyFetch, bind, lift. now rewrite Hcfg.
Qed.

End ClientLogs.

Section ClientOutcomes.

Variable cfg : Config.shopify_config.
Variable endpoint : string.
Hypothesis configured : ShopifyLib.buildEndpoint cfg = Ok endpoint.
Variable net : network.
Variable query : string.
Variable variables : value.

(** The outcome of [storefrontQuery] as a function of the answer. *)
Lemma storefrontQuery_cases :
  snd (run (Experience.storefrontQuery cfg query variables) net)
  = match net (storefront_request cfg query variables) with
    | Throw e => Throw e
    | Ok res =>
        match json res with
        | Unparseable err => Throw err
        | Parsed body =>
            rbind (get body "errors") (fun e =>
              if negb (ok res) || truthy e
              then Throw (Error ("Storefront API error: "
                                   ++ api_error_text (or_else e body)))
              else get body "data")
        end
    end.
Proof.
  unfold run, Experience.storefrontQuery, Experience.STORE_DOMAIN,
    Experience.STOREFRONT_TOKEN, Experience.STOREFRONT_VERSION.
  rewrite (live_check cfg (buildEndpoint_live cfg endpoint configured)).
  unfold bind, fetch. fold (storefront_request cfg query variables).
  destruct (net (storefront_request cfg query variables)) as [res|e]; [|reflexivity].
  unfold response_json. destruct (json res) as [body|err]; [|reflexivity].
  unfold ret at 1. unfold lift, ret, throw.
  destruct (ok res); simpl.
  - destruct (get body "errors") as [e|e]; [|reflexivity]. simpl.
    destruct (truthy e); reflexivity.
  - destruct (get body "errors"); reflexivity.
Qed.

(** The outcome of [shopifyFetch] as a function of the answer. *)
Lemma shopifyFetch_cases :
  snd (run (ShopifyLib.shopifyFetch cfg query variables) net)
  = match net (library_request cfg endpoint query (default_to (Obj []) variables)) with
    | Throw e => Throw e
    | Ok res =>
        match json res with
        | Unparseable err => Throw (Error "Invalid response from Shopify")
        | Parsed body =>
            if negb (ok res) then
              Throw (thrown_Error
                       (or_else (opt_get (opt_index (opt_get body "errors") 0) "message")
                                (Str ("Shopify API error ("
                                        ++ Z_to_string (status res) ++ ")"))))
            else
              rbind (get body "errors") (fun e =>
                if truthy e
                then Throw (thrown_Error
                              (or_else (opt_get (opt_index e 0) "message")
                                       (Str "Shopify API error")))
                else get body "data")
        end
    end.
Proof.
  unfold run, ShopifyLib.shopifyFetch, bind, lift. rewrite configured.
  unfold fetch. fold (library_request cfg endpoint query (default_to (Obj []) variables)).
  destruct (net (library_request cfg endpoint query (default_to (Obj []) variables))) as [res|e]; [|reflexivity].
  unfold try_catch, response_json, console_error, throw, ret.
  destruct (json res) as [body|err]; [|reflexivity].
  unfold thrown_Error, ToString.
  destruct (ok res); simpl; [|now destruct (printable _)].
  destruct (get body "errors") as [e|e]; simpl; [|reflexivity].
  destruct (truthy e); [now destruct (printable _) | reflexivity].
Qed.

(** The console lines of [shopifyFetch] as a function of the answer. *)
Lemma shopifyFetch_console :
  console_lines (fst (run (ShopifyLib.shopifyFetch cfg query variables) net))
  = match net (library_request cfg endpoint query (default_to (Obj []) variables)) with
    | Throw e => []
    | Ok res =>
        match json res with
        | Unparseable err => ["Shopify API returned invalid JSON"]
        | Parsed body =>
            if negb (ok res) then ["Shopify API HTTP error:"]
            else match get body "errors" with
                 | Ok e => if truthy e then ["Shopify API errors:"] else []
                 | Throw _ => []
                 end
        end
    end.
Proof.
  unfold run, ShopifyLib.shopifyFetch, bind, lift. rewrite configured.
  unfold fetch. fold (library_request cfg endpoint query (default_to (Obj []) variables)).
  destruct (net (library_request cfg endpoint query (default_to (Obj []) variables))) as [res|e]; [|reflexivity].
  unfold try_catch, response_json, console_error, throw, ret.
  destruct (json res) as [body|err]; [|reflexivity].
  unfold thrown_Error, ToString.
  destruct (ok res); simpl; [|now destruct (printable _)].
  destruct (get body "errors") as [e|e]; simpl; [|reflexivity].
  destruct (truthy e); [now destruct (printable _) | reflexivity].
Qed.

End ClientOutcomes.

Section ClientEdges.

(** X3: [storefrontQuery] fulfils with [data] exactly when the response has
    a 2xx status, a body that parses, no truthy [errors] and [data] under
    its [data] property; every other response makes it reject. *)
Theorem storefrontQuery_fulfils_iff
  (cfg : Config.shopify_config) (endpoint : string) (net : network) (r : response)
  (query : string) (variables data : value) :
  ShopifyLib.buildEndpoint cfg = Ok endpoint ->
  responds net r ->
  (snd (run (Experience.storefrontQuery cfg query variables) net) = Ok data
   <-> delivers r data).
Proof.
  intros Hcfg Hnet.
  rewrite (storefrontQuery_cases cfg endpoint Hcfg), Hnet.
  unfold delivers. split.
  - destruct (json r) as [body|err]; [|discriminate].
    destruct (get body "errors") as [e|e] eqn:He; [|discriminate]. simpl.
    destruct (ok r); simpl; [|discriminate].
    destruct (truthy e) eqn:Ht; [discriminate|].
    intros Hdata. split; [reflexivity|]. now exists body, e.
  - intros (Hok & body & e & -> & He & Ht & Hdata).
    rewrite He. simpl. now rewrite Hok, Ht.
Qed.

Lemma storefrontQuery_fulfils_witness :
  snd (run (Experience.storefrontQuery sample_config "{ shop { name } }" Undefined)
         (answering 200 (Obj [("data", Obj [("shop", Null)])])))
  = Ok (Obj [("shop", Null)])
  <-> delivers {| status := 200; statusText := "";
                  json := Parsed (Obj [("data", Obj [("shop", Null)])]) |}
        (Obj [("shop", Null)]).
Proof.
  apply (storefrontQuery_fulfils_iff sample_config
           "https://runway.myshopify.com/api/2026-01/graphql.json").
  - reflexivity.
  - intros rq. reflexivity.
Defined.

(** X4: [shopifyFetch] fulfils with [data] on exactly the same responses as
    [storefrontQuery]: a 2xx status, a body that parses, no truthy [errors],
    and [data] under [data]; and then it writes nothing to the console. *)
Theorem shopifyFetch_fulfils_iff
  (cfg : Config.shopify_config) (endpoint : string) (net : network) (r : response)
  (query : string) (variables data : value) :
  ShopifyLib.buildEndpoint cfg = Ok endpoint ->
  responds net r ->
  (snd (run (ShopifyLib.shopifyFetch cfg query variables) net) = Ok data
   <-> delivers r data)
  /\ (delivers r data ->
      console_lines (fst (run (ShopifyLib.shopifyFetch cfg query variables) net)) = []).
Proof.
  intros Hcfg Hnet. split.
  - rewrite (shopifyFetch_cases cfg endpoint Hcfg), Hnet.
    unfold delivers. split.
    + destruct (json r) as [body|err]; [|discriminate].
      destruct (ok r); simpl; [|discriminate].
      destruct (get body "errors") as [e|e] eqn:He; [|discriminate]. simpl.
      destruct (truthy e) eqn:Ht; [discriminate|].
      intros Hdata. split; [reflexivity|]. now exists body, e.
    + intros (Hok & body & e & -> & He & Ht & Hdata).
      rewrite Hok, He. simpl. now rewrite Ht.
  - intros (Hok & body & e & Hjson & He & Ht & Hdata).
    rewrite (shopifyFetch_console cfg endpoint Hcfg), Hnet, Hjson, Hok, He, Ht.
    reflexivity.
Qed.

Lemma shopifyFetch_fulfils_witness :
  (snd (run (ShopifyLib.shopifyFetch sample_config "{ shop { name } }" (Obj []))
          (answering 200 (Obj [("data", Obj [("shop", Null)])])))
   = Ok (Obj [("shop", Null)])
   <-> delivers {| status := 200; statusText := "";
                   json := Parsed (Obj [("data", Obj [("shop", Null)])]) |}
         (Obj [("shop", Null)]))
  /\ (delivers {| status := 200; statusText := "";
                  json := Parsed (Obj [("data", Obj [("shop", Null)])]) |}
        (Obj [("shop", Null)]) ->
      console_lines
        (fst (run (ShopifyLib.shopifyFetch sample_config "{ shop { name } }" (Obj []))
                (answering 200 (Obj [("data", Obj [("shop", Null)])]))))
      = []).
Proof.
  apply (shopifyFetch_fulfils_iff sample_config
           "https://runway.myshopify.com/api/2026-01/graphql.json").
  - reflexivity.
  - intros rq. reflexivity.
Defined.

(** X5: an [errors] array that is empty is still truthy: on a 2xx response
    that carries [errors: []], data or not, [storefrontQuery] rejects with
    the serialized empty array and [shopifyFetch] with its fixed message. *)
Theorem empty_errors_array_rejects
  (cfg : Config.shopify_config) (endpoint : string) (net : network) (r : response)
  (body : value) (query : string) (variables : value) :
  ShopifyLib.buildEndpoint cfg = Ok endpoint ->
  responds net r ->
  ok r = true ->
  json r = Parsed body ->
  get body "errors" = Ok (Arr []) ->
  snd (run (Experience.storefrontQuery cfg query variables) net)
  = Throw (Error "Storefront API error: []")
  /\ snd (run (ShopifyLib.shopifyFetch cfg query variables) net)
     = Throw (Error "Shopify API error").
Proof.
  intros Hcfg Hnet Hok Hjson He. split.
  - rewrite (storefrontQuery_cases cfg endpoint Hcfg), Hnet, Hjson, He. simpl.
    now rewrite Hok.
  - rewrite (shopifyFetch_cases cfg endpoint Hcfg), Hnet, Hjson, Hok, He. reflexivity.
Qed.

Lemma empty_errors_array_witness :
  snd (run (Experience.storefrontQuery sample_config "{ shop { name } }" (Obj []))
         (answering 200 (Obj [("data", Obj [("shop", Null)]); ("errors", Arr [])])))
  = Throw (Error "Storefront API error: []")
  /\ snd (run (ShopifyLib.shopifyFetch sample_config "{ shop { name } }" (Obj []))
            (answering 200 (Obj [("data", Obj [("shop", Null)]); ("errors", Arr [])])))
     = Throw (Error "Shopify API error").
Proof.
  apply (empty_errors_array_rejects sample_config
           "https://runway.myshopify.com/api/2026-01/graphql.json" _
           {| status := 200; statusText := "";
              json := Parsed (Obj [("data", Obj [("shop", Null)]); ("errors", Arr [])]) |}
           (Obj [("data", Obj [("shop", Null)]); ("errors", Arr [])])).
  - reflexivity.
  - intros rq. reflexivity.
  - reflexivity.
  - reflexivity.
  - reflexivity.
Defined.

(** X6: a body that parses to [null] is not guarded against.  Whatever the
    status, [storefrontQuery] rejects with the [TypeError] of reading
    [errors] off [null]; [shopifyFetch] rejects with the same [TypeError] on
    a 2xx status and with its status message otherwise. *)
Theorem null_body_outcomes
  (cfg : Config.shopify_config) (endpoint : string) (net : network) (r : response)
  (query : string) (variables : value) :
  ShopifyLib.buildEndpoint cfg = Ok endpoint ->
  responds net r ->
  json r = Parsed Null ->
  snd (run (Experience.storefrontQuery cfg query variables) net)
  = Throw (TypeError "Cannot read properties of null (reading 'errors')")
  /\ snd (run (ShopifyLib.shopifyFetch cfg query variables) net)
     = if ok r
       then Throw (TypeError "Cannot read properties of null (reading 'errors')")
       else Throw (Error ("Shopify API error (" ++ Z_to_string (status r) ++ ")")).
Proof.
  intros Hcfg Hnet Hjson. split.
  - rewrite (storefrontQuery_cases cfg endpoint Hcfg), Hnet, Hjson. reflexivity.
  - rewrite (shopifyFetch_cases cfg endpoint Hcfg), Hnet, Hjson.
    destruct (ok r); reflexivity.
Qed.

Lemma null_body_witness :
  snd (run (Experience.storefrontQuery sample_config "{ shop { name } }" (Obj []))
         (answering 502 Null))
  = Throw (TypeError "Cannot read properties of null (reading 'errors')")
  /\ snd (run (ShopifyLib.shopifyFetch sample_config "{ shop { name } }" (Obj []))
            (answering 502 Null))
     = Throw (Error "Shopify API error (502)").
Proof.
  apply (null_body_outcomes sample_config
           "https://runway.myshopify.com/api/2026-01/graphql.json" _
           {| status := 502; statusText := ""; json := Parsed Null |}).
  - reflexivity.
  - intros rq. reflexivity.
  - reflexivity.
Defined.

(** X7: when [fetch] itself rejects, both clients reject with the very
    reason of [fetch]; neither catches it, and [shopifyFetch] writes nothing
    to the console. *)
Theorem network_failure_propagates
  (cfg : Config.shopify_config) (endpoint : string) (net : network) (e : exn)
  (query : string) (variables : value) :
  ShopifyLib.buildEndpoint cfg = Ok endpoint ->
  unreachable net e ->
  snd (run (Experience.storefrontQuery cfg query variables) net) = Throw e
  /\ snd (run (ShopifyLib.shopifyFetch cfg query variables) net) = Throw e
  /\ console_lines (fst (run (ShopifyLib.shopifyFetch cfg query variables) net)) = [].
Proof.
  intros Hcfg Hnet. split; [|split].
  - now rewrite (storefrontQuery_cases cfg endpoint Hcfg), Hnet.
  - now rewrite (shopifyFetch_cases cfg endpoint Hcfg), Hnet.
  - now rewrite (shopifyFetch_console cfg endpoint Hcfg), Hnet.
Qed.

Lemma network_failure_witness :
  snd (run (Experience.storefrontQuery sample_config "{ shop { name } }" (Obj []))
         (fun _ => Throw (TypeError "Failed to fetch")))
  = Throw (TypeError "Failed to fetch")
  /\ snd (run (ShopifyLib.shopifyFetch sample_config "{ shop { name } }" (Obj []))
            (fun _ => Throw (TypeError "Failed to fetch")))
     = Throw (TypeError "Failed to fetch")
  /\ console_lines
       (fst (run (ShopifyLib.shopifyFetch sample_config "{ shop { name } }" (Obj []))
               (fun _ => Throw (TypeError "Failed to fetch"))))
     = [].
Proof.
  apply (network_failure_propagates sample_config
           "https://runway.myshopify.com/api/2026-01/graphql.json").
  - reflexivity.
  - intros rq. reflexivity.
Defined.

(** X8: [shopifyFetch] writes exactly one console line before each failure
    it handles itself: one for a body that does not parse, one for a non-2xx
    status, one for a truthy [errors] on a 2xx status. *)
Theorem shopifyFetch_logs_each_handled_failure
  (cfg : Config.shopify_config) (endpoint : string) (net : network) (r : response)
  (query : string) (variables : value) :
  ShopifyLib.buildEndpoint cfg = Ok endpoint ->
  responds net r ->
  (forall err, json r = Unparseable err ->
     console_lines (fst (run (ShopifyLib.shopifyFetch cfg query variables) net))
     = ["Shopify API returned invalid JSON"])
  /\ (forall body, json r = Parsed body -> ok r = false ->
        console_lines (fst (run (ShopifyLib.shopifyFetch cfg query variables) net))
        = ["Shopify API HTTP error:"])
  /\ (forall body e, json r = Parsed body -> ok r = true ->
        get body "errors" = Ok e -> truthy e = true ->
        console_lines (fst (run (ShopifyLib.shopifyFetch cfg query variables) net))
        = ["Shopify API errors:"]).
Proof.
  intros Hcfg Hnet.
  rewrite (shopifyFetch_console cfg endpoint Hcfg), Hnet.
  split; [|split].
  - intros err ->. reflexivity.
  - intros body -> ->. reflexivity.
  - intros body e -> -> -> ->. reflexivity.
Qed.

Lemma shopifyFetch_logs_witness :
  console_lines
    (fst (run (ShopifyLib.shopifyFetch sample_config "{ shop { name } }" (Obj []))
            (answering 500 (errors_response "Internal error"))))
  = ["Shopify API HTTP error:"].
Proof.
  destruct (shopifyFetch_logs_each_handled_failure sample_config
              "https://runway.myshopify.com/api/2026-01/graphql.json"
              (answering 500 (errors_response "Internal error"))
              {| status := 500; statusText := "";
                 json := Parsed (errors_response "Internal error") |}
              "{ shop { name } }" (Obj [])) as (_ & Hhttp & _).
  - reflexivity.
  - intros rq. reflexivity.
  - apply (Hhttp (errors_response "Internal error")); reflexivity.
Defined.

End ClientEdges.

(* ===================================================================== *)
(** ** The endpoint and the configuration                                  *)
(* ===================================================================== *)

Section Endpoint.
Import ShopifyLib.

Lemma append_cancel_r (a b c : string) : a ++ c = b ++ c -> a = b.
Proof.
  revert b. induction a as [|x a IH]; intros [|y b] H; simpl in H.
  - reflexivity.
  - apply (f_equal String.length) in H. simpl in H. rewrite length_append in H. lia.
  - apply (f_equal String.length) in H. simpl in H. rewrite length_append in H. lia.
  - inversion H. f_equal. now apply IH.
Qed.

(** One more slash at the end changes nothing. *)
Lemma strip_trailing_slash (s : string) :
  strip_trailing_slashes (s ++ "/") = strip_trailing_slashes s.
Proof.
  induction s as [|c s IH]; [reflexivity|].
  change (String c s ++ "/") with (String c (s ++ "/")).
  simpl. now rewrite IH.
Qed.

Lemma strip_trailing_slashes_many (s : string) (n : nat) :
  strip_trailing_slashes (s ++ slashes n) = strip_trailing_slashes s.
Proof.
  revert s. induction n as [|n IH]; intros s; simpl.
  - now rewrite append_nil_r.
  - change (String "/" (slashes n)) with ("/" ++ slashes n).
    rewrite <- append_assoc, IH. apply strip_trailing_slash.
Qed.

(** What is left has no slash at its end. *)
Lemma strip_trailing_slashes_last (s : string) :
  last_char (strip_trailing_slashes s) <> Some "/"%char.
Proof.
  induction s as [|c s IH]; simpl; [discriminate|].
  destruct (strip_trailing_slashes s) as [|d t] eqn:E.
  - destruct (Ascii.eqb_spec c "/"%char) as [->|Hne]; simpl; congruence.
  - exact IH.
Qed.

Lemma strip_trailing_slashes_idempotent (s : string) :
  strip_trailing_slashes (strip_trailing_slashes s) = strip_trailing_slashes s.
Proof.
  induction s as [|c s IH]; simpl; [reflexivity|].
  destruct (strip_trailing_slashes s) as [|d t] eqn:E.
  - destruct (Ascii.eqb_spec c "/"%char) as [->|Hne]; simpl; [reflexivity|].
    destruct (Ascii.eqb_spec c "/"%char); [contradiction | reflexivity].
  - simpl in IH |- *. now rewrite IH.
Qed.

(** X9: an endpoint that [buildEndpoint] returns is
    [https://HOST/api/VERSION/graphql.json] where the host is not empty and
    does not end in a slash, and the access token is not empty. *)
Theorem buildEndpoint_shape (cfg : Config.shopify_config) (endpoint : string) :
  buildEndpoint cfg = Ok endpoint ->
  exists host,
    endpoint = "https://" ++ host ++ "/api/" ++ Config.apiVersion cfg ++ "/graphql.json"
    /\ host <> ""
    /\ last_char host <> Some "/"%char
    /\ Config.storefrontAccessToken cfg <> "".
Proof.
  unfold buildEndpoint. intros H.
  set (host := strip_trailing_slashes (strip_protocol (Config.domain cfg))) in *.
  destruct (String.eqb_spec host "") as [Hh|Hh]; [discriminate|].
  destruct (String.eqb_spec (Config.storefrontAccessToken cfg) "") as [Ht|Ht];
    [discriminate|].
  simpl in H. inversion H. exists host.
  split; [reflexivity|]. split; [exact Hh|]. split; [|exact Ht].
  apply strip_trailing_slashes_last.
Qed.

Lemma buildEndpoint_shape_witness :
  exists host,
    "https://runway.myshopify.com/api/2026-01/graphql.json"
    = "https://" ++ host ++ "/api/" ++ Config.apiVersion sample_config ++ "/graphql.json"
    /\ host <> ""
    /\ last_char host <> Some "/"%char
    /\ Config.storefrontAccessToken sample_config <> "".
Proof. apply (buildEndpoint_shape sample_config). reflexivity. Defined.

(** X10: [buildEndpoint] takes the domain written as a URL: for a domain
    [d] that has no protocol in front, [https://d] and [http://d], each with
    any number of slashes at the end, give what [d] gives. *)
Theorem buildEndpoint_normalises (cfg : Config.shopify_config) (d : string) (n : nat) :
  strip_protocol d = d ->
  buildEndpoint (with_domain cfg ("https://" ++ d ++ slashes n))
  = buildEndpoint (with_domain cfg d)
  /\ buildEndpoint (with_domain cfg ("http://" ++ d ++ slashes n))
     = buildEndpoint (with_domain cfg d).
Proof.
  intros Hd. unfold buildEndpoint, with_domain.
  cbn [Config.domain Config.storefrontAccessToken Config.apiVersion].
  change (strip_protocol ("https://" ++ d ++ slashes n)) with (d ++ slashes n).
  change (strip_protocol ("http://" ++ d ++ slashes n)) with (d ++ slashes n).
  now rewrite Hd, strip_trailing_slashes_many.
Qed.

Lemma buildEndpoint_normalises_witness :
  buildEndpoint (with_domain sample_config ("https://" ++ "runway.myshopify.com" ++ slashes 2))
  = buildEndpoint (with_domain sample_config "runway.myshopify.com")
  /\ buildEndpoint (with_domain sample_config ("http://" ++ "runway.myshopify.com" ++ slashes 2))
     = buildEndpoint (with_domain sample_config "runway.myshopify.com").
Proof. apply buildEndpoint_normalises. reflexivity. Defined.

Lemma append_cancel_l (a b c : string) : a ++ b = a ++ c -> b = c.
Proof. induction a as [|x a IH]; simpl; intros H; [exact H|]. injection H as H. now apply IH. Qed.

(** The default makes a difference to the body exactly when the variables
    are [undefined]: [JSON.stringify] leaves such a property out. *)
Lemma body_with_default (query : string) (variables : value) :
  stringify (Obj [("query", Str query); ("variables", variables)])
  = stringify (Obj [("query", Str query); ("variables", default_to (Obj []) variables)])
  <-> variables <> Undefined.
Proof.
  split.
  - intros H ->. unfold stringify in H. simpl in H. injection H as H.
    rewrite !append_assoc in H. apply append_cancel_l in H. simpl in H. discriminate.
  - intros H. destruct variables; try reflexivity. congruence.
Qed.

(** X11: the two clients send the same request for the same query and
    variables exactly when the configured domain is one the library leaves
    as it is (no protocol in front, no slash at the end) and the variables
    are not [undefined]: [storefrontQuery] pastes the domain into its
    endpoint unchanged, and it has no default for the variables, which
    [JSON.stringify] then leaves out of the body. *)
Theorem clients_send_the_same_request_iff_clean
  (cfg : Config.shopify_config) (endpoint query : string) (variables : value)
  (net : network) :
  buildEndpoint cfg = Ok endpoint ->
  (requests (fst (run (Experience.storefrontQuery cfg query variables) net))
   = requests (fst (run (shopifyFetch cfg query variables) net))
   <-> clean_domain (Config.domain cfg) /\ variables <> Undefined).
Proof.
  intros Hcfg. unfold run.
  rewrite (shopifyFetch_requests cfg endpoint) by exact Hcfg.
  rewrite storefrontQuery_log by exact (buildEndpoint_live cfg endpoint Hcfg).
  simpl requests. rewrite <- body_with_default with (query := query).
  unfold buildEndpoint, clean_domain in *.
  set (host := strip_trailing_slashes (strip_protocol (Config.domain cfg))) in *.
  destruct (String.eqb host "" || String.eqb (Config.storefrontAccessToken cfg) "");
    [discriminate|].
  injection Hcfg as Hep. subst endpoint.
  unfold storefront_request, library_request.
  generalize (stringify (Obj [("query", Str query); ("variables", variables)])),
    (stringify (Obj [("query", Str query); ("variables", default_to (Obj []) variables)])).
  intros b1 b2. split.
  - intros Heq. injection Heq as Hendpoint Hbody. split; [|exact Hbody].
    symmetry. now apply append_cancel_r in Hendpoint.
  - intros [Hclean ->]. now rewrite Hclean.
Qed.

Lemma clients_send_the_same_request_witness :
  requests (fst (run (Experience.storefrontQuery sample_config "{ shop { name } }" (Obj []))
                   (answering 200 Null)))
  = requests (fst (run (shopifyFetch sample_config "{ shop { name } }" (Obj []))
                     (answering 200 Null)))
  <-> clean_domain (Config.domain sample_config) /\ Obj [] <> Undefined.
Proof.
  apply (clients_send_the_same_request_iff_clean sample_config
           "https://runway.myshopify.com/api/2026-01/graphql.json").
  reflexivity.
Defined.

End Endpoint.

Section Environment.

(** X12: the three settings of [SHOPIFY_CONFIG] carry no white space at
    either end, in ASCII or outside it; the API version is never empty: it
    is [2026-01] when the variable is unset or blank and the trimmed variable
    otherwise. *)
Theorem configuration_is_trimmed (e : Config.env) :
  trimmed (Config.domain (Config.SHOPIFY_CONFIG e))
  /\ trimmed (Config.storefrontAccessToken (Config.SHOPIFY_CONFIG e))
  /\ trimmed (Config.apiVersion (Config.SHOPIFY_CONFIG e))
  /\ Config.apiVersion (Config.SHOPIFY_CONFIG e) <> ""
  /\ Config.apiVersion (Config.SHOPIFY_CONFIG e)
     = if blank (Config.or_empty (Config.VITE_SHOPIFY_API_VERSION e))
       then "2026-01"
       else trim (Config.or_empty (Config.VITE_SHOPIFY_API_VERSION e)).
Proof.
  simpl. unfold Config.SHOPIFY_DOMAIN, Config.SHOPIFY_TOKEN, Config.SHOPIFY_API_VERSION.
  split; [apply trim_trimmed|]. split; [apply trim_trimmed|].
  set (v := Config.or_empty (Config.VITE_SHOPIFY_API_VERSION e)).
  destruct (String.eqb_spec (trim v) "") as [Hv|Hv].
  - apply trim_empty_iff in Hv as Hb. rewrite Hb.
    split; [|split; [discriminate | reflexivity]].
    change "2026-01" with (trim "2026-01"). apply trim_trimmed.
  - assert (Hb : blank v = false).
    { destruct (blank v) eqn:Hb; [|reflexivity]. now apply trim_empty_iff in Hb. }
    rewrite Hb. split; [apply trim_trimmed|]. split; [exact Hv | reflexivity].
Qed.

(** X13: live data is on exactly when both the domain and the token are set
    in the environment to something that is not blank; white space outside
    ASCII counts as blank too: a domain set to U+00A0 alone is off. *)
Theorem live_data_iff_environment_set (e : Config.env) :
  (Config.USE_LIVE_DATA (Config.SHOPIFY_CONFIG e) = true
   <-> blank (Config.or_empty (Config.VITE_SHOPIFY_STORE_DOMAIN e)) = false
       /\ blank (Config.or_empty (Config.VITE_SHOPIFY_STOREFRONT_TOKEN e)) = false)
  /\ forall token version,
       Config.USE_LIVE_DATA (Config.SHOPIFY_CONFIG (Config.mkEnv (Some nbsp) token version))
       = false.
Proof.
  split; [|reflexivity].
  rewrite USE_LIVE_DATA_spec. simpl.
  unfold Config.SHOPIFY_DOMAIN, Config.SHOPIFY_TOKEN.
  rewrite !trim_empty_iff. now rewrite !not_true_iff_false.
Qed.

(** With the domain or the token unset or blank in the environment,
    both clients, run on the configuration read from it, reject at once
    with their configuration error and leave the log as it was. *)
Theorem blank_environment_rejects
  (e : Config.env) (query : string) (variables : value) (net : network) (t : trace) :
  blank (Config.or_empty (Config.VITE_SHOPIFY_STORE_DOMAIN e)) = true
  \/ blank (Config.or_empty (Config.VITE_SHOPIFY_STOREFRONT_TOKEN e)) = true ->
  Experience.storefrontQuery (Config.SHOPIFY_CONFIG e) query variables net t
  = (t, Throw (Error "Missing VITE_SHOPIFY_STORE_DOMAIN or VITE_SHOPIFY_STOREFRONT_TOKEN"))
  /\ ShopifyLib.shopifyFetch (Config.SHOPIFY_CONFIG e) query variables net t
     = (t, Throw (Error "Missing Shopify configuration (domain or token)")).
Proof.
  intros H. apply blank_environment in H. split.
  - unfold Experience.storefrontQuery, Experience.STORE_DOMAIN,
      Experience.STOREFRONT_TOKEN.
    destruct H as [H|H]; rewrite H; [reflexivity | now rewrite orb_true_r].
  - unfold ShopifyLib.shopifyFetch, bind, lift.
    now rewrite (buildEndpoint_unconfigured _ H).
Qed.

Lemma blank_environment_witness :
  Experience.storefrontQuery
    (Config.SHOPIFY_CONFIG (Config.mkEnv (Some "  ") (Some "token") None))
    "{ shop { name } }" Undefined (answering 200 Null) []
  = ([], Throw (Error "Missing VITE_SHOPIFY_STORE_DOMAIN or VITE_SHOPIFY_STOREFRONT_TOKEN"))
  /\ ShopifyLib.shopifyFetch
       (Config.SHOPIFY_CONFIG (Config.mkEnv (Some "  ") (Some "token") None))
       "{ shop { name } }" Undefined (answering 200 Null) []
     = ([], Throw (Error "Missing Shopify configuration (domain or token)")).
Proof.
  apply (blank_environment_rejects (Config.mkEnv (Some "  ") (Some "token") None)).
  left. reflexivity.
Defined.

End Environment.

(* ===================================================================== *)
(** ** Further properties of the collection query                          *)
(* ===================================================================== *)

Section CollectionEdges.
Import Experience.

(** The fields of a well-shaped edge pass through unchanged. *)
Lemma shape_edge_fields (edge : value) :
  verbatim_price edge <> None ->
  exists p,
    shape_edge edge = Ok p
    /\ id p = node_field "id" edge
    /\ title p = node_field "title" edge
    /\ handle p = node_field "handle" edge
    /\ imageUrl p = opt_get (node_field "featuredImage" edge) "url".
Proof.
  unfold verbatim_price, min_variant_price. intros H.
  destruct edge as [| | | | |items|ef]; try congruence.
  destruct (lookup_field "node" ef) as [[| | | | |items|nf]|] eqn:Hnode; try congruence.
  destruct (lookup_field "priceRange" nf) as [[| | | | |items|pf]|] eqn:Hpr; try congruence.
  destruct (lookup_field "minVariantPrice" pf) as [[| | | | |items|mf]|] eqn:Hmv;
    try congruence.
  destruct (lookup_field "amount" mf) as [[| | | |a| |]|] eqn:Ha; try congruence.
  destruct (lookup_field "currencyCode" mf) as [[| | | |c| |]|] eqn:Hc; try congruence.
  unfold shape_edge, node_field, opt_get, get. simpl nullish. cbv iota.
  rewrite Hnode. unfold rbind. rewrite Hpr, Hmv, Ha, Hc.
  eexists. repeat split.
Qed.

Lemma shape_edges_fields (edges : list value) :
  Forall (fun edge => verbatim_price edge <> None) edges ->
  exists ps,
    rmap shape_edge edges = Ok ps
    /\ map id ps = map (node_field "id") edges
    /\ map title ps = map (node_field "title") edges
    /\ map handle ps = map (node_field "handle") edges
    /\ map imageUrl ps
       = map (fun edge => opt_get (node_field "featuredImage" edge) "url") edges.
Proof.
  induction 1 as [|edge edges Hedge _ IH].
  - exists []. repeat split.
  - destruct IH as (ps & Hps & Hi & Ht & Hh & Hu).
    destruct (shape_edge_fields edge Hedge) as (p & Hp & Hi' & Ht' & Hh' & Hu').
    exists (p :: ps). simpl. rewrite Hp. simpl. rewrite Hps. simpl.
    rewrite Hi, Ht, Hh, Hu, Hi', Ht', Hh', Hu'. repeat split.
Qed.

Lemma rmap_length {A B} (f : A -> result B) (l : list A) (l' : list B) :
  rmap f l = Ok l' -> List.length l' = List.length l.
Proof.
  revert l'. induction l as [|x l IH]; simpl; intros l' H.
  - now inversion H.
  - destruct (f x) as [y|e]; [|discriminate]. simpl in H.
    destruct (rmap f l) as [ys|e]; [|discriminate]. simpl in H.
    inversion H. simpl. f_equal. now apply IH.
Qed.

(** The loop of [map] stops at the first callback that throws. *)
Lemma rmap_throws {A B} (f : A -> result B) (l : list A) :
  Exists (fun x => exists e, f x = Throw e) l ->
  exists x e, In x l /\ f x = Throw e /\ rmap f l = Throw e.
Proof.
  induction 1 as [x l [e He]|x l _ IH]; simpl.
  - exists x, e. rewrite He. auto.
  - destruct (f x) as [y|e] eqn:Hx.
    + destruct IH as (x' & e' & Hin & He' & Hr). exists x', e'. rewrite Hr. auto.
    + exists x, e. auto.
Qed.

(** Whatever [shape_edge] throws is a [TypeError]. *)
Lemma shape_edge_TypeError (edge : value) (e : exn) :
  shape_edge edge = Throw e -> kind e = TypeErrorK.
Proof.
  unfold shape_edge. intros H.
  assert (Hget : forall v k e', get v k = Throw e' -> kind e' = TypeErrorK).
  { intros v k e' Hv. destruct v; simpl in Hv; try discriminate; now inversion Hv. }
  match type of H with
  | rbind ?m _ = _ => destruct m as [node|e0] eqn:Hnode
  end.
  - simpl in H.
    assert (Htext : forall v e', ToString v = Throw e' -> kind e' = TypeErrorK).
    { intros v e' Hv. unfold ToString in Hv.
      destruct (printable v); [discriminate | now inversion Hv]. }
    repeat match type of H with
           | rbind (get ?v ?k) _ = Throw _ =>
               let E := fresh "E" in
               destruct (get v k) eqn:E; simpl in H;
               [|inversion H; subst; eapply Hget; eassumption]
           | rbind (ToString ?v) _ = Throw _ =>
               let E := fresh "E" in
               destruct (ToString v) eqn:E; simpl in H;
               [|inversion H; subst; eapply Htext; eassumption]
           end.
    discriminate.
  - simpl in H. inversion H; subst.
    destruct edge; try (eapply Hget; eassumption); now inversion Hnode.
Qed.

Lemma shape_edge_lacking (edge : value) :
  lacks_price_range edge -> exists e, shape_edge edge = Throw e.
Proof.
  intros (ef & nf & -> & Hnode & Hpr).
  unfold shape_edge, get. rewrite Hnode. unfold rbind. rewrite Hpr. now eexists.
Qed.

Lemma getCollectionProducts_log (cfg : Config.shopify_config) (handle : string)
  (first : Z) (net : network) (t : trace) :
  fst (getCollectionProducts cfg handle first net t)
  = fst (storefrontQuery cfg CollectionProducts_query
           (collection_variables handle first) net t).
Proof.
  unfold getCollectionProducts, bind, lift, ret.
  fold (collection_variables handle first).
  destruct (storefrontQuery cfg CollectionProducts_query
              (collection_variables handle first) net t) as [t' [data|e]]; [|reflexivity].
  simpl. destruct (get data "collectionByHandle") as [col|e]; [|reflexivity].
  destruct (truthy col); simpl; [|reflexivity].
  destruct (get col "products") as [ps|e]; [|reflexivity].
  destruct (get ps "edges"); reflexivity.
Qed.

End CollectionEdges.

Section CollectionProperties.
Import Experience.

(** X14: on a successful response whose edges all have the shape the query
    selects, [getCollectionProducts] returns one product for each edge, in
    the order of the response, with id, title and handle passed through
    unchanged and the image URL taken from the featured image (undefined
    when there is none). *)
Theorem getCollectionProducts_passes_fields_through
  (cfg : Config.shopify_config) (handle : string) (first : Z)
  (net : network) (r : response) (data : value) (edges : list value) :
  Config.USE_LIVE_DATA cfg = true ->
  responds net r ->
  delivers r data ->
  collection_edges data edges ->
  Forall (fun edge => verbatim_price edge <> None) edges ->
  exists ps,
    snd (run (getCollectionProducts cfg handle first) net) = Ok ps
    /\ List.length ps = List.length edges
    /\ map id ps = map (node_field "id") edges
    /\ map title ps = map (node_field "title") edges
    /\ map Experience.handle ps = map (node_field "handle") edges
    /\ map imageUrl ps
       = map (fun edge => opt_get (node_field "featuredImage" edge) "url") edges.
Proof.
  intros Hlive Hnet Hdata Hedges Hshape.
  rewrite getCollectionProducts_edges with (r := r) (data := data) (edges := edges)
    by assumption.
  destruct (shape_edges_fields edges Hshape) as (ps & Hps & Hfields).
  exists ps. split; [exact Hps|]. split; [|exact Hfields].
  now apply rmap_length with (f := shape_edge).
Qed.

Lemma getCollectionProducts_passes_fields_witness :
  exists ps,
    snd (run (getCollectionProducts sample_config "hoodies-1" 12)
           (answering 200 (collection_response [Obj [("node", sample_node)]])))
    = Ok ps
    /\ List.length ps = 1%nat
    /\ map id ps = [Str "gid://shopify/Product/1"]
    /\ map title ps = [Str "Hoodie"]
    /\ map Experience.handle ps = [Str "hoodie"]
    /\ map imageUrl ps = [Undefined].
Proof.
  apply (getCollectionProducts_passes_fields_through sample_config "hoodies-1" 12
           _ {| status := 200; statusText := "";
                json := Parsed (collection_response [Obj [("node", sample_node)]]) |}
           (Obj [("collectionByHandle",
                  Obj [("title", Str "Hoodies");
                       ("products",
                        Obj [("edges", Arr [Obj [("node", sample_node)]])])])])
           [Obj [("node", sample_node)]]).
  - reflexivity.
  - intros rq. reflexivity.
  - split; [reflexivity|]. do 2 eexists. repeat split; reflexivity.
  - do 2 eexists. repeat split; reflexivity.
  - constructor; [discriminate | constructor].
Defined.

(** X15: one edge whose node has no price range makes the whole call
    reject with a [TypeError]: no product of the collection is returned,
    however many well-shaped edges surround it. *)
Theorem malformed_edge_rejects_whole_collection
  (cfg : Config.shopify_config) (handle : string) (first : Z)
  (net : network) (r : response) (data : value) (edges : list value) :
  Config.USE_LIVE_DATA cfg = true ->
  responds net r ->
  delivers r data ->
  collection_edges data edges ->
  Exists lacks_price_range edges ->
  exists e,
    snd (run (getCollectionProducts cfg handle first) net) = Throw e
    /\ kind e = TypeErrorK.
Proof.
  intros Hlive Hnet Hdata Hedges Hbad.
  rewrite getCollectionProducts_edges with (r := r) (data := data) (edges := edges)
    by assumption.
  destruct (rmap_throws shape_edge edges) as (x & e & _ & Hx & Hr).
  - eapply List.Exists_impl; [|exact Hbad]. intros edge. apply shape_edge_lacking.
  - exists e. split; [exact Hr|]. eapply shape_edge_TypeError, Hx.
Qed.

Lemma malformed_edge_witness :
  exists e,
    snd (run (getCollectionProducts sample_config "hoodies-1" 12)
           (answering 200
              (collection_response
                 [Obj [("node", sample_node)];
                  Obj [("node", Obj [("id", Str "gid://shopify/Product/2")])]])))
    = Throw e
    /\ kind e = TypeErrorK.
Proof.
  apply (malformed_edge_rejects_whole_collection sample_config "hoodies-1" 12
           _ {| status := 200; statusText := "";
                json := Parsed
                          (collection_response
                             [Obj [("node", sample_node)];
                              Obj [("node", Obj [("id", Str "gid://shopify/Product/2")])]]) |}
           (Obj [("collectionByHandle",
                  Obj [("title", Str "Hoodies");
                       ("products",
                        Obj [("edges",
                              Arr [Obj [("node", sample_node)];
                                   Obj [("node",
                                         Obj [("id", Str "gid://shopify/Product/2")])]])])])])
           [Obj [("node", sample_node)];
            Obj [("node", Obj [("id", Str "gid://shopify/Product/2")])]]).
  - reflexivity.
  - intros rq. reflexivity.
  - split; [reflexivity|]. do 2 eexists. repeat split; reflexivity.
  - do 2 eexists. repeat split; reflexivity.
  - apply Exists_cons_tl, Exists_cons_hd.
    exists [("node", Obj [("id", Str "gid://shopify/Product/2")])],
           [("id", Str "gid://shopify/Product/2")].
    repeat split; reflexivity.
Defined.

(** X16: the empty-list policy covers a missing collection only.  On a 2xx
    response without truthy [errors] whose [data] is null or absent,
    [storefrontQuery] fulfils, and [getCollectionProducts] then rejects with
    the [TypeError] of reading [collectionByHandle] off it. *)
Theorem response_without_data_rejects
  (cfg : Config.shopify_config) (handle : string) (first : Z)
  (net : network) (r : response) (data : value) :
  Config.USE_LIVE_DATA cfg = true ->
  responds net r ->
  delivers r data ->
  nullish data = true ->
  snd (run (getCollectionProducts cfg handle first) net)
  = Throw (TypeError ("Cannot read properties of " ++ to_string data
                        ++ " (reading 'collectionByHandle')")).
Proof.
  intros Hlive Hnet Hdata Hnull.
  unfold getCollectionProducts.
  rewrite (run_bind _ _ net data) by now apply storefrontQuery_delivers with (r := r).
  destruct data; try discriminate; reflexivity.
Qed.

Lemma response_without_data_witness :
  snd (run (getCollectionProducts sample_config "hoodies-1" 12)
         (answering 200 (Obj [])))
  = Throw (TypeError "Cannot read properties of undefined (reading 'collectionByHandle')").
Proof.
  apply (response_without_data_rejects sample_config "hoodies-1" 12
           _ {| status := 200; statusText := ""; json := Parsed (Obj []) |} Undefined).
  - reflexivity.
  - intros rq. reflexivity.
  - split; [reflexivity|]. do 2 eexists. repeat split; reflexivity.
  - reflexivity.
Defined.

(** X17: a configured [getCollectionProducts] sends exactly one request,
    whatever the answer, to the endpoint of the configured domain and
    version, and the body of that request holds the handle as a JSON
    string. *)
Theorem collection_request_names_the_handle
  (cfg : Config.shopify_config) (handle : string) (first : Z) (net : network) :
  Config.USE_LIVE_DATA cfg = true ->
  exists rq text,
    requests (fst (run (getCollectionProducts cfg handle first) net)) = [rq]
    /\ endpoint rq = "https://" ++ Config.domain cfg ++ "/api/" ++ Config.apiVersion cfg
                       ++ "/graphql.json"
    /\ body rq = Some text
    /\ includes text (quote handle) = true.
Proof.
  intros Hlive.
  destruct (serialize_object_includes "" ("" ++ "") "handle"
              [("handle", Str handle); ("first", Num (Fin (inject_Z first)))]
              (Str handle) (quote handle)) as (vars & Hvars & Hin);
    [now left | reflexivity |].
  destruct (serialize_object_includes "" "" "variables"
              [("query", Str CollectionProducts_query);
               ("variables", collection_variables handle first)]
              (collection_variables handle first) vars) as (text & Htext & Hin');
    [right; now left | exact Hvars |].
  exists (storefront_request cfg CollectionProducts_query (collection_variables handle first)),
    text.
  split; [|split; [reflexivity | split; [exact Htext|]]].
  - unfold run. rewrite getCollectionProducts_log, storefrontQuery_log by exact Hlive.
    reflexivity.
  - eapply includes_trans; [exact Hin'|].
    apply includes_append_r, includes_append_r, includes_append_r.
    eapply includes_trans; [exact Hin|].
    apply includes_append_r, includes_append_r, includes_append_r, includes_self.
Qed.

Lemma collection_request_witness :
  exists rq text,
    requests (fst (run (getCollectionProducts sample_config "hoodies-1" 12) shirts_down))
    = [rq]
    /\ endpoint rq = "https://" ++ Config.domain sample_config ++ "/api/"
                       ++ Config.apiVersion sample_config ++ "/graphql.json"
    /\ body rq = Some text
    /\ includes text (quote "hoodies-1") = true.
Proof.
  apply (collection_request_names_the_handle sample_config "hoodies-1" 12 shirts_down).
  reflexivity.
Defined.

End CollectionProperties.

(* ===================================================================== *)
(** ** Further properties of the single-product formatting                 *)
(* ===================================================================== *)

Section FormattingProperties.
Import ShopifyLib.

Lemma filter_truthy_Forall (l : list value) :
  Forall (fun v => truthy v = true) (filter_truthy l).
Proof.
  apply List.Forall_forall. intros v Hv. unfold filter_truthy in Hv.
  now apply filter_In in Hv.
Qed.

(** A fallback text stands in for a falsy value only, which has a text. *)
Lemma printable_or_else (a : value) (s : string) :
  printable (or_else a (Str s)) = printable a.
Proof.
  unfold or_else. destruct (truthy a) eqn:Ha; [reflexivity|].
  destruct a; try reflexivity; discriminate.
Qed.

(** What a successful call tells about its argument and its result. *)
Lemma formatShopifyProduct_inversion (node : value) (p : ShopifyProduct) :
  formatShopifyProduct node = Ok p ->
  exists fields t,
    node = Obj fields
    /\ lookup_field "title" fields = Some (Str t)
    /\ printable (first_amount node) = true
    /\ label p = toUpperCase t
    /\ (images p = [] /\ nullish (edge_list "images" node) = true
        \/ exists l, edge_list "images" node = Arr l
                     /\ images p = filter_truthy (image_urls l))
    /\ imageUrl p = or_else (nth 0 (images p) Undefined) (Str "")
    /\ currencyCode p
       = or_else (opt_get (opt_get (first_variant (opt_get node "variants")) "price")
                    "currencyCode") (Str "USD")
    /\ variantId p = opt_get (first_variant (opt_get node "variants")) "id"
    /\ price p = "$" ++ toLocaleString (priceVal p).
Proof.
  unfold formatShopifyProduct. intros H.
  destruct node as [| | | | | |fields]; try discriminate;
    try (simpl in H;
         repeat match type of H with
                | rbind ?x _ = _ => destruct x; simpl in H; try discriminate
                | match ?x with _ => _ end = _ => destruct x; simpl in H; try discriminate
                end; fail).
  change (get (Obj fields) "variants") with (Ok (opt_get (Obj fields) "variants")) in H.
  change (get (Obj fields) "images") with (Ok (opt_get (Obj fields) "images")) in H.
  unfold rbind at 1 2 in H.
  fold (edge_list "images" (Obj fields)) in H.
  destruct (lookup_field "title" fields) as [title|] eqn:Htitle.
  - destruct (nullish (edge_list "images" (Obj fields))) eqn:Hn.
    + unfold rbind at 1 in H. unfold get in H. rewrite Htitle in H. simpl in H.
      destruct title; try discriminate. simpl in H.
      unfold ToString in H. rewrite printable_or_else in H.
      fold (first_amount (Obj fields)) in H.
      destruct (printable (first_amount (Obj fields))) eqn:Hpr; [|discriminate].
      simpl in H. inversion H. simpl.
      exists fields, s. split; [reflexivity|]. split; [exact Htitle|].
      split; [reflexivity|].
      split; [reflexivity|]. split; [now left|]. repeat split.
    + destruct (edge_list "images" (Obj fields)) as [| | | | |l|] eqn:He;
        try discriminate.
      simpl array_map in H. rewrite rmap_total in H. simpl in H.
      unfold get in H. rewrite Htitle in H. simpl in H.
      destruct title; try discriminate. simpl in H.
      unfold ToString in H. rewrite printable_or_else in H.
      fold (first_amount (Obj fields)) in H.
      destruct (printable (first_amount (Obj fields))) eqn:Hpr; [|discriminate].
      simpl in H. inversion H. simpl.
      exists fields, s. split; [reflexivity|]. split; [exact Htitle|].
      split; [reflexivity|].
      split; [reflexivity|]. split; [right; now exists l|]. repeat split.
  - destruct (nullish (edge_list "images" (Obj fields))).
    + unfold rbind at 1 in H. unfold get in H. rewrite Htitle in H. discriminate.
    + destruct (edge_list "images" (Obj fields)); try discriminate.
      simpl array_map in H. rewrite rmap_total in H. simpl in H.
      unfold get in H. rewrite Htitle in H. discriminate.
Qed.

End FormattingProperties.

Section FormattingTheorems.
Import ShopifyLib.

(** X18: [formatShopifyProduct] returns a product exactly for an object
    with a title string whose image edges are absent or an array and whose
    first price amount can be turned into text for [parseFloat]; on every
    other argument it throws.  An amount that is an object with a property
    [toString] of its own has no text. *)
Theorem formatShopifyProduct_succeeds_iff (node : value) :
  ((exists p, formatShopifyProduct node = Ok p)
   <-> product_node node /\ printable (first_amount node) = true)
  /\ forall fields, lookup_field "toString" fields <> None -> printable (Obj fields) = false.
Proof.
  split; [|intros fields Hf; simpl; now destruct (lookup_field "toString" fields)].
  split.
  - intros [p H].
    destruct (formatShopifyProduct_inversion node p H)
      as (fields & t & -> & Htitle & Hpr & _ & Himages & _).
    split; [|exact Hpr].
    split; [now exists fields, t|].
    destruct Himages as [[_ Hn]|(l & Hl & _)]; [now left | right; now exists l].
  - intros [[(fields & t & -> & Htitle) Himages] Hpr].
    unfold edge_list in Himages. unfold formatShopifyProduct.
    change (get (Obj fields) "variants") with (Ok (opt_get (Obj fields) "variants")).
    change (get (Obj fields) "images") with (Ok (opt_get (Obj fields) "images")).
    unfold rbind at 1 2.
    assert (Htext : forall s, exists text,
               ToString (or_else (first_amount (Obj fields)) (Str s)) = Ok text).
    { intros s. unfold ToString. rewrite printable_or_else, Hpr. now eexists. }
    destruct (Htext "0") as [text Ht]. unfold first_amount in Ht.
    destruct Himages as [Hn|[l Hl]].
    + rewrite Hn. unfold rbind at 1. unfold get. rewrite Htitle. simpl.
      rewrite Ht. simpl. now eexists.
    + rewrite Hl. simpl nullish. cbv iota. simpl array_map. rewrite rmap_total.
      unfold rbind at 1 2. unfold get. rewrite Htitle. simpl.
      rewrite Ht. simpl. now eexists.
Qed.

(** X19: in a formatted product every image is truthy (empty, null and
    missing URLs are filtered out), the image URL is the first image, and it
    is the empty string exactly when there is no image. *)
Theorem formatted_images_are_truthy (node : value) (p : ShopifyProduct) :
  formatShopifyProduct node = Ok p ->
  Forall (fun u => truthy u = true) (images p)
  /\ imageUrl p = hd (Str "") (images p)
  /\ (imageUrl p = Str "" <-> images p = []).
Proof.
  intros H.
  destruct (formatShopifyProduct_inversion node p H)
    as (fields & t & _ & _ & _ & _ & Himages & Hurl & _).
  assert (Hall : Forall (fun u => truthy u = true) (images p)).
  { destruct Himages as [[-> _]|(l & _ & ->)]; [constructor | apply filter_truthy_Forall]. }
  split; [exact Hall|]. rewrite Hurl.
  destruct (images p) as [|u imgs]; simpl.
  - split; [reflexivity|]. split; reflexivity.
  - inversion Hall as [|? ? Hu _]; subst. unfold or_else. rewrite Hu.
    split; [reflexivity|]. split; [|discriminate].
    intros ->. discriminate.
Qed.

Lemma formatted_images_witness :
  exists p,
    formatShopifyProduct
      (Obj [("title", Str "Tee");
            ("images",
             Obj [("edges",
                   Arr [Obj [("node", Obj [("url", Null)])];
                        Obj [("node", Obj [("url", Str "https://cdn/tee.png")])];
                        Null])])])
    = Ok p
    /\ images p = [Str "https://cdn/tee.png"]
    /\ Forall (fun u => truthy u = true) (images p)
    /\ imageUrl p = hd (Str "") (images p)
    /\ (imageUrl p = Str "" <-> images p = []).
Proof.
  eexists. split; [reflexivity|]. split; [reflexivity|].
  apply (formatted_images_are_truthy
           (Obj [("title", Str "Tee");
                 ("images",
                  Obj [("edges",
                        Arr [Obj [("node", Obj [("url", Null)])];
                             Obj [("node", Obj [("url", Str "https://cdn/tee.png")])];
                             Null])])])).
  reflexivity.
Defined.

(** X20: the dollar sign does not depend on the currency.  The price string
    of a formatted product is determined by its numeric price alone, so two
    products with the same numeric price have the same price string whatever
    their currency codes; the currency code itself is the first variant's
    when that is truthy and [USD] otherwise. *)
Theorem price_ignores_the_currency
  (node node' : value) (p p' : ShopifyProduct) :
  formatShopifyProduct node = Ok p ->
  formatShopifyProduct node' = Ok p' ->
  (priceVal p = priceVal p' -> price p = price p')
  /\ starts_with "$" (price p) = true
  /\ truthy (currencyCode p) = true
  /\ currencyCode p
     = (let c := opt_get (opt_get (first_variant (opt_get node "variants")) "price")
                   "currencyCode" in
        if truthy c then c else Str "USD").
Proof.
  intros H H'.
  destruct (formatShopifyProduct_inversion node p H)
    as (fields & t & _ & _ & _ & _ & _ & _ & Hc & _ & Hp).
  destruct (formatShopifyProduct_inversion node' p' H')
    as (fields' & t' & _ & _ & _ & _ & _ & _ & _ & _ & Hp').
  split; [intros Hv; now rewrite Hp, Hp', Hv|].
  split; [now rewrite Hp|].
  rewrite Hc. unfold or_else. cbv zeta.
  destruct (truthy (opt_get (opt_get (first_variant (opt_get node "variants")) "price")
                      "currencyCode")) eqn:Ht; [split; [exact Ht | reflexivity]|].
  split; reflexivity.
Qed.

Lemma price_ignores_the_currency_witness :
  exists p p',
    formatShopifyProduct sample_node = Ok p
    /\ formatShopifyProduct sample_euro_node = Ok p'
    /\ currencyCode p = Str "USD" /\ currencyCode p' = Str "EUR"
    /\ price p = "$19.5" /\ price p' = "$19.5"
    /\ (priceVal p = priceVal p' -> price p = price p').
Proof.
  do 2 eexists. split; [vm_compute; reflexivity|]. split; [vm_compute; reflexivity|].
  split; [reflexivity|]. split; [reflexivity|].
  split; [reflexivity|]. split; [reflexivity|].
  refine (proj1 (price_ignores_the_currency sample_node sample_euro_node _ _ _ _));
    vm_compute; reflexivity.
Defined.

End FormattingTheorems.

(* ===================================================================== *)
(** ** Further properties of the overlay                                   *)
(* ===================================================================== *)

Section OverlayBatch.
Import Experience.

(** The mapping built from entries with distinct handles holds each entry
    and nothing else. *)
Lemma entries_map_absent (entries : list entry) (h : string) :
  ~ In h (map fst entries) -> entries_map entries !! h = None.
Proof.
  induction entries as [|[k v] entries IH] using rev_ind; intros Hh.
  - apply lookup_empty.
  - rewrite map_app, in_app_iff in Hh. simpl in Hh.
    rewrite entries_map_other by tauto. apply IH. tauto.
Qed.

Lemma entries_map_present (entries : list entry) (h : string) (ps : list ShopifyProduct) :
  List.NoDup (map fst entries) -> In (h, ps) entries ->
  entries_map entries !! h = Some ps.
Proof.
  induction entries as [|[k v] entries IH] using rev_ind; intros Hnd Hin; [destruct Hin|].
  rewrite map_app in Hnd. simpl in Hnd.
  apply List.NoDup_remove in Hnd as [Hnd Hk]. rewrite app_nil_r in Hnd, Hk.
  apply in_app_iff in Hin as [Hin|[Heq|[]]].
  - assert (k <> h).
    { intros ->. apply Hk. change h with (fst (h, ps)). now apply in_map. }
    rewrite entries_map_other by assumption. now apply IH.
  - inversion Heq; subst. apply entries_map_last.
Qed.

(** When every query fulfils, the batch fulfils with one entry for each
    panel, in order. *)
Lemma batch_fulfils (cfg : Config.shopify_config) (panels : list Panel)
  (net : network) (order : list nat) :
  Forall (panel_fulfils cfg net) panels ->
  Promise_all order (snd (start_batch cfg panels net []))
  = Ok (map (fun p => (collectionHandle p, panel_products cfg net p)) panels).
Proof.
  intros H. rewrite start_batch_outcomes.
  replace (map (fun p =>
                  rbind (snd (run (getCollectionProducts cfg (collectionHandle p) 12) net))
                        (fun products => Ok (collectionHandle p, products))) panels)
    with (map Ok (map (fun p => (collectionHandle p, panel_products cfg net p)) panels)).
  - apply Promise_all_fulfils.
  - rewrite map_map. apply map_ext_in. intros p Hp.
    rewrite List.Forall_forall in H. specialize (H p Hp).
    unfold panel_fulfils in H. unfold panel_products.
    destruct (snd (run (getCollectionProducts cfg (collectionHandle p) 12) net));
      [reflexivity | discriminate].
Qed.

Lemma panel_task_log (cfg : Config.shopify_config) (p : Panel) (net : network) (t : trace) :
  fst (panel_task cfg p net t)
  = fst (getCollectionProducts cfg (collectionHandle p) 12 net t).
Proof.
  unfold panel_task, bind, ret.
  destruct (getCollectionProducts cfg (collectionHandle p) 12 net t) as [t' [ps|e]];
    reflexivity.
Qed.

End OverlayBatch.

Section OverlayTheorems.
Import Experience.

(** X21: when the query of every panel fulfils, the handles are distinct
    ordinary names and the overlay is still mounted, the attempt leaves no
    error and a mapping that holds, for each panel's handle, exactly what that
    panel's query returned, and nothing under any other ordinary name: the
    mapping is rebuilt from scratch, whatever it held before. *)
Theorem fulfilled_batch_maps_every_panel
  (cfg : Config.shopify_config) (panels : list Panel) (net : network)
  (order : list nat) (st : overlay_state) :
  ordinary_panels panels ->
  Forall (panel_fulfils cfg net) panels ->
  List.NoDup (map collectionHandle panels) ->
  exists s,
    snd (fetch_attempt cfg panels net order false st) = Ok s
    /\ error (view s) = None
    /\ (forall p, In p panels ->
          productsByHandle (view s) !! collectionHandle p
          = Some (panel_products cfg net p))
    /\ (forall h, inherited_name h = false -> ~ In h (map collectionHandle panels) ->
          productsByHandle (view s) !! h = None).
Proof.
  intros _ Hall Hnd.
  pose proof (batch_fulfils cfg panels net order Hall) as Hbatch.
  unfold fetch_attempt.
  destruct (start_batch cfg panels net []) as [t rs]. simpl in Hbatch |- *.
  rewrite Hbatch. simpl.
  set (entries := map (fun p => (collectionHandle p, panel_products cfg net p)) panels).
  assert (Hfst : map fst entries = map collectionHandle panels).
  { unfold entries. rewrite map_map. reflexivity. }
  eexists. split; [reflexivity|]. simpl. split; [reflexivity|]. split.
  - intros p Hp. apply entries_map_present.
    + now rewrite Hfst.
    + unfold entries. apply in_map_iff. now exists p.
  - intros h _ Hh. apply entries_map_absent. now rewrite Hfst.
Qed.

Lemma fulfilled_batch_witness :
  exists s,
    snd (fetch_attempt sample_config PANELS
           (answering 200 (collection_response [Obj [("node", sample_node)]]))
           [1; 0]%nat false initial_state)
    = Ok s
    /\ error (view s) = None
    /\ (forall p, In p PANELS ->
          productsByHandle (view s) !! collectionHandle p
          = Some (panel_products sample_config
                    (answering 200 (collection_response [Obj [("node", sample_node)]])) p))
    /\ (forall h, inherited_name h = false -> ~ In h (map collectionHandle PANELS) ->
          productsByHandle (view s) !! h = None).
Proof.
  apply (fulfilled_batch_maps_every_panel sample_config PANELS).
  - repeat constructor.
  - repeat constructor.
  - repeat constructor; simpl; intuition discriminate.
Defined.

Lemma start_all_log_cons {A} (c : M A) (tasks : list (M A)) (net : network) (t : trace) :
  fst (start_all (c :: tasks) net t) = fst (start_all tasks net (fst (c net t))).
Proof.
  simpl. destruct (c net t) as [t' r]. simpl.
  now destruct (start_all tasks net t').
Qed.

Lemma storefrontQuery_unconfigured_log (cfg : Config.shopify_config) (query : string)
  (variables : value) (net : network) (t : trace) :
  Config.USE_LIVE_DATA cfg = false ->
  fst (storefrontQuery cfg query variables net t) = t.
Proof.
  intros Hoff. unfold storefrontQuery, STORE_DOMAIN, STOREFRONT_TOKEN.
  unfold Config.USE_LIVE_DATA in Hoff.
  destruct (String.eqb (Config.domain cfg) ""); [reflexivity|].
  destruct (String.eqb (Config.storefrontAccessToken cfg) ""); [reflexivity|].
  discriminate.
Qed.

(** X22: the batch fans out.  A configured overlay sends exactly one
    request for each panel, in the order of the panels, whatever the network
    answers to any of them (a failed query does not stop the later ones, and
    none is retried); an overlay without configuration sends none. *)
Theorem batch_sends_one_request_per_panel
  (cfg : Config.shopify_config) (panels : list Panel) (net : network) (t : trace) :
  (Config.USE_LIVE_DATA cfg = true ->
   requests (fst (start_batch cfg panels net t))
   = (requests t ++ map (panel_request cfg) panels)%list)
  /\ (Config.USE_LIVE_DATA cfg = false -> fst (start_batch cfg panels net t) = t).
Proof.
  unfold start_batch. split; intros Hcfg; revert t;
    induction panels as [|p panels IH]; intros t; simpl map.
  - simpl. now rewrite app_nil_r.
  - rewrite start_all_log_cons, IH, panel_task_log, getCollectionProducts_log,
      storefrontQuery_log by exact Hcfg.
    rewrite requests_app. simpl. now rewrite <- app_assoc.
  - reflexivity.
  - rewrite start_all_log_cons, IH, panel_task_log, getCollectionProducts_log.
    now apply storefrontQuery_unconfigured_log.
Qed.

End OverlayTheorems.

Section OverlayRendering.
Import Experience.

(** Every element on the screen was rendered for one of the panels. *)
Lemma visible_In {A} (f : A -> nat -> option rendered) (l : list A) (k : nat) (r : rendered) :
  In r (visible (map_index f l k)) -> exists x idx, In x l /\ f x idx = Some r.
Proof.
  revert k. induction l as [|x l IH]; intros k H; simpl in H; [destruct H|].
  apply in_app_iff in H as [H|H].
  - destruct (f x k) as [r'|] eqn:Hx; [|destruct H].
    destruct H as [->|[]]. exists x, k. split; [now left | exact Hx].
  - destruct (IH (S k) H) as (x' & idx & Hin & Hx'). exists x', idx. split; [now right | exact Hx'].
Qed.

(** What [render_panel] puts in an element. *)
Lemma render_panel_element (st : overlay_state) (i : Z) (frac : Q) (p : Panel)
  (idx : nat) (r : rendered) :
  render_panel st i frac p idx = Some r ->
  panel_key r = key p
  /\ (opacity r = (1 - frac)%Q \/ opacity r = frac)
  /\ y r = ((1 - opacity r) * 18)%Q
  /\ shown r = match default [] (productsByHandle st !! collectionHandle p) with
               | [] => if (size (productsByHandle st) =? 0)%nat then Loading else NoProducts
               | _ => Cards (default [] (productsByHandle st !! collectionHandle p))
               end.
Proof.
  unfold render_panel.
  destruct (negb (Z.of_nat idx =? i)%Z && negb (Z.of_nat idx =? i + 1)%Z); [discriminate|].
  intros H. inversion H. simpl. split; [reflexivity|]. split.
  - destruct (Z.of_nat idx =? i)%Z; [now left | now right].
  - split; reflexivity.
Qed.

(** X23: for panels with ordinary handles, a panel on the screen shows the
    loading placeholder exactly when the mapping is empty, that is, when no
    fetch has committed yet; with a mapping that is not empty it shows cards
    exactly for a handle that holds at least one product, and the other
    placeholder otherwise. *)
Theorem loading_placeholder_iff_nothing_fetched
  (panels : list Panel) (st : overlay_state) (offset : Q) (r : rendered) :
  ordinary_panels panels ->
  In r (visible (CardsOverlay panels st offset)) ->
  (shown r = Loading <-> productsByHandle st = ∅)
  /\ (forall ps, shown r = Cards ps ->
        ps <> [] /\ exists p, In p panels /\ panel_key r = key p
                              /\ productsByHandle st !! collectionHandle p = Some ps)
  /\ (shown r = NoProducts -> productsByHandle st <> ∅).
Proof.
  unfold CardsOverlay. intros _ H.
  apply visible_In in H as (p & idx & Hp & Hr).
  apply render_panel_element in Hr as (Hk & _ & _ & Hs). rewrite Hs. clear Hs.
  destruct (productsByHandle st !! collectionHandle p) as [ps|] eqn:Hl; simpl.
  - assert (Hne : productsByHandle st <> ∅).
    { intros He. rewrite He in Hl. now rewrite lookup_empty in Hl. }
    assert (Hsz : (size (productsByHandle st) =? 0)%nat = false).
    { apply Nat.eqb_neq. intros Hz. now apply map_size_empty_iff in Hz. }
    destruct ps as [|x ps]; simpl.
    + rewrite Hsz. split; [split; [discriminate | intros; contradiction]|].
      split; [discriminate | intros _; exact Hne].
    + split; [split; [discriminate | intros; contradiction]|].
      split; [|discriminate].
      intros ps' Hc. inversion Hc; subst. split; [discriminate|]. now exists p.
  - destruct (size (productsByHandle st) =? 0)%nat eqn:Hsz.
    + apply Nat.eqb_eq, map_size_empty_iff in Hsz.
      split; [split; [intros _; exact Hsz | reflexivity]|].
      split; discriminate.
    + apply Nat.eqb_neq in Hsz.
      assert (Hne : productsByHandle st <> ∅).
      { intros He. apply Hsz. now apply map_size_empty_iff. }
      split; [split; [discriminate | intros; contradiction]|].
      split; [discriminate | intros _; exact Hne].
Qed.

Lemma loading_placeholder_witness :
  exists r,
    In r (visible (CardsOverlay PANELS initial_state (1 # 4)))
    /\ (shown r = Loading <-> productsByHandle initial_state = ∅)
    /\ (forall ps, shown r = Cards ps ->
          ps <> [] /\ exists p, In p PANELS /\ panel_key r = key p
                                /\ productsByHandle initial_state !! collectionHandle p
                                   = Some ps)
    /\ (shown r = NoProducts -> productsByHandle initial_state <> ∅).
Proof.
  eexists. split; [left; reflexivity|].
  apply (loading_placeholder_iff_nothing_fetched PANELS initial_state (1 # 4)).
  - repeat constructor.
  - left. reflexivity.
Defined.

(** X24: for panels with ordinary handles, after a first attempt that failed,
    the overlay shows the error and, at every scroll offset, every panel on
    the screen still shows the loading placeholder: the mapping is as empty as
    before the attempt. *)
Theorem failed_first_attempt_keeps_loading
  (cfg : Config.shopify_config) (panels : list Panel) (net : network)
  (order : list nat) (offset : Q) :
  ordinary_panels panels ->
  Exists (fun p =>
            rejected (snd (run (getCollectionProducts cfg (collectionHandle p) 12) net))
            = true) panels ->
  exists s msg,
    snd (fetch_attempt cfg panels net order false initial_state) = Ok s
    /\ error (view s) = Some msg
    /\ forall r, In r (visible (CardsOverlay panels (view s) offset)) -> shown r = Loading.
Proof.
  intros _ H.
  destruct (batch_rejects cfg panels net order H) as (p & e & _ & _ & He).
  unfold fetch_attempt.
  destruct (start_batch cfg panels net []) as [t rs]. simpl in He |- *.
  rewrite He. simpl.
  do 2 eexists. split; [reflexivity|]. split; [reflexivity|].
  intros r Hr. unfold CardsOverlay in Hr.
  apply visible_In in Hr as (q & idx & _ & Hq).
  apply render_panel_element in Hq as (_ & _ & _ & Hs). rewrite Hs. simpl.
  now rewrite lookup_empty.
Qed.

Lemma failed_first_attempt_witness :
  exists s msg,
    snd (fetch_attempt sample_config PANELS shirts_down [] false initial_state) = Ok s
    /\ error (view s) = Some msg
    /\ forall r, In r (visible (CardsOverlay PANELS (view s) (1 # 4))) -> shown r = Loading.
Proof.
  apply (failed_first_attempt_keeps_loading sample_config PANELS shirts_down [] (1 # 4)).
  - repeat constructor.
  - apply Exists_cons_tl, Exists_cons_hd. vm_compute. reflexivity.
Defined.

End OverlayRendering.

(* ===================================================================== *)
(** ** Further properties of the crossfade                                 *)
(* ===================================================================== *)

Section CrossfadeProperties.
Import Experience.







(** X27: for panels with ordinary handles, at a whole position, offset * N = k
    with k + 1 < N (offset 0 among them), panel k is rendered at opacity 1
    without shift, and panel k + 1 is rendered too, at opacity 0 and shifted
    by 18: it is on the page, though not to be seen. *)
Theorem crossfade_at_whole_position
  (panels : list Panel) (st : overlay_state) (offset : Q) (k : nat) :
  ordinary_panels panels ->
  (offset * inject_Z (Z.of_nat (List.length panels)) == inject_Z (Z.of_nat k))%Q ->
  (S k < List.length panels)%nat ->
  exists p q r1 r2,
    nth_error panels k = Some p
    /\ nth_error panels (S k) = Some q
    /\ visible (CardsOverlay panels st offset) = [r1; r2]
    /\ panel_key r1 = key p /\ (opacity r1 == 1)%Q /\ (y r1 == 0)%Q
    /\ panel_key r2 = key q /\ (opacity r2 == 0)%Q /\ (y r2 == 18)%Q.
Proof.
  intros _ Hpos Hk. unfold CardsOverlay.
  set (pos := (offset * inject_Z (Z.of_nat (List.length panels)))%Q) in *.
  assert (Hi : Qfloor pos = Z.of_nat k) by (rewrite Hpos; apply Qfloor_Z).
  rewrite Hi.
  destruct (visible_inside st k (pos - inject_Z (Z.of_nat k)) panels 0)
    as (r & Hkey & Ho & Hv); [lia|].
  replace (k - 0)%nat with k in * by lia.
  destruct (nth_error panels k) as [p|] eqn:Hp;
    [|apply nth_error_None in Hp; lia].
  destruct (nth_error panels (S k)) as [q|] eqn:Hq;
    [|apply nth_error_None in Hq; lia].
  destruct Hv as (r' & Hkey' & Ho' & Hv).
  assert (Hr : In r (visible (map_index (render_panel st (Z.of_nat k)
                                           (pos - inject_Z (Z.of_nat k))) panels 0)))
    by (rewrite Hv; now left).
  assert (Hr' : In r' (visible (map_index (render_panel st (Z.of_nat k)
                                             (pos - inject_Z (Z.of_nat k))) panels 0)))
    by (rewrite Hv; right; now left).
  apply visible_In in Hr as (x & idx & _ & Hx).
  apply render_panel_element in Hx as (_ & _ & Hy & _).
  apply visible_In in Hr' as (x' & idx' & _ & Hx').
  apply render_panel_element in Hx' as (_ & _ & Hy' & _).
  exists p, q, r, r'.
  split; [reflexivity|]. split; [reflexivity|]. split; [exact Hv|].
  split; [simpl in Hkey; congruence|].
  assert (H1 : (opacity r == 1)%Q) by (rewrite Ho, Hpos; ring).
  assert (H0 : (opacity r' == 0)%Q) by (rewrite Ho', Hpos; ring).
  split; [exact H1|]. split; [rewrite Hy, H1; ring|].
  split; [exact Hkey'|]. split; [exact H0|]. rewrite Hy', H0. ring.
Qed.

Lemma crossfade_at_whole_position_witness :
  exists p q r1 r2,
    nth_error PANELS 0 = Some p
    /\ nth_error PANELS 1 = Some q
    /\ visible (CardsOverlay PANELS initial_state 0) = [r1; r2]
    /\ panel_key r1 = key p /\ (opacity r1 == 1)%Q /\ (y r1 == 0)%Q
    /\ panel_key r2 = key q /\ (opacity r2 == 0)%Q /\ (y r2 == 18)%Q.
Proof.
  apply (crossfade_at_whole_position PANELS initial_state 0 0).
  - repeat constructor.
  - reflexivity.
  - simpl. lia.
Defined.

End CrossfadeProperties.

(* ===================================================================== *)
(** ** The camera rig                                                      *)
(* ===================================================================== *)

Section CameraRig.
Import Experience.

(** One interpolation step leaves the fraction [1 - t] of the distance. *)
Lemma lerp_distance (x target t : Q) :
  (lerp x target t - target == (1 - t) * (x - target))%Q.
Proof. unfold lerp. ring. Qed.

(** One frame, coordinate by coordinate. *)
Lemma frame_distance (offset : Q) (ptr : pointer) (delta : Q) (cam : camera) :
  let cam' := CameraRig_frame (Some offset) ptr delta cam in
  (position_z cam' - target_z offset
   == (1 - 2 * delta) * (position_z cam - target_z offset))%Q
  /\ (rotation_z cam' - target_roll offset
      == (1 - 2 * delta) * (rotation_z cam - target_roll offset))%Q
  /\ (rotation_x cam' - target_pitch ptr
      == (1 - 2 * delta) * (rotation_x cam - target_pitch ptr))%Q
  /\ (rotation_y cam' - target_yaw ptr
      == (1 - 2 * delta) * (rotation_y cam - target_yaw ptr))%Q.
Proof.
  simpl. unfold lerp, target_z, target_roll, target_pitch, target_yaw.
  repeat split; field.
Qed.

(** X28: the camera closes in geometrically.  After [n] frames under the
    same scroll offset, pointer and frame time [delta], each driven
    coordinate is off its target (5 - 70 offset for the depth, offset / 5
    for the roll, minus a twentieth of the pointer for pitch and yaw) by
    (1 - 2 delta) to the power [n] times what it was off at the start; a
    camera on its targets stays there. *)
Theorem camera_closes_in_geometrically
  (n : nat) (offset : Q) (ptr : pointer) (delta : Q) (cam : camera) :
  let cam' := frames n offset ptr delta cam in
  (position_z cam' - target_z offset
   == qpow (1 - 2 * delta) n * (position_z cam - target_z offset))%Q
  /\ (rotation_z cam' - target_roll offset
      == qpow (1 - 2 * delta) n * (rotation_z cam - target_roll offset))%Q
  /\ (rotation_x cam' - target_pitch ptr
      == qpow (1 - 2 * delta) n * (rotation_x cam - target_pitch ptr))%Q
  /\ (rotation_y cam' - target_yaw ptr
      == qpow (1 - 2 * delta) n * (rotation_y cam - target_yaw ptr))%Q.
Proof.
  cbv zeta. induction n as [|n (Hz & Hr & Hx & Hy)].
  - simpl. repeat split; ring.
  - destruct (frame_distance offset ptr delta (frames n offset ptr delta cam))
      as (Hz' & Hr' & Hx' & Hy').
    cbv zeta in Hz', Hr', Hx', Hy'.
    change (frames (S n) offset ptr delta cam)
      with (CameraRig_frame (Some offset) ptr delta (frames n offset ptr delta cam)).
    change (qpow (1 - 2 * delta) (S n))
      with ((1 - 2 * delta) * qpow (1 - 2 * delta) n)%Q.
    repeat split.
    + rewrite Hz', Hz. ring.
    + rewrite Hr', Hr. ring.
    + rewrite Hx', Hx. ring.
    + rewrite Hy', Hy. ring.
Qed.

(** X29: no overshoot on a short frame.  When the frame time is at most
    half a second (0 <= 2 delta <= 1), the new depth of the camera lies
    between the old depth and the target; so a camera whose depth is in
    [-65, 5] stays in that range under every scroll offset of [0, 1]. *)
Theorem camera_does_not_overshoot
  (offset : Q) (ptr : pointer) (delta : Q) (cam : camera) :
  (0 <= 2 * delta)%Q -> (2 * delta <= 1)%Q ->
  let z' := position_z (CameraRig_frame (Some offset) ptr delta cam) in
  (Qmin (position_z cam) (target_z offset) <= z')%Q
  /\ (z' <= Qmax (position_z cam) (target_z offset))%Q
  /\ ((0 <= offset)%Q -> (offset <= 1)%Q ->
      (-65 <= position_z cam)%Q -> (position_z cam <= 5)%Q ->
      (-65 <= z')%Q /\ (z' <= 5)%Q).
Proof.
  intros H0 H1. cbv zeta. simpl. unfold lerp, target_z.
  set (z := position_z cam).
  assert (Hconv : forall a b : Q, (a <= b)%Q ->
            (a <= (1 - delta * 2) * a + delta * 2 * b)%Q
            /\ ((1 - delta * 2) * a + delta * 2 * b <= b)%Q
            /\ (a <= (1 - delta * 2) * b + delta * 2 * a)%Q
            /\ ((1 - delta * 2) * b + delta * 2 * a <= b)%Q).
  { intros a b Hab.
    assert (Hd : (0 <= delta * 2 * (b - a))%Q)
      by (apply Qmult_le_0_compat; lra).
    assert (Hd' : (0 <= (1 - delta * 2) * (b - a))%Q)
      by (apply Qmult_le_0_compat; lra).
    repeat split; lra. }
  split; [|split].
  - destruct (Qlt_le_dec z (5 - 70 * offset)) as [Hlt|Hge].
    + rewrite Q.min_l by lra.
      destruct (Hconv z (5 + - (offset * 70))%Q) as (Ha & _); lra.
    + rewrite Q.min_r by lra.
      destruct (Hconv (5 + - (offset * 70))%Q z) as (_ & _ & Ha & _); lra.
  - destruct (Qlt_le_dec z (5 - 70 * offset)) as [Hlt|Hge].
    + rewrite Q.max_r by lra.
      destruct (Hconv z (5 + - (offset * 70))%Q) as (_ & Ha & _); lra.
    + rewrite Q.max_l by lra.
      destruct (Hconv (5 + - (offset * 70))%Q z) as (_ & _ & _ & Ha); lra.
  - intros Ho0 Ho1 Hz0 Hz1.
    destruct (Qlt_le_dec z (5 - 70 * offset)) as [Hlt|Hge].
    + destruct (Hconv z (5 + - (offset * 70))%Q) as (Ha & Hb & _); lra.
    + destruct (Hconv (5 + - (offset * 70))%Q z) as (_ & _ & Ha & Hb); lra.
Qed.

Lemma camera_does_not_overshoot_witness :
  let z' := position_z (CameraRig_frame (Some (1 # 2)) (mkPointer 0 0) (1 # 60)
                          (mkCamera 5 0 0 0)) in
  (Qmin (position_z (mkCamera 5 0 0 0)) (target_z (1 # 2)) <= z')%Q
  /\ (z' <= Qmax (position_z (mkCamera 5 0 0 0)) (target_z (1 # 2)))%Q
  /\ ((0 <= 1 # 2)%Q -> (1 # 2 <= 1)%Q ->
      (-65 <= position_z (mkCamera 5 0 0 0))%Q -> (position_z (mkCamera 5 0 0 0) <= 5)%Q ->
      (-65 <= z')%Q /\ (z' <= 5)%Q).
Proof.
  apply (camera_does_not_overshoot (1 # 2) (mkPointer 0 0) (1 # 60) (mkCamera 5 0 0 0)).
  - vm_compute. discriminate.
  - vm_compute. discriminate.
Defined.

(** X30: a long frame throws the camera off.  The frame time is not
    clamped: after a frame of more than half a second the depth is on the
    other side of its target, and after a frame of more than a second it is
    farther from the target than before. *)
Theorem long_frame_overshoots
  (offset : Q) (ptr : pointer) (delta : Q) (cam : camera) :
  ~ (position_z cam == target_z offset)%Q ->
  let z' := position_z (CameraRig_frame (Some offset) ptr delta cam) in
  ((1 # 2 < delta)%Q ->
   ((z' - target_z offset) * (position_z cam - target_z offset) < 0)%Q)
  /\ ((1 < delta)%Q ->
      ((position_z cam - target_z offset) * (position_z cam - target_z offset)
       < (z' - target_z offset) * (z' - target_z offset))%Q).
Proof.
  intros Hne. cbv zeta.
  destruct (frame_distance offset ptr delta cam) as (Hz & _). cbv zeta in Hz.
  set (z' := position_z (CameraRig_frame (Some offset) ptr delta cam)) in *.
  set (d := (position_z cam - target_z offset)%Q) in *.
  assert (Hd : (0 < d * d)%Q).
  { destruct (Qlt_le_dec d 0) as [Hneg|Hpos].
    - assert (0 < (- d) * (- d))%Q by (apply Qmult_lt_0_compat; lra). lra.
    - assert (0 < d)%Q.
      { destruct (Qeq_dec d 0) as [Hz0|Hz0]; [|lra].
        exfalso. apply Hne. unfold d in Hz0. lra. }
      now apply Qmult_lt_0_compat. }
  split; intros Hdelta.
  - assert (E : ((z' - target_z offset) * d == (1 - 2 * delta) * (d * d))%Q)
      by (rewrite Hz; ring).
    assert (0 < (2 * delta - 1) * (d * d))%Q by (apply Qmult_lt_0_compat; lra).
    lra.
  - assert (E : ((z' - target_z offset) * (z' - target_z offset)
                 == (1 - 2 * delta) * (1 - 2 * delta) * (d * d))%Q)
      by (rewrite Hz; ring).
    assert (H4 : (0 < 4 * delta * (delta - 1))%Q) by (apply Qmult_lt_0_compat; lra).
    assert (0 < 4 * delta * (delta - 1) * (d * d))%Q
      by (apply Qmult_lt_0_compat; assumption).
    lra.
Qed.

Lemma long_frame_overshoots_witness :
  let z' := position_z (CameraRig_frame (Some 0%Q) (mkPointer 0 0) 2 (mkCamera 0 0 0 0)) in
  ((1 # 2 < 2)%Q ->
   ((z' - target_z 0) * (position_z (mkCamera 0 0 0 0) - target_z 0) < 0)%Q)
  /\ ((1 < 2)%Q ->
      ((position_z (mkCamera 0 0 0 0) - target_z 0)
       * (position_z (mkCamera 0 0 0 0) - target_z 0)
       < (z' - target_z 0) * (z' - target_z 0))%Q).
Proof.
  apply (long_frame_overshoots 0 (mkPointer 0 0) 2 (mkCamera 0 0 0 0)).
  vm_compute. discriminate.
Defined.

End CameraRig.
